(** * ProjectAIli: conversation buffer, stream decoder, request dispatcher

    A shallow embedding of [main.go] of the ProjectAIli command-line chat
    client, and the properties of its conversation/request pipeline.

    Conventions of the embedding:
    - a Go [string] is a sequence of bytes: [string] of 8-bit [ascii];
    - a Go [int] is a 64-bit two's complement integer: a [Z] with its
      wrap-around written [int_wrap] wherever the code adds or subtracts;
    - an [error] is a value of the inductive type [error]; [nil] is [None];
    - the mutex of [Conversation] is not modelled: every function below is
      one critical section, run to completion;
    - what the environment decides (standard input, the clock, the file
      system, the HTTP transport, the rate limiter and the cancellation
      signal) is read from an explicit [Env]; what the program does to
      the environment is recorded as a trace of [Event]s. *)

From Stdlib Require Import ZArith Ascii String DecimalString Lia.
From stdpp Require Import gmap strings list.

Set Warnings "-register-all".
Local Open Scope Z_scope.

(** ** Machine integers *)

Definition int_wrap (z : Z) : Z := (z + 2 ^ 63) mod 2 ^ 64 - 2 ^ 63.

Definition max_int : Z := 2 ^ 63 - 1.

(** ** The constants of [main.go] *)

Definition maxTokens : Z := 8000.
Definition timeoutSeconds : Z := 30.
Definition exitCommand : string := "exit".
Definition maxRetries : Z := 3.
Definition backoffFactor : Z := 2.
Definition initialBackoff : Z := 1000000000.
Definition maxConversationTokens : Z := 4000.
Definition requestsPerSecond : Z := 10.

(** ** Errors

    The sentinel errors of the Go libraries are constructors of their own,
    so that [errors.Is] compares identities and not message texts.
    [wrapError msg inner] is the value of [fmt.Errorf] with a [%w] verb:
    [msg] is its whole text and [inner] what [Unwrap] returns. *)

Inductive error : Type :=
  | io_EOF
  | bufio_ErrTooLong
  | context_Canceled
  | context_DeadlineExceeded
  | errorString (msg : string)
  | wrapError (msg : string) (inner : error).

Module errors.

Definition Error (e : error) : string :=
  match e with
  | io_EOF => "EOF"
  | bufio_ErrTooLong => "bufio.Scanner: token too long"
  | context_Canceled => "context canceled"
  | context_DeadlineExceeded => "context deadline exceeded"
  | errorString msg => msg
  | wrapError msg _ => msg
  end.

Definition Unwrap (e : error) : option error :=
  match e with
  | wrapError _ inner => Some inner
  | _ => None
  end.

Definition same (e target : error) : bool :=
  match e, target with
  | io_EOF, io_EOF => true
  | bufio_ErrTooLong, bufio_ErrTooLong => true
  | context_Canceled, context_Canceled => true
  | context_DeadlineExceeded, context_DeadlineExceeded => true
  | _, _ => false
  end.

(** [errors.Is(err, target)] for a sentinel [target]: walk the chain of
    [Unwrap]. *)
Fixpoint Is (e target : error) : bool :=
  same e target ||
  match e with
  | wrapError _ inner => Is inner target
  | _ => false
  end.

End errors.

Module fmt.

(** [fmt.Errorf(format ++ "%w", err)] where [prefix] is the text the
    format produces before the verb. A [nil] operand prints as Go
    prints it and wraps nothing. *)
Definition Errorf_w (prefix : string) (err : option error) : error :=
  match err with
  | Some e => wrapError (prefix +:+ errors.Error e) e
  | None => errorString (prefix +:+ "%!w(<nil>)")
  end.

(** The verb [%d]. *)
Definition d (z : Z) : string := NilZero.string_of_int (Z.to_int z).

End fmt.

(** ** The [strings] package

    Go strings are byte sequences holding UTF-8. White space is what
    [unicode.IsSpace] accepts: the six ASCII characters, U+0085, U+00A0
    and the characters of the White_Space property beyond Latin-1.
    A UTF-8 lead byte never occurs inside another rune, and Go decodes
    an invalid byte as a rune of width 1 that is no space, so looking
    for the encodings of the space characters at every byte position
    is what decoding rune by rune does. *)

Module strings.

Definition byte (c : ascii) : N := N_of_ascii c.

Definition asciiSpace (c : ascii) : bool :=
  let b := byte c in
  ((9 <=? b) && (b <=? 13) || (b =? 32))%N.

(** Width in bytes of the white-space rune [s] starts with, [0] when
    it starts with none. *)
Definition spaceWidth (s : string) : nat :=
  match s with
  | EmptyString => 0
  | String c0 r0 =>
      if asciiSpace c0 then 1
      else
        let b0 := byte c0 in
        match r0 with
        | EmptyString => 0
        | String c1 r1 =>
            let b1 := byte c1 in
            if ((b0 =? 194) && ((b1 =? 133) || (b1 =? 160)))%N then 2
            else
              match r1 with
              | EmptyString => 0
              | String c2 _ =>
                  let b2 := byte c2 in
                  if ((b0 =? 225) && (b1 =? 154) && (b2 =? 128))%N
                  then 3
                  else if ((b0 =? 226) && (b1 =? 128)
                           && ((128 <=? b2) && (b2 <=? 138)
                               || (b2 =? 168) || (b2 =? 169)
                               || (b2 =? 175)))%N
                  then 3
                  else if ((b0 =? 226) && (b1 =? 129) && (b2 =? 159))%N
                  then 3
                  else if ((b0 =? 227) && (b1 =? 128) && (b2 =? 128))%N
                  then 3
                  else 0
              end
        end
  end%nat.

(** [Fields]: the maximal runs of bytes that belong to no white-space
    rune. [skip] counts the bytes still to pass of the space rune
    being read, [cur] is the field being read, if any. *)
Fixpoint Fields_from (s : string) (skip : nat) (cur : option string)
  : list string :=
  match s with
  | EmptyString =>
      match cur with Some w => [w] | None => [] end
  | String c r =>
      match skip with
      | S k => Fields_from r k cur
      | O =>
          match spaceWidth s with
          | S k =>
              match cur with
              | Some w => w :: Fields_from r k None
              | None => Fields_from r k None
              end
          | O =>
              Fields_from r 0
                (Some (default "" cur +:+ String c ""))
          end
      end
  end.

Definition Fields (s : string) : list string := Fields_from s 0 None.

Fixpoint TrimLeft_from (s : string) (skip : nat) : string :=
  match s with
  | EmptyString => ""
  | String _ r =>
      match skip with
      | S k => TrimLeft_from r k
      | O =>
          match spaceWidth s with
          | S k => TrimLeft_from r k
          | O => s
          end
      end
  end.

(** [s] is a sequence of white-space runes. *)
Fixpoint allSpace_from (s : string) (skip : nat) : bool :=
  match s with
  | EmptyString => true
  | String _ r =>
      match skip with
      | S k => allSpace_from r k
      | O =>
          match spaceWidth s with
          | S k => allSpace_from r k
          | O => false
          end
      end
  end.

(** Dropping the trailing white-space runes leaves the shortest prefix
    that is followed by white space only. *)
Fixpoint TrimRight (s : string) : string :=
  match s with
  | EmptyString => ""
  | String c r =>
      if allSpace_from s 0 then "" else String c (TrimRight r)
  end.

Definition TrimSpace (s : string) : string :=
  TrimRight (TrimLeft_from s 0).

Definition HasPrefix (s pre : string) : bool := String.prefix pre s.

Definition TrimPrefix (s pre : string) : string :=
  if HasPrefix s pre
  then String.substring (String.length pre)
         (String.length s - String.length pre) s
  else s.

Definition lower (c : ascii) : N :=
  let b := byte c in
  if ((65 <=? b) && (b <=? 90))%N then (b + 32)%N else b.

(** [EqualFold] against an ASCII target none of whose letters has a
    non-ASCII case variant (no [k] and no [s]; [exitCommand] is the
    only target in the program): equality of the bytes up to ASCII
    case. *)
Fixpoint EqualFold (s t : string) : bool :=
  match s, t with
  | EmptyString, EmptyString => true
  | String a s', String b t' => (lower a =? lower b)%N && EqualFold s' t'
  | _, _ => false
  end.

(** [SplitN(s, " ", 2)]: cut at the first space, if there is one. *)
Fixpoint cut_space (s : string) : option (string * string) :=
  match s with
  | EmptyString => None
  | String c r =>
      if (byte c =? 32)%N then Some ("", r)
      else
        match cut_space r with
        | Some (a, b) => Some (String c a, b)
        | None => None
        end
  end.

Definition SplitN_space_2 (s : string) : list string :=
  match cut_space s with
  | Some (a, b) => [a; b]
  | None => [s]
  end.

End strings.

(** [len(strings.Fields(s))], the token estimate used throughout. *)
Definition lenFields (s : string) : Z :=
  Z.of_nat (length (strings.Fields s)).

(** ** Messages and the conversation *)

Record Message : Type := mkMessage {
  Role : string;
  Content : string;
  Timestamp : Z
}.

Record Conversation : Type := mkConversation {
  History : list Message;
  tokenCount : Z
}.

(** [newConversation], given what [loadSystemPrompt] read and the
    clock. *)
Definition newConversation (systemPrompt : string) (now : Z)
  : Conversation :=
  {| History := [mkMessage "system" systemPrompt now];
     tokenCount := lenFields systemPrompt |}.

(** The loop of [truncateHistory]. [len(c.History) > 1] is the pattern
    [_ :: m1 :: rest]: then [c.History[1]] is [m1] and [c.History[2:]]
    is [rest]. *)
Fixpoint truncateHistory_loop (h : list Message) (count : Z)
  : Conversation :=
  match h with
  | _ :: m1 :: rest =>
      if count >? maxConversationTokens then
        let removedTokens := lenFields (Content m1) in
        truncateHistory_loop rest (int_wrap (count - removedTokens))
      else {| History := h; tokenCount := count |}
  | _ => {| History := h; tokenCount := count |}
  end.

Definition truncateHistory (c : Conversation) : Conversation :=
  truncateHistory_loop (History c) (tokenCount c).

Definition addMessage (c : Conversation) (role content : string) (now : Z)
  : Conversation :=
  let tokens := lenFields content in
  truncateHistory
    {| History := History c ++ [mkMessage role content now];
       tokenCount := int_wrap (tokenCount c + tokens) |}.

Definition getHistory (c : Conversation) : list Message := History c.

Definition countTokens (messages : list Message) : Z :=
  fold_left (fun count msg => int_wrap (count + lenFields (Content msg)))
    messages 0.

Definition replaceWith (c other : Conversation) : Conversation :=
  {| History := History other; tokenCount := tokenCount other |}.

(** The sum of the token estimates of a list of messages, as a
    mathematical integer. *)
Definition sumTokens (messages : list Message) : Z :=
  foldr (fun msg acc => lenFields (Content msg) + acc) 0 messages.

(** A text of [n] one-letter words. *)
Fixpoint words (n : nat) : string :=
  match n with
  | O => ""
  | S k => String "a" (String " " (words k))
  end.

(** A run of [addMessage] calls. *)
Definition addMessages (c : Conversation)
  (calls : list (string * string * Z)) : Conversation :=
  fold_left (fun c '(role, content, now) => addMessage c role content now)
    calls c.

(** [truncateConversation]: the loop runs over the indices from the last
    to the first, that is over the reversed history; [truncated] grows at
    its front. *)
Fixpoint truncateConversation_loop (newestFirst : list Message)
  (maxTokens totalTokens : Z) (truncated : list Message) : list Message :=
  match newestFirst with
  | [] => truncated
  | message :: older =>
      let tokens := lenFields (Content message) in
      if int_wrap (totalTokens + tokens) >? maxTokens then truncated
      else
        truncateConversation_loop older maxTokens
          (int_wrap (totalTokens + tokens)) (message :: truncated)
  end.

Definition truncateConversation (history : list Message) (maxTokens : Z)
  : list Message :=
  truncateConversation_loop (rev history) maxTokens 0 [].

(** ** [bufio.Scanner] with the default split function [ScanLines]

    An [io.Reader] is the bytes it delivers and the way it ends: with
    [io.EOF] ([None]) or with an error. [Read] may return its last
    bytes together with the end, or report the end on a read of its
    own: [bundled] is the number of bytes at the end of [content] that
    come with the end (0 when the end is reported alone).

    A run of [for scanner.Scan() { ... scanner.Text() ... }] is a
    [Scanned]: [Token line e next] is a call of [Scan] that returns true
    with [Text() = line], after which [Err()] would return [e];
    [Stop e] is the call that returns false. A line is cut at its line
    feed and loses one trailing carriage return; the bytes after the
    last line feed are a last line, if there are any. The scanner reads
    on only when it holds no whole line: a line whose line feed came
    before the end of the reader is returned with [Err() = nil], and
    from the read that brings the end on [Err()] is that end. A line
    that does not fit the buffer of [MaxScanTokenSize] bytes together
    with its line feed stops the scanner with [ErrTooLong] when it
    would have to read on. *)

Record Reader : Type := mkReader {
  content : string;
  readErr : option error;
  bundled : nat
}.

Inductive Scanned : Type :=
  | Token (line : string) (errNow : option error) (next : Scanned)
  | Stop (errNow : option error).

Module bufio.

Definition MaxScanTokenSize : N := 65536.

Fixpoint dropCR (data : string) : string :=
  match data with
  | EmptyString => ""
  | String c r =>
      match r with
      | EmptyString => if (strings.byte c =? 13)%N then "" else data
      | _ => String c (dropCR r)
      end
  end.

(** [cur] is the line being read and [n] its length; [clean] bytes of
    [s] are still to come before the end of the reader is seen, and
    [seen] tells that it has been. *)
Fixpoint scan_from (s cur : string) (n : N) (clean : nat) (seen : bool)
  (srcEnd : option error) : Scanned :=
  match s with
  | EmptyString =>
      if (n =? 0)%N then Stop srcEnd
      else Token (dropCR cur) srcEnd (Stop srcEnd)
  | String c r =>
      let seen' := seen || (clean =? 0)%nat in
      if (strings.byte c =? 10)%N
      then Token (dropCR cur) (if seen' then srcEnd else None)
             (scan_from r "" 0 (clean - 1) seen' srcEnd)
      else if negb seen' && (MaxScanTokenSize <=? n + 1)%N
      then Stop (Some bufio_ErrTooLong)
      else scan_from r (cur +:+ String c "") (n + 1) (clean - 1) seen' srcEnd
  end.

(** [Err()] does not report [io.EOF]. *)
Definition Err (err : option error) : option error :=
  match err with
  | Some io_EOF => None
  | _ => err
  end.

Definition scan (r : Reader) : Scanned :=
  scan_from (content r) "" 0 (String.length (content r) - bundled r) false
    (Err (readErr r)).

(** The lines a run yields. *)
Fixpoint lines (sc : Scanned) : list string :=
  match sc with
  | Token line _ next => line :: lines next
  | Stop _ => []
  end.

End bufio.

(** ** [encoding/json]

    [json.Unmarshal] first checks that the whole input is one JSON text
    and then stores it in the Go value it is given. The check is
    [parse]; the two targets of the program are a
    [map[string]interface{}] ([Unmarshal_map]) and a [[]Message]
    ([Unmarshal_Messages]). The texts of the library's error messages
    are not reproduced. *)

(** The values an [interface{}] holds after decoding. *)
Inductive any : Type :=
  | anyNil
  | anyBool (b : bool)
  | anyFloat64 (literal : string)
  | anyString (s : string)
  | anySlice (elems : list any)
  | anyMap (m : gmap string any).

Module json.

Import strings.

Inductive Value : Type :=
  | VNull
  | VBool (b : bool)
  | VNumber (literal : string)
  | VString (s : string)
  | VArray (elems : list Value)
  | VObject (members : list (string * Value)).

Inductive Tok : Type :=
  | TLBrace | TRBrace | TLBracket | TRBracket | TColon | TComma
  | TStr (raw : string)
  | TNum (literal : string)
  | TWord (w : string).

Inductive LexState : Type :=
  | Idle
  | InStr (raw : string) (esc : bool)
  | InNum (literal : string)
  | InWord (w : string).

Definition isSpace (b : N) : bool :=
  ((b =? 32) || (b =? 9) || (b =? 13) || (b =? 10))%N.

Definition isDigit (b : N) : bool := ((48 <=? b) && (b <=? 57))%N.

Definition isNumChar (b : N) : bool :=
  (isDigit b || (b =? 45) || (b =? 43) || (b =? 46)
   || (b =? 101) || (b =? 69))%N.

Definition isLetter (b : N) : bool := ((97 <=? b) && (b <=? 122))%N.

Definition punct (b : N) : option Tok :=
  if (b =? 123)%N then Some TLBrace
  else if (b =? 125)%N then Some TRBrace
  else if (b =? 91)%N then Some TLBracket
  else if (b =? 93)%N then Some TRBracket
  else if (b =? 58)%N then Some TColon
  else if (b =? 44)%N then Some TComma
  else None.

Definition snoc (s : string) (c : ascii) : string := s +:+ String c "".

(** What a byte does when no token is being read. *)
Inductive Act : Type :=
  | Enter (st : LexState)
  | Emit (t : Tok)
  | Bad.

Definition idleAct (c : ascii) : Act :=
  let b := byte c in
  if isSpace b then Enter Idle
  else if (b =? 34)%N then Enter (InStr "" false)
  else if isDigit b || (b =? 45)%N then Enter (InNum (String c ""))
  else if isLetter b then Enter (InWord (String c ""))
  else
    match punct b with
    | Some t => Emit t
    | None => Bad
    end.

(** The lexer reads byte by byte. A number or a word ends at the first
    byte that cannot continue it, which is then read from [Idle]. *)
Fixpoint lex (s : string) (st : LexState) : option (list Tok) :=
  match s with
  | EmptyString =>
      match st with
      | Idle => Some []
      | InStr _ _ => None
      | InNum lit => Some [TNum lit]
      | InWord w => Some [TWord w]
      end
  | String c r =>
      let b := byte c in
      let idle (_ : unit) :=
        match idleAct c with
        | Enter st' => lex r st'
        | Emit t => cons t <$> lex r Idle
        | Bad => None
        end in
      match st with
      | Idle => idle ()
      | InStr raw esc =>
          if (b <? 32)%N then None
          else if esc then lex r (InStr (snoc raw c) false)
          else if (b =? 34)%N then cons (TStr raw) <$> lex r Idle
          else lex r (InStr (snoc raw c) (b =? 92)%N)
      | InNum lit =>
          if isNumChar b then lex r (InNum (snoc lit c))
          else cons (TNum lit) <$> idle ()
      | InWord w =>
          if isLetter b then lex r (InWord (snoc w c))
          else cons (TWord w) <$> idle ()
      end
  end.

(** *** Numbers *)

Inductive NumState : Type :=
  | NStart | NMinus | NZero | NInt | NDot | NFrac | NE | NESign | NExp
  | NBad.

Definition numStep (st : NumState) (b : N) : NumState :=
  let digit := isDigit b in
  let e := ((b =? 101) || (b =? 69))%N in
  match st with
  | NStart =>
      if (b =? 45)%N then NMinus
      else if (b =? 48)%N then NZero
      else if digit then NInt else NBad
  | NMinus =>
      if (b =? 48)%N then NZero else if digit then NInt else NBad
  | NZero =>
      if (b =? 46)%N then NDot else if e then NE else NBad
  | NInt =>
      if digit then NInt
      else if (b =? 46)%N then NDot else if e then NE else NBad
  | NDot => if digit then NFrac else NBad
  | NFrac => if digit then NFrac else if e then NE else NBad
  | NE =>
      if ((b =? 43) || (b =? 45))%N then NESign
      else if digit then NExp else NBad
  | NESign => if digit then NExp else NBad
  | NExp => if digit then NExp else NBad
  | NBad => NBad
  end.

Fixpoint numRun (s : string) (st : NumState) : NumState :=
  match s with
  | EmptyString => st
  | String c r => numRun r (numStep st (byte c))
  end.

Definition validNumber (lit : string) : bool :=
  match numRun lit NStart with
  | NZero | NInt | NFrac | NExp => true
  | _ => false
  end.

(** The decimal a valid literal denotes, sign apart: [digits * 10 ^
    (exp - fracLen)], read with the automaton above. *)
Record Dec : Type := mkDec {
  digits : Z; fracLen : Z; expNeg : bool; expo : Z; nDigits : Z
}.

Fixpoint decRun (s : string) (st : NumState) (d : Dec) : Dec :=
  match s with
  | EmptyString => d
  | String c r =>
      let b := byte c in
      let st' := numStep st b in
      let v := Z.of_N (b - 48) in
      let d' :=
        match st' with
        | NZero | NInt =>
            mkDec (10 * digits d + v) 0 false 0 (nDigits d + 1)
        | NFrac =>
            mkDec (10 * digits d + v) (fracLen d + 1) false 0
              (nDigits d + 1)
        | NESign =>
            mkDec (digits d) (fracLen d) (b =? 45)%N 0 (nDigits d)
        | NExp =>
            mkDec (digits d) (fracLen d) (expNeg d) (10 * expo d + v)
              (nDigits d)
        | _ => d
        end in
      decRun r st' d'
  end.

(** [strconv.ParseFloat] rounds to the nearest [float64], ties to
    even, and reports a range error exactly when the result is
    infinite: when the magnitude reaches [2^1024 - 2^970]. *)
Definition float64_overflows (lit : string) : bool :=
  let d := decRun lit NStart (mkDec 0 0 false 0 0) in
  let e := (if expNeg d then - expo d else expo d) - fracLen d in
  let limit := 2 ^ 1024 - 2 ^ 970 in
  if digits d =? 0 then false
  else if 310 <? e then true
  else if 0 <=? e then limit <=? digits d * 10 ^ e
  else if nDigits d <=? - e then false
  else limit * 10 ^ (- e) <=? digits d.

(** *** Strings *)

Definition hexVal (b : N) : option N :=
  if isDigit b then Some (b - 48)%N
  else if ((97 <=? b) && (b <=? 102))%N then Some (b - 87)%N
  else if ((65 <=? b) && (b <=? 70))%N then Some (b - 55)%N
  else None.

(** Four hexadecimal digits at the head of [s]. *)
Definition hex4 (s : string) : option (N * string) :=
  match s with
  | String c0 (String c1 (String c2 (String c3 r))) =>
      h0 ← hexVal (byte c0); h1 ← hexVal (byte c1);
      h2 ← hexVal (byte c2); h3 ← hexVal (byte c3);
      Some ((((h0 * 16 + h1) * 16 + h2) * 16 + h3)%N, r)
  | _ => None
  end.

(** [getu4]: a [\uXXXX] escape at the head of [s]. *)
Definition getu4 (s : string) : option (N * string) :=
  match s with
  | String c0 (String c1 r) =>
      if ((byte c0 =? 92) && (byte c1 =? 117))%N then hex4 r else None
  | _ => None
  end.

Definition chr (b : N) : ascii := ascii_of_N b.

Definition RuneError : N := 65533.

(** [utf8.EncodeRune]. *)
Definition encodeRune (r : N) : string :=
  let r :=
    if ((55296 <=? r) && (r <? 57344) || (1114111 <? r))%N
    then RuneError else r in
  if (r <? 128)%N then String (chr r) ""
  else if (r <? 2048)%N then
    String (chr (192 + r / 64)) (String (chr (128 + r mod 64)) "")
  else if (r <? 65536)%N then
    String (chr (224 + r / 4096))
      (String (chr (128 + (r / 64) mod 64))
         (String (chr (128 + r mod 64)) ""))
  else
    String (chr (240 + r / 262144))
      (String (chr (128 + (r / 4096) mod 64))
         (String (chr (128 + (r / 64) mod 64))
            (String (chr (128 + r mod 64)) ""))).

Definition cont (b : N) : bool := ((128 <=? b) && (b <=? 191))%N.

(** Width of the well-formed UTF-8 sequence at the head of [s], whose
    first byte is not ASCII; [0] when there is none. *)
Definition runeWidth (s : string) : nat :=
  match s with
  | String c0 (String c1 r1) =>
      let b0 := byte c0 in
      let b1 := byte c1 in
      if ((194 <=? b0) && (b0 <=? 223))%N then
        if cont b1 then 2 else 0
      else
        let second3 :=
          if (b0 =? 224)%N then ((160 <=? b1) && (b1 <=? 191))%N
          else if (b0 =? 237)%N then ((128 <=? b1) && (b1 <=? 159))%N
          else ((225 <=? b0) && (b0 <=? 239))%N && cont b1 in
        let second4 :=
          if (b0 =? 240)%N then ((144 <=? b1) && (b1 <=? 191))%N
          else if (b0 =? 244)%N then ((128 <=? b1) && (b1 <=? 143))%N
          else ((241 <=? b0) && (b0 <=? 243))%N && cont b1 in
        match r1 with
        | String c2 r2 =>
            if second3 then (if cont (byte c2) then 3 else 0)
            else if second4 then
              match r2 with
              | String c3 _ =>
                  if cont (byte c2) && cont (byte c3) then 4 else 0
              | EmptyString => 0
              end
            else 0
        | EmptyString => 0
        end
  | _ => 0
  end%nat.

Definition simpleEscape (b : N) : option N :=
  if ((b =? 34) || (b =? 92) || (b =? 47))%N then Some b
  else if (b =? 98)%N then Some 8%N
  else if (b =? 102)%N then Some 12%N
  else if (b =? 110)%N then Some 10%N
  else if (b =? 114)%N then Some 13%N
  else if (b =? 116)%N then Some 9%N
  else None.

Definition isSurrogate (r : N) : bool :=
  ((55296 <=? r) && (r <? 57344))%N.

(** [utf16.DecodeRune]. *)
Definition decodeSurrogates (r1 r2 : N) : N :=
  if ((55296 <=? r1) && (r1 <? 56320)
      && (56320 <=? r2) && (r2 <? 57344))%N
  then ((r1 - 55296) * 1024 + (r2 - 56320) + 65536)%N
  else RuneError.

(** [unquote] of the bytes between the quotes. Every step consumes at
    least one byte, so the length of the text and one are fuel
    enough. *)
Fixpoint unquote_fuel (fuel : nat) (s : string) : option string :=
  match fuel with
  | O => None
  | S f =>
      match s with
      | EmptyString => Some ""
      | String c r =>
          let b := byte c in
          if (b =? 92)%N then
            match r with
            | EmptyString => None
            | String e r' =>
                match simpleEscape (byte e) with
                | Some x => String (chr x) <$> unquote_fuel f r'
                | None =>
                    if (byte e =? 117)%N then
                      match hex4 r' with
                      | None => None
                      | Some (rr, r2) =>
                          if isSurrogate rr then
                            match getu4 r2 with
                            | Some (rr1, r3) =>
                                let dec := decodeSurrogates rr rr1 in
                                if (dec =? RuneError)%N
                                then append (encodeRune RuneError)
                                       <$> unquote_fuel f r2
                                else append (encodeRune dec)
                                       <$> unquote_fuel f r3
                            | None =>
                                append (encodeRune RuneError)
                                  <$> unquote_fuel f r2
                            end
                          else append (encodeRune rr)
                                 <$> unquote_fuel f r2
                      end
                    else None
                end
            end
          else if ((b =? 34) || (b <? 32))%N then None
          else if (b <? 128)%N then String c <$> unquote_fuel f r
          else
            match runeWidth s with
            | O => append (encodeRune RuneError) <$> unquote_fuel f r
            | w =>
                append (String.substring 0 w s)
                  <$> unquote_fuel f
                        (String.substring w (String.length s - w) s)
            end
      end
  end.

Definition unquote (raw : string) : option string :=
  unquote_fuel (S (String.length raw)) raw.

(** *** The grammar

    [depth] is the number of arrays and objects open; the library
    refuses more than [maxNestingDepth]. Every call of [parseValue]
    consumes a token, and [parseElems] and [parseMembers] call it at
    once, so twice the number of tokens and two are fuel enough. *)

Definition maxNestingDepth : N := 10000.

Fixpoint parseValue (fuel : nat) (depth : N) (ts : list Tok)
  : option (Value * list Tok) :=
  match fuel with
  | O => None
  | S f =>
      match ts with
      | TStr raw :: ts' => s ← unquote raw; Some (VString s, ts')
      | TNum lit :: ts' =>
          if validNumber lit then Some (VNumber lit, ts') else None
      | TWord w :: ts' =>
          if String.eqb w "true" then Some (VBool true, ts')
          else if String.eqb w "false" then Some (VBool false, ts')
          else if String.eqb w "null" then Some (VNull, ts')
          else None
      | TLBracket :: ts' =>
          if (maxNestingDepth <? depth + 1)%N then None
          else
            match ts' with
            | TRBracket :: ts2 => Some (VArray [], ts2)
            | _ =>
                '(vs, ts2) ← parseElems f (depth + 1)%N ts';
                Some (VArray vs, ts2)
            end
      | TLBrace :: ts' =>
          if (maxNestingDepth <? depth + 1)%N then None
          else
            match ts' with
            | TRBrace :: ts2 => Some (VObject [], ts2)
            | _ =>
                '(ms, ts2) ← parseMembers f (depth + 1)%N ts';
                Some (VObject ms, ts2)
            end
      | _ => None
      end
  end
with parseElems (fuel : nat) (depth : N) (ts : list Tok)
  : option (list Value * list Tok) :=
  match fuel with
  | O => None
  | S f =>
      '(v, ts1) ← parseValue f depth ts;
      match ts1 with
      | TComma :: ts2 =>
          '(vs, ts3) ← parseElems f depth ts2; Some (v :: vs, ts3)
      | TRBracket :: ts2 => Some ([v], ts2)
      | _ => None
      end
  end
with parseMembers (fuel : nat) (depth : N) (ts : list Tok)
  : option (list (string * Value) * list Tok) :=
  match fuel with
  | O => None
  | S f =>
      match ts with
      | TStr raw :: TColon :: ts1 =>
          key ← unquote raw;
          '(v, ts2) ← parseValue f depth ts1;
          match ts2 with
          | TComma :: ts3 =>
              '(ms, ts4) ← parseMembers f depth ts3;
              Some ((key, v) :: ms, ts4)
          | TRBrace :: ts3 => Some ([(key, v)], ts3)
          | _ => None
          end
      | _ => None
      end
  end.

(** The validity check: one value and nothing after it. *)
Definition parse (data : string) : option Value :=
  ts ← lex data Idle;
  '(v, rest) ← parseValue (2 * length ts + 2) 0 ts;
  match rest with
  | [] => Some v
  | _ => None
  end.

Definition SyntaxError : error := errorString "json: syntax error".

Definition UnmarshalTypeError (value type : string) : error :=
  errorString
    ("json: cannot unmarshal " +:+ value +:+ " into Go value of type "
     +:+ type).

(** *** Decoding into [interface{}]

    A number becomes a [float64], which it has to fit; of the members
    of an object with the same key the last one stays. *)
Fixpoint toAny (v : Value) : option any :=
  match v with
  | VNull => Some anyNil
  | VBool b => Some (anyBool b)
  | VNumber lit =>
      if float64_overflows lit then None else Some (anyFloat64 lit)
  | VString s => Some (anyString s)
  | VArray elems =>
      anySlice <$>
        (fix go (l : list Value) : option (list any) :=
           match l with
           | [] => Some []
           | x :: l' =>
               match toAny x, go l' with
               | Some a, Some r => Some (a :: r)
               | _, _ => None
               end
           end) elems
  | VObject members =>
      anyMap <$>
        (fix go (l : list (string * Value)) (m : gmap string any)
           : option (gmap string any) :=
           match l with
           | [] => Some m
           | (k, x) :: l' =>
               match toAny x with
               | Some a => go l' (<[k := a]> m)
               | None => None
               end
           end) members ∅
  end.

Definition kind (v : Value) : string :=
  match v with
  | VNull => "null"
  | VBool _ => "bool"
  | VNumber _ => "number"
  | VString _ => "string"
  | VArray _ => "array"
  | VObject _ => "object"
  end.

(** [json.Unmarshal(data, &m)] for a nil [m map[string]interface{}]:
    the map afterwards (empty where Go leaves it nil) or the error. *)
Definition Unmarshal_map (data : string) : gmap string any + error :=
  match parse data with
  | None => inr SyntaxError
  | Some VNull => inl ∅
  | Some (VObject members) =>
      match toAny (VObject members) with
      | Some (anyMap m) => inl m
      | _ => inr (UnmarshalTypeError "number" "float64")
      end
  | Some v => inr (UnmarshalTypeError (kind v) "map[string]interface {}")
  end.

(** *** Decoding into [[]Message]

    The fields are [role] and [content] ([Timestamp] is tagged [-]);
    a key names a field when it equals the field's name up to case;
    [null] leaves a field as it is; any other key is skipped. *)
Definition zeroTime : Z := 0.

Definition setField (msg : Message) (key : string) (v : Value)
  : option Message :=
  if EqualFold key "role" then
    match v with
    | VString s => Some (mkMessage s (Content msg) (Timestamp msg))
    | VNull => Some msg
    | _ => None
    end
  else if EqualFold key "content" then
    match v with
    | VString s => Some (mkMessage (Role msg) s (Timestamp msg))
    | VNull => Some msg
    | _ => None
    end
  else Some msg.

Fixpoint setFields (msg : Message) (members : list (string * Value))
  : option Message :=
  match members with
  | [] => Some msg
  | (key, v) :: rest => msg' ← setField msg key v; setFields msg' rest
  end.

Definition toMessage (v : Value) : option Message :=
  match v with
  | VNull => Some (mkMessage "" "" zeroTime)
  | VObject members => setFields (mkMessage "" "" zeroTime) members
  | _ => None
  end.

Fixpoint toMessages (elems : list Value) : option (list Message) :=
  match elems with
  | [] => Some []
  | v :: rest =>
      msg ← toMessage v; msgs ← toMessages rest; Some (msg :: msgs)
  end.

(** [json.Unmarshal(data, &history)] for a nil [history []Message]. *)
Definition Unmarshal_Messages (data : string) : list Message + error :=
  match parse data with
  | None => inr SyntaxError
  | Some VNull => inl []
  | Some (VArray elems) =>
      match toMessages elems with
      | Some msgs => inl msgs
      | None => inr (UnmarshalTypeError "value" "main.Message")
      end
  | Some v => inr (UnmarshalTypeError (kind v) "[]main.Message")
  end.

End json.

(** Single quotes for double ones, to write JSON texts legibly. *)
Fixpoint dq (s : string) : string :=
  match s with
  | EmptyString => ""
  | String c r =>
      String (if (strings.byte c =? 39)%N then ascii_of_N 34 else c) (dq r)
  end.

Definition LF : string := String (ascii_of_N 10) "".

(** ** The stream decoder *)

Definition extractContent (jsonResponse : gmap string any) : string :=
  match jsonResponse !! "choices" with
  | Some (anySlice (choice0 :: _)) =>
      match choice0 with
      | anyMap choice =>
          match choice !! "delta" with
          | Some (anyMap delta) =>
              match delta !! "content" with
              | Some (anyString content) => content
              | _ => ""
              end
          | _ => ""
          end
      | _ => ""
      end
  | _ => ""
  end.

(** What the loop of [processStreamResponse] leaves behind: the buffer,
    [lastError], and what [scanner.Err()] returns after the loop. *)
Fixpoint processStreamResponse_loop (sc : Scanned) (buffer : string)
  (lastError : option error) : string * option error * option error :=
  match sc with
  | Stop errNow => (buffer, lastError, errNow)
  | Token line errNow next =>
      if negb (strings.HasPrefix line "data: ")
      then processStreamResponse_loop next buffer lastError
      else
        let data := strings.TrimPrefix line "data: " in
        if String.eqb data "[DONE]" then (buffer, lastError, errNow)
        else
          match json.Unmarshal_map data with
          | inr err => processStreamResponse_loop next buffer (Some err)
          | inl jsonResponse =>
              let content := extractContent jsonResponse in
              if negb (String.eqb content "")
              then processStreamResponse_loop next (buffer +:+ content)
                     lastError
              else processStreamResponse_loop next buffer lastError
          end
  end.

Definition processStreamResponse (body : Reader) : string * option error :=
  let '(buffer, lastError, scanErr) :=
    processStreamResponse_loop (bufio.scan body) "" None in
  match scanErr with
  | Some err => ("", Some (fmt.Errorf_w "failed to read stream: " (Some err)))
  | None =>
      match lastError with
      | Some err =>
          ("", Some (fmt.Errorf_w "error processing stream: " (Some err)))
      | None => (strings.TrimSpace buffer, None)
      end
  end.

(** ** The environment and the trace *)

Record APIMessage : Type := mkAPIMessage {
  api_Role : string;
  api_Content : string
}.

Record Response : Type := mkResponse {
  StatusCode : Z;
  Body : Reader
}.

(** The case that fires in the [select] of [getAIResponseWithRetry]. *)
Inductive Select : Type :=
  | rateLimiter_C
  | ctx_Done (ctxErr : error).

(** What is printed on the terminal, colours apart. *)
Inductive Output : Type :=
  | Prompt
  | Goodbye
  | SaveFailed (err : error)
  | Saved (filename : string)
  | Usage
  | LoadFailed (err : error)
  | Summary (messages : nat) (tokens : Z) (last : list (string * string))
  | ResponseFailed (err : error)
  | AIPrefix
  | Streamed (ws : list string)
  | Newline.

Inductive Event : Type :=
  | Print (o : Output)
  | LogAttemptFailed (attempt : Z) (err : error)
  | LogRetrying (sleepTime : Z)
  | Sleep (duration : Z)
  | HTTPRequest (messages : list APIMessage)
  | WriteFile (filename data : string).

(** The environment answers at instants; every question the program
    asks takes the next instant. The functions of the libraries that
    only format or encode are part of it too. *)
Record Env : Type := mkEnv {
  select_wait : nat -> Select;
  httpClient_Do : nat -> list APIMessage -> Response + error;
  rand_Int63 : nat -> Z;
  time_Now : nat -> Z;
  ctx_Err : nat -> option error;
  os_ReadFile : nat -> string -> string + error;
  os_WriteFile : nat -> string -> string -> option error;
  time_Format : string -> Z -> string;
  json_MarshalIndent : list Message -> string + error
}.

Record World : Type := mkWorld {
  instant : nat;
  trace : list Event;
  stdin : Scanned;
  conversation : Conversation
}.

(** ** The state monad of the session *)

Definition M (A : Type) : Type := World -> A * World.

Definition ret {A : Type} (a : A) : M A := fun w => (a, w).

Definition bind {A B : Type} (m : M A) (k : A -> M B) : M B :=
  fun w => let (a, w') := m w in k a w'.

Notation "x <- m ;; k" := (bind m (fun x => k))
  (at level 20, m at level 99, k at level 200, only parsing).
Notation "'run' m ;; k" := (bind m (fun _ => k))
  (at level 20, m at level 99, k at level 200, only parsing).

Definition emit (e : Event) : M unit :=
  fun w =>
    (tt, mkWorld (instant w) (trace w ++ [e]) (stdin w) (conversation w)).

Definition ask : M nat :=
  fun w =>
    (instant w,
     mkWorld (S (instant w)) (trace w) (stdin w) (conversation w)).

Definition getConversation : M Conversation :=
  fun w => (conversation w, w).

Definition setConversation (c : Conversation) : M unit :=
  fun w => (tt, mkWorld (instant w) (trace w) (stdin w) c).

(** [scanner.Scan()] on standard input, with [scanner.Text()]. *)
Definition Scan_stdin : M (option string) :=
  fun w =>
    match stdin w with
    | Token line _ next =>
        (Some line, mkWorld (instant w) (trace w) next (conversation w))
    | Stop _ => (None, w)
    end.

Definition truncateString (s : string) (maxLen : nat) : string :=
  if (String.length s <=? maxLen)%nat then s
  else String.substring 0 (maxLen - 3) s +:+ "...".

Section Session.

Variable env : Env.

Definition time_Now_ : M Z := n <- ask ;; ret (time_Now env n).

Definition addMessage_ (role content : string) : M unit :=
  now <- time_Now_ ;;
  c <- getConversation ;;
  setConversation (addMessage c role content now).

Definition createRequestBody (truncatedHistory : list Message)
  : M (list APIMessage) :=
  currentTime <- time_Now_ ;;
  let systemMessage :=
    "Current date and time: " +:+ time_Format env "RFC3339" currentTime in
  ret (mkAPIMessage "system" systemMessage
       :: map (fun msg => mkAPIMessage (Role msg) (Content msg))
            truncatedHistory).

(** [json.Marshal] cannot fail on the body built here, of strings,
    numbers and a boolean, nor [http.NewRequestWithContext] on the
    constant method and URL: of [sendRequest] the error of
    [httpClient.Do] is the one that can occur. The request is recorded
    by the messages of its body. *)
Definition sendRequest : M (Response + error) :=
  c <- getConversation ;;
  let truncatedHistory := truncateConversation (getHistory c) maxTokens in
  requestBody <- createRequestBody truncatedHistory ;;
  run emit (HTTPRequest requestBody) ;;
  n <- ask ;;
  ret (httpClient_Do env n requestBody).

Definition getAIResponse : M (string * option error) :=
  r <- sendRequest ;;
  match r with
  | inr err =>
      ret ("", Some (fmt.Errorf_w "failed to send request: " (Some err)))
  | inl response =>
      if negb (StatusCode response =? 200) then
        let body := content (Body response) in
        ret ("",
             Some (errorString
                     ("API request failed with status "
                      +:+ fmt.d (StatusCode response) +:+ ": " +:+ body)))
      else ret (processStreamResponse (Body response))
  end.

(** The loop of [getAIResponseWithRetry], [remaining] iterations
    before [attempt] reaches [maxRetries]. *)
Fixpoint getAIResponseWithRetry_loop (remaining : nat)
  (attempt backoff : Z) (err : option error)
  : M (string * option error) :=
  match remaining with
  | O =>
      ret ("",
           Some (fmt.Errorf_w
                   ("failed after " +:+ fmt.d maxRetries
                    +:+ " attempts, last error: ") err))
  | S remaining' =>
      n <- ask ;;
      match select_wait env n with
      | ctx_Done ctxErr => ret ("", Some ctxErr)
      | rateLimiter_C =>
          r <- getAIResponse ;;
          match r with
          | (aiResponse, None) => ret (aiResponse, None)
          | (_, Some e) =>
              run emit (LogAttemptFailed (attempt + 1) e) ;;
              (if attempt <? maxRetries - 1 then
                 k <- ask ;;
                 let jitter := rand_Int63 env k mod backoff in
                 let sleepTime := int_wrap (backoff + jitter) in
                 run emit (LogRetrying sleepTime) ;;
                 run emit (Sleep sleepTime) ;;
                 getAIResponseWithRetry_loop remaining' (attempt + 1)
                   (int_wrap (backoff * backoffFactor)) (Some e)
               else
                 getAIResponseWithRetry_loop remaining' (attempt + 1)
                   backoff (Some e))
          end
      end
  end.

Definition getAIResponseWithRetry : M (string * option error) :=
  getAIResponseWithRetry_loop (Z.to_nat maxRetries) 0 initialBackoff None.

Definition getUserInput : M string :=
  run emit (Print Prompt) ;;
  line <- Scan_stdin ;;
  match line with
  | None => ret exitCommand
  | Some text => ret (strings.TrimSpace text)
  end.

Definition saveConversation : M (option error) :=
  now <- time_Now_ ;;
  let filename :=
    "conversation_" +:+ time_Format env "20060102_150405" now
    +:+ ".json" in
  c <- getConversation ;;
  match json_MarshalIndent env (getHistory c) with
  | inr err =>
      ret (Some (fmt.Errorf_w "failed to marshal conversation: "
                   (Some err)))
  | inl data =>
      run emit (WriteFile filename data) ;;
      n <- ask ;;
      match os_WriteFile env n filename data with
      | Some err =>
          ret (Some (fmt.Errorf_w "failed to write conversation file: "
                       (Some err)))
      | None => run emit (Print (Saved filename)) ;; ret None
      end
  end.

Definition handleSaveCommand : M (option error) :=
  r <- saveConversation ;;
  match r with
  | Some err => run emit (Print (SaveFailed err)) ;; ret None
  | None => ret None
  end.

Definition loadConversation (filename : string)
  : M (Conversation + error) :=
  n <- ask ;;
  match os_ReadFile env n filename with
  | inr err =>
      ret (inr (fmt.Errorf_w "failed to read conversation file: "
                  (Some err)))
  | inl data =>
      match json.Unmarshal_Messages data with
      | inr err =>
          ret (inr (fmt.Errorf_w "failed to unmarshal conversation: "
                      (Some err)))
      | inl history =>
          ret (inl {| History := history;
                      tokenCount := countTokens history |})
      end
  end.

Definition printConversationSummary : M unit :=
  c <- getConversation ;;
  let h := History c in
  emit (Print (Summary (length h) (tokenCount c)
                 (map (fun msg =>
                         (Role msg, truncateString (Content msg) 50))
                    (drop (length h - 6) h)))).

Definition handleLoadCommand (userInput : string) : M (option error) :=
  match strings.SplitN_space_2 userInput with
  | [_; filename] =>
      r <- loadConversation filename ;;
      match r with
      | inr err => run emit (Print (LoadFailed err)) ;; ret None
      | inl loadedConversation =>
          c <- getConversation ;;
          run setConversation (replaceWith c loadedConversation) ;;
          run printConversationSummary ;;
          ret None
      end
  | _ => run emit (Print Usage) ;; ret None
  end.

Definition printStreamingResponse (response : string) : M unit :=
  emit (Print (Streamed (strings.Fields response))).

Definition processChatInput : M (option error) :=
  userInput <- getUserInput ;;
  if String.eqb userInput "" then ret None
  else if strings.EqualFold userInput exitCommand then
    run emit (Print Goodbye) ;; ret (Some io_EOF)
  else if strings.HasPrefix userInput "/save" then handleSaveCommand
  else if strings.HasPrefix userInput "/load" then
    handleLoadCommand userInput
  else
    run addMessage_ "user" userInput ;;
    r <- getAIResponseWithRetry ;;
    match r with
    | (_, Some err) => run emit (Print (ResponseFailed err)) ;; ret None
    | (aiResponse, None) =>
        run emit (Print AIPrefix) ;;
        run printStreamingResponse aiResponse ;;
        run addMessage_ "assistant" aiResponse ;;
        run emit (Print Newline) ;;
        ret None
    end.

(** [processChatInputLoop]: [None] when the fuel ends before the loop
    does, [Some r] when the loop returns [r]. *)
Fixpoint processChatInputLoop (fuel : nat) : M (option (option error)) :=
  match fuel with
  | O => ret None
  | S fuel' =>
      n <- ask ;;
      match ctx_Err env n with
      | Some ctxErr => ret (Some (Some ctxErr))
      | None =>
          r <- processChatInput ;;
          match r with
          | Some err =>
              if errors.Is err io_EOF then ret (Some None)
              else ret (Some (Some err))
          | None => processChatInputLoop fuel'
          end
      end
  end.

End Session.

(** ** Definitions used to state the properties *)

(** The requests a piece of trace holds. *)
Definition isRequest (e : Event) : bool :=
  match e with
  | HTTPRequest _ => true
  | _ => false
  end.

Definition requests (evs : list Event) : nat :=
  length (filter (fun e => isRequest e = true) evs).

(** The stream of a response, as the protocol describes it: the data
    lines are those with the marker, the sentinel is the data line
    whose payload is [[DONE]], and a fragment is what [extractContent]
    finds in a payload that decodes. *)
Definition isData (line : string) : bool := strings.HasPrefix line "data: ".

Definition payload (line : string) : string :=
  strings.TrimPrefix line "data: ".

Definition isDone (line : string) : bool :=
  isData line && String.eqb (payload line) "[DONE]".

(** The lines read before the sentinel, or before the scanner stops. *)
Fixpoint linesRead (sc : Scanned) : list string :=
  match sc with
  | Stop _ => []
  | Token line _ next =>
      if isDone line then [] else line :: linesRead next
  end.

(** The lines still to be read from a scanner. *)
Fixpoint pending (sc : Scanned) : nat :=
  match sc with
  | Token _ _ next => S (pending next)
  | Stop _ => 0
  end.

(** Whether the sentinel is read. *)
Fixpoint reachesDone (sc : Scanned) : bool :=
  match sc with
  | Stop _ => false
  | Token line _ next => isDone line || reachesDone next
  end.

(** What [scanner.Err()] returns when the reading ends. *)
Fixpoint errRead (sc : Scanned) : option error :=
  match sc with
  | Stop errNow => errNow
  | Token line errNow next =>
      if isDone line then errNow else errRead next
  end.

Definition fragments (ls : list string) : list string :=
  flat_map
    (fun line =>
       if isData line then
         match json.Unmarshal_map (payload line) with
         | inl jsonResponse => [extractContent jsonResponse]
         | inr _ => []
         end
       else [])
    ls.

Definition decodeErrors (ls : list string) : list error :=
  flat_map
    (fun line =>
       if isData line then
         match json.Unmarshal_map (payload line) with
         | inl _ => []
         | inr err => [err]
         end
       else [])
    ls.

(** The result of decoding, said with the words of the protocol. *)
Definition decoded (body : Reader) : string * option error :=
  let sc := bufio.scan body in
  match errRead sc with
  | Some err => ("", Some (fmt.Errorf_w "failed to read stream: " (Some err)))
  | None =>
      match last (decodeErrors (linesRead sc)) with
      | Some err =>
          ("", Some (fmt.Errorf_w "error processing stream: " (Some err)))
      | None =>
          (strings.TrimSpace (String.concat "" (fragments (linesRead sc))),
           None)
      end
  end.

(** ** Environments and worlds of the examples *)

(** The rate limiter ticks, the transport refuses every connection, no
    file exists. *)
Definition env_refusing : Env :=
  {| select_wait := fun _ => rateLimiter_C;
     httpClient_Do := fun _ _ => inr (errorString "connection refused");
     rand_Int63 := fun n => Z.of_nat n * 7777777777;
     time_Now := fun n => Z.of_nat n;
     ctx_Err := fun _ => None;
     os_ReadFile := fun _ _ => inr (errorString "no such file or directory");
     os_WriteFile := fun _ _ _ => None;
     time_Format := fun _ _ => "2024-08-01T12:00:00Z";
     json_MarshalIndent := fun _ => inl "[]" |}.

(** Every file holds one saved user message of 4001 words. *)
Definition saved_4001 : string :=
  dq "[{'role':'user','content':'" +:+ words 4001 +:+ dq "'}]".

Definition env_saved : Env :=
  {| select_wait := select_wait env_refusing;
     httpClient_Do := httpClient_Do env_refusing;
     rand_Int63 := rand_Int63 env_refusing;
     time_Now := time_Now env_refusing;
     ctx_Err := ctx_Err env_refusing;
     os_ReadFile := fun _ _ => inl saved_4001;
     os_WriteFile := os_WriteFile env_refusing;
     time_Format := time_Format env_refusing;
     json_MarshalIndent := json_MarshalIndent env_refusing |}.

(** A session that has just started, with the lines typed on standard
    input. *)
Definition typed (ls : list string) : Scanned :=
  foldr (fun line next => Token line None next) (Stop None) ls.

Definition world_start (ls : list string) : World :=
  {| instant := 0;
     trace := [];
     stdin := typed ls;
     conversation := newConversation "You are helpful" 0 |}.

Definition history_monad : list Message :=
  [mkMessage "system" "You are helpful" 0;
   mkMessage "user" "what is a monad" 1;
   mkMessage "assistant" "a monoid in the category of endofunctors" 2].

(** The stream of the specification's example, and a stream with one
    malformed record before the sentinel. *)
Definition stream_hi_there : Reader :=
  {| content :=
       dq "data: {'choices':[{'delta':{'content':'Hi'}}]}" +:+ LF
       +:+ dq "data: {'choices':[{'delta':{'content':' there'}}]}" +:+ LF
       +:+ "data: [DONE]" +:+ LF;
     readErr := None;
     bundled := 0 |}.

Definition stream_malformed_then_done : Reader :=
  {| content :=
       dq "data: {'choices':[{'delta':{'content':'Hi'}}]}" +:+ LF
       +:+ "data: {bad" +:+ LF
       +:+ "data: [DONE]" +:+ LF;
     readErr := None;
     bundled := 0 |}.

(** ** The welcome banner

    [strings.Repeat] panics on a negative count and on a result longer
    than an [int] can say: [None]. [printWelcomeMessage]
    is given the width [term.GetSize] reported; its result is what it
    has written on standard output and whether it returned ([true]) or
    panicked ([false]). Go's [/] on [int] rounds toward zero:
    [Z.quot]. *)

Definition ESC : string := String (ascii_of_N 27) "".

Definition colorReset : string := ESC +:+ "[0m".
Definition colorBlue : string := ESC +:+ "[34m".
Definition colorCyan : string := ESC +:+ "[36m".

Fixpoint repeat_string (s : string) (n : nat) : string :=
  match n with
  | O => ""
  | S k => s +:+ repeat_string s k
  end.

Definition strings_Repeat (s : string) (count : Z) : option string :=
  if count <? 0 then None
  else if max_int <? Z.of_nat (String.length s) * count then None
  else Some (repeat_string s (Z.to_nat count)).

Definition clearScreen : string := ESC +:+ "[2J" +:+ ESC +:+ "[H".

Definition printWelcomeMessage (width : Z) : string * bool :=
  let out0 := clearScreen in
  let welcomeMsg := "Welcome to the AI Chat!" in
  let len_welcomeMsg := Z.of_nat (String.length welcomeMsg) in
  match strings_Repeat "─" (int_wrap (width - 4)) with
  | None => (out0, false)
  | Some border =>
      let out1 := out0 +:+ colorCyan +:+ "┌" +:+ border +:+ "┐" +:+ LF in
      match
        strings_Repeat " "
          (Z.quot (int_wrap (int_wrap (width - len_welcomeMsg) - 2)) 2)
      with
      | None => (out1, false)
      | Some padLeft =>
          match
            strings_Repeat " "
              (Z.quot (int_wrap (int_wrap (width - len_welcomeMsg) - 1)) 2)
          with
          | None => (out1, false)
          | Some padRight =>
              let out2 :=
                out1 +:+ "│" +:+ padLeft +:+ welcomeMsg +:+ padRight
                +:+ "│" +:+ LF in
              let out3 :=
                out2 +:+ "└" +:+ border +:+ "┘" +:+ colorReset +:+ LF in
              (out3 +:+ colorBlue +:+ "Type '" +:+ exitCommand
               +:+ "' to exit the program." +:+ colorReset +:+ LF +:+ LF,
               true)
          end
      end
  end.

(** ** More definitions used to state properties *)

(** A line of a stream as written on the wire: no line feed in it, and
    short enough for the buffer of the scanner. *)
Fixpoint isLine_from (s : string) (n : N) : bool :=
  match s with
  | EmptyString => true
  | String c r =>
      negb (strings.byte c =? 10)%N
      && (n + 1 <? bufio.MaxScanTokenSize)%N
      && isLine_from r (n + 1)
  end.

Definition isLine (s : string) : bool := isLine_from s 0.

(** The lines, each closed by a line feed. *)
Definition joinLines (ls : list string) : string :=
  foldr (fun line acc => line +:+ LF +:+ acc) "" ls.

(** No byte of the text is a space. *)
Fixpoint noSpace (s : string) : bool :=
  match s with
  | EmptyString => true
  | String c r => negb (strings.byte c =? 32)%N && noSpace r
  end.

Definition isSleep (e : Event) : bool :=
  match e with
  | Sleep _ => true
  | _ => false
  end.

Definition sleeps (evs : list Event) : nat :=
  length (filter (fun e => isSleep e = true) evs).

(** Every pause of a piece of trace lasts at least [lo] and less than
    [hi]. *)
Definition sleepsWithin (lo hi : Z) (evs : list Event) : Prop :=
  Forall (fun e => match e with
                   | Sleep d => lo <= d < hi
                   | _ => True
                   end) evs.

Definition toAPIMessage (msg : Message) : APIMessage :=
  mkAPIMessage (Role msg) (Content msg).

(** The transport answers every request with the stream of the
    example. *)
Definition env_answering : Env :=
  {| select_wait := select_wait env_refusing;
     httpClient_Do := fun _ _ => inl (mkResponse 200 stream_hi_there);
     rand_Int63 := rand_Int63 env_refusing;
     time_Now := time_Now env_refusing;
     ctx_Err := ctx_Err env_refusing;
     os_ReadFile := os_ReadFile env_refusing;
     os_WriteFile := os_WriteFile env_refusing;
     time_Format := time_Format env_refusing;
     json_MarshalIndent := json_MarshalIndent env_refusing |}.

(** The run of a scanner that yields the lines [ls], each read with no
    error seen, and goes on as [next]. *)
Definition tokensOf (ls : list string) (next : Scanned) : Scanned :=
  foldr (fun line nx => Token (bufio.dropCR line) None nx) next ls.

Definition CR : string := String (ascii_of_N 13) "".

(** A stream of one fragment cut by the transport. *)
Definition stream_cut : Reader :=
  {| content := dq "data: {'choices':[{'delta':{'content':'Hi'}}]}" +:+ LF;
     readErr := Some (errorString "unexpected EOF");
     bundled := 0 |}.

(** The file system holds the three messages of [history_monad] under
    every name. *)
Definition env_monad : Env :=
  {| select_wait := select_wait env_refusing;
     httpClient_Do := httpClient_Do env_refusing;
     rand_Int63 := rand_Int63 env_refusing;
     time_Now := time_Now env_refusing;
     ctx_Err := ctx_Err env_refusing;
     os_ReadFile :=
       fun _ _ =>
         inl (dq ("[{'role':'system','content':'You are helpful'},"
                  +:+ "{'role':'user','content':'what is a monad'},"
                  +:+ "{'role':'assistant','content':"
                  +:+ "'a monoid in the category of endofunctors'}]"));
     os_WriteFile := os_WriteFile env_refusing;
     time_Format := time_Format env_refusing;
     json_MarshalIndent := json_MarshalIndent env_refusing |}.

(** ** White space, by its encodings

    The characters [unicode.IsSpace] accepts, each written as its
    UTF-8 bytes: U+0009 to U+000D, U+0020, U+0085, U+00A0, U+1680,
    U+2000 to U+200A, U+2028, U+2029, U+202F, U+205F and U+3000. *)
Definition bytes (bs : list N) : string :=
  foldr (fun b s => String (ascii_of_N b) s) "" bs.

Definition spaceRunes : list string :=
  map bytes
    [[9]; [10]; [11]; [12]; [13]; [32];
     [194; 133]; [194; 160];
     [225; 154; 128];
     [226; 128; 128]; [226; 128; 129]; [226; 128; 130]; [226; 128; 131];
     [226; 128; 132]; [226; 128; 133]; [226; 128; 134]; [226; 128; 135];
     [226; 128; 136]; [226; 128; 137]; [226; 128; 138];
     [226; 128; 168]; [226; 128; 169]; [226; 128; 175];
     [226; 129; 159];
     [227; 128; 128]]%N.

(** A text made of white-space characters only. *)
Inductive Spaces : string -> Prop :=
  | Spaces_nil : Spaces ""
  | Spaces_cons (r s : string) :
      In r spaceRunes -> Spaces s -> Spaces (r +:+ s).

(** [text] is [s] without the white space around it. *)
Definition trimmedOf (s text : string) : Prop :=
  (exists lead trail,
      s = lead +:+ text +:+ trail /\ Spaces lead /\ Spaces trail)
  /\ forall r, In r spaceRunes ->
       (forall rest, text <> r +:+ rest) /\ (forall init, text <> init +:+ r).

(** A stream whose fragments carry white space at both ends of the
    text: two spaces before, a space and a line feed after. *)
Definition stream_padded : Reader :=
  {| content :=
       dq "data: {'choices':[{'delta':{'content':'  Hi'}}]}" +:+ LF
       +:+ dq "data: {'choices':[{'delta':{'content':' there \n'}}]}" +:+ LF
       +:+ "data: [DONE]" +:+ LF;
     readErr := None;
     bundled := 0 |}.

(** ** The attempts of a call, by the instants at which they ask

    An attempt that asks the time at instant [n] sends the request
    [requestAt env c n] at the instant after; [responseOutcome] is what
    [getAIResponse] makes of the answer of the transport, and
    [attemptOutcome env c n] is the outcome of that attempt. In a call
    of [getAIResponseWithRetry] that starts at instant [i], the waits
    are at [i], [4 + i] and [8 + i], the attempts ask the time at
    [1 + i], [5 + i] and [9 + i], and the jitters are drawn at [3 + i]
    and [7 + i]. *)
Definition requestAt (env : Env) (c : Conversation) (n : nat)
  : list APIMessage :=
  mkAPIMessage "system"
    ("Current date and time: " +:+ time_Format env "RFC3339" (time_Now env n))
  :: map toAPIMessage (truncateConversation (getHistory c) maxTokens).

Definition responseOutcome (r : Response + error) : string * option error :=
  match r with
  | inr err => ("", Some (fmt.Errorf_w "failed to send request: " (Some err)))
  | inl response =>
      if negb (StatusCode response =? 200) then
        ("",
         Some (errorString
                 ("API request failed with status "
                  +:+ fmt.d (StatusCode response) +:+ ": "
                  +:+ content (Body response))))
      else processStreamResponse (Body response)
  end.

Definition attemptOutcome (env : Env) (c : Conversation) (n : nat)
  : string * option error :=
  responseOutcome (httpClient_Do env (S n) (requestAt env c n)).

(** The events of an attempt that failed with [e] and of the pause
    that follows it. *)
Definition failedAttempt (env : Env) (c : Conversation) (n : nat)
  (attempt : Z) (e : error) : list Event :=
  [HTTPRequest (requestAt env c n); LogAttemptFailed attempt e].

Definition pause (sleepTime : Z) : list Event :=
  [LogRetrying sleepTime; Sleep sleepTime].

(** The transport fails every request, each time for another reason. *)
Definition env_flaky : Env :=
  {| select_wait := select_wait env_refusing;
     httpClient_Do :=
       fun n _ =>
         inr (errorString
                (if (n <? 4)%nat then "connection refused"
                 else if (n <? 8)%nat then "connection reset by peer"
                 else "i/o timeout"));
     rand_Int63 := rand_Int63 env_refusing;
     time_Now := time_Now env_refusing;
     ctx_Err := ctx_Err env_refusing;
     os_ReadFile := os_ReadFile env_refusing;
     os_WriteFile := os_WriteFile env_refusing;
     time_Format := time_Format env_refusing;
     json_MarshalIndent := json_MarshalIndent env_refusing |}.



(** ** The run of a scanner over whole lines

    [tokensFrom ls clean seen srcEnd next]: the lines [ls], of which
    [clean] bytes come before the end of the reader is seen, and then
    [next] with what is left of [clean] and [seen]. *)
Fixpoint tokensFrom (ls : list string) (clean : nat) (seen : bool)
  (srcEnd : option error) (next : nat -> bool -> Scanned) : Scanned :=
  match ls with
  | [] => next clean seen
  | line :: ls' =>
      let seen' := seen || (clean <=? String.length line)%nat in
      Token (bufio.dropCR line) (if seen' then srcEnd else None)
        (tokensFrom ls' (clean - S (String.length line)) seen' srcEnd next)
  end.

(** * Properties *)

(** Running the state monad by hand: unfold its operations and reduce
    the projections of the worlds built. *)
Ltac run_M :=
  cbv beta iota zeta delta
    [bind ret ask emit getConversation setConversation time_Now_ addMessage_];
  cbn [fst snd instant trace stdin conversation].

(** ** Machine integers *)

Lemma int_wrap_small (z : Z) :
  - 2 ^ 63 <= z < 2 ^ 63 -> int_wrap z = z.
Proof.
  intros Hz. unfold int_wrap.
  rewrite Z.mod_small by lia. lia.
Qed.

Lemma gtb_false (x y : Z) : x <= y -> (x >? y) = false.
Proof. intros H. rewrite Z.gtb_ltb. apply Z.ltb_ge. exact H. Qed.

Lemma gtb_true (x y : Z) : y < x -> (x >? y) = true.
Proof. intros H. rewrite Z.gtb_ltb. apply Z.ltb_lt. exact H. Qed.

Lemma lenFields_nonneg (s : string) : 0 <= lenFields s.
Proof. unfold lenFields. lia. Qed.

Lemma sumTokens_nonneg (msgs : list Message) : 0 <= sumTokens msgs.
Proof.
  induction msgs as [|m msgs IH]; simpl; [lia|].
  pose proof (lenFields_nonneg (Content m)). lia.
Qed.

Lemma sumTokens_app (xs ys : list Message) :
  sumTokens (xs ++ ys) = sumTokens xs + sumTokens ys.
Proof. induction xs as [|x xs IH]; simpl; lia. Qed.

(** ** The models of the libraries on some inputs *)

Example Fields_ascii :
  strings.Fields "  what is   a monad " = ["what"; "is"; "a"; "monad"].
Proof. reflexivity. Qed.

(** U+00A0 and U+2003 separate fields; U+FEFF does not. *)
Example Fields_unicode :
  strings.Fields
    ("a" +:+ String (ascii_of_N 194) (String (ascii_of_N 160) "b")
     +:+ String (ascii_of_N 226)
           (String (ascii_of_N 128) (String (ascii_of_N 131) "c"))
     +:+ String (ascii_of_N 239)
           (String (ascii_of_N 187) (String (ascii_of_N 191) "d")))
  = ["a"; "b";
     "c" +:+ String (ascii_of_N 239)
               (String (ascii_of_N 187) (String (ascii_of_N 191) "d"))].
Proof. vm_compute. reflexivity. Qed.

Example TrimSpace_both_ends :
  strings.TrimSpace ("  /load  saved.json " +:+ LF) = "/load  saved.json".
Proof. vm_compute. reflexivity. Qed.

Example EqualFold_exit :
  strings.EqualFold "EXIT" exitCommand = true
  /\ strings.EqualFold "exit " exitCommand = false.
Proof. split; reflexivity. Qed.

Example SplitN_load :
  strings.SplitN_space_2 "/load my file.json" = ["/load"; "my file.json"]
  /\ strings.SplitN_space_2 "/load" = ["/load"].
Proof. split; reflexivity. Qed.

Example scan_lines :
  bufio.lines
    (bufio.scan
       (mkReader ("one" +:+ String (ascii_of_N 13) LF +:+ LF +:+ "last") None
          0))
  = ["one"; ""; "last"].
Proof. vm_compute. reflexivity. Qed.

Example scan_error_with_last_bytes :
  bufio.scan
    (mkReader ("one" +:+ LF +:+ "two" +:+ LF +:+ "three")
       (Some (errorString "connection reset")) 9)
  = Token "one" None
      (Token "two" (Some (errorString "connection reset"))
         (Token "three" (Some (errorString "connection reset"))
            (Stop (Some (errorString "connection reset"))))).
Proof. vm_compute. reflexivity. Qed.

Example parse_nested :
  json.parse (dq "{'a': [1, -2.5e3, true, null], 'b': {'c': 'x\u00e9'}} ")
  = Some
      (json.VObject
         [("a",
           json.VArray
             [json.VNumber "1"; json.VNumber "-2.5e3"; json.VBool true;
              json.VNull]);
          ("b",
           json.VObject
             [("c",
               json.VString
                 ("x" +:+ String (ascii_of_N 195)
                            (String (ascii_of_N 169) "")))])]).
Proof. vm_compute. reflexivity. Qed.

Example parse_rejects :
  json.parse (dq "{'a': [1,]}") = None
  /\ json.parse "[01]" = None
  /\ json.parse "{bad" = None
  /\ json.parse "" = None
  /\ json.parse "1 2" = None.
Proof. vm_compute. repeat split; reflexivity. Qed.

Example Unmarshal_map_kinds :
  json.Unmarshal_map "null" = inl ∅
  /\ json.Unmarshal_map "[]"
     = inr (json.UnmarshalTypeError "array" "map[string]interface {}")
  /\ json.Unmarshal_map (dq "{'n': 1e999}")
     = inr (json.UnmarshalTypeError "number" "float64").
Proof. vm_compute. repeat split; reflexivity. Qed.

Example float64_range :
  json.float64_overflows "1.7976931348623157e308" = false
  /\ json.float64_overflows "1.7976931348623159e308" = true
  /\ json.float64_overflows "1e-400" = false.
Proof. vm_compute. repeat split; reflexivity. Qed.

Example Unmarshal_Messages_saved :
  json.Unmarshal_Messages
    (dq "[{'role':'user','content':'hi'},{'Role':'assistant','extra':1}]")
  = inl [mkMessage "user" "hi" json.zeroTime;
         mkMessage "assistant" "" json.zeroTime].
Proof. vm_compute. reflexivity. Qed.

Example extractContent_missing :
  extractContent ∅ = ""
  /\ (forall m, json.Unmarshal_map (dq "{'choices':[]}") = inl m ->
                extractContent m = "").
Proof.
  split; [reflexivity|].
  intros m H. vm_compute in H. injection H as <-. reflexivity.
Qed.

(** ** The conversation buffer *)

(** Induction over a list two elements at a time, as [truncateHistory]
    consumes it. *)
Lemma list_pair_ind {A : Type} (P : list A -> Prop) :
  P [] -> (forall a, P [a]) ->
  (forall a b rest, P rest -> P (a :: b :: rest)) ->
  forall l, P l.
Proof.
  intros H0 H1 H2.
  assert (Hboth : forall l, P l /\ forall a, P (a :: l)).
  { induction l as [|x l [IHl IHl']]; split; auto. }
  intros l. apply Hboth.
Qed.

(** The equation of the loop, in the words of the source: while the
    count is over the budget and more than one message is left, the
    count loses the estimate of [History[1]] and the history its first
    two messages. *)
Lemma truncateHistory_step (c : Conversation) :
  truncateHistory c =
  if (tokenCount c >? maxConversationTokens)
     && (1 <? length (History c))%nat
  then
    match History c !! 1%nat with
    | Some m1 =>
        truncateHistory
          {| History := drop 2 (History c);
             tokenCount := int_wrap (tokenCount c - lenFields (Content m1)) |}
    | None => c
    end
  else c.
Proof.
  destruct c as [h count]. unfold truncateHistory. simpl.
  destruct h as [|a [|b rest]]; simpl.
  - rewrite andb_false_r. reflexivity.
  - rewrite andb_false_r. reflexivity.
  - rewrite andb_true_r.
    destruct (count >? maxConversationTokens); reflexivity.
Qed.

Lemma truncateHistory_loop_stops (h : list Message) :
  forall count,
    tokenCount (truncateHistory_loop h count) <= maxConversationTokens
    \/ (length (History (truncateHistory_loop h count)) <= 1)%nat.
Proof.
  induction h as [| a | a b rest IH] using list_pair_ind; intros count.
  - right. simpl. lia.
  - right. simpl. lia.
  - simpl. destruct (count >? maxConversationTokens) eqn:Hover.
    + apply IH.
    + left. simpl. lia.
Qed.

(** Without eviction the count follows the sum. *)
Lemma addMessage_within_budget (c : Conversation) (role content : string)
  (now : Z) :
  tokenCount c = sumTokens (History c) ->
  tokenCount c + lenFields content <= maxConversationTokens ->
  let c' := addMessage c role content now in
  History c' = History c ++ [mkMessage role content now]
  /\ tokenCount c' = sumTokens (History c').
Proof.
  intros Hinv Hfit. simpl.
  pose proof (sumTokens_nonneg (History c)) as Hnn.
  pose proof (lenFields_nonneg content) as Hc.
  unfold maxConversationTokens in Hfit.
  unfold addMessage. rewrite truncateHistory_step. simpl.
  rewrite int_wrap_small by lia.
  rewrite gtb_false by (unfold maxConversationTokens; lia).
  simpl. split; [reflexivity|].
  rewrite sumTokens_app. simpl. lia.
Qed.

(** C1, at the failing input: the system prompt [You are helpful], the
    user message [hi] and an assistant message of 3998 words. The stored
    tokenCount is 4001 while the one message retained has 3998 words:
    the pass dropped [History[0]] and [History[1]] and subtracted the
    estimate of [History[1]] only. *)
Theorem C1_tokenCount_drifts :
  let c :=
    addMessages (newConversation "You are helpful" 0)
      [("user", "hi", 1); ("assistant", words 3998, 2)] in
  tokenCount c = 4001
  /\ sumTokens (History c) = 3998
  /\ History c = [mkMessage "assistant" (words 3998) 2].
Proof. vm_compute. repeat split; reflexivity. Qed.

(** C2, at the failing input: the system prompt [You are helpful] and
    one user message of 4000 words. The truncation pass removes the
    system message together with the user message and leaves the
    history empty. *)
Theorem C2_system_message_evicted :
  let c0 := newConversation "You are helpful" 0 in
  let c := addMessage c0 "user" (words 4000) 1 in
  head (History c0) = Some (mkMessage "system" "You are helpful" 0)
  /\ History c = []
  /\ tokenCount c = 3.
Proof. vm_compute. repeat split; reflexivity. Qed.

(** The defect behind both, in general: when the first message appended
    to a fresh conversation takes the count over the budget, the pass
    runs once, on a history of two messages, and leaves none; the count
    keeps the estimate of the system prompt. *)
Lemma first_eviction_takes_system_message
  (systemPrompt role content : string) (t0 now : Z) :
  maxConversationTokens
  < int_wrap (lenFields systemPrompt + lenFields content) ->
  let c := addMessage (newConversation systemPrompt t0) role content now in
  History c = []
  /\ tokenCount c
     = int_wrap (int_wrap (lenFields systemPrompt + lenFields content)
                 - lenFields content).
Proof.
  intros Hover. cbv zeta. unfold addMessage, newConversation, truncateHistory.
  cbn [History tokenCount app truncateHistory_loop].
  rewrite gtb_true by exact Hover. split; reflexivity.
Qed.

(** C4, counterexample: after an append with its truncation pass, and
    after a load, the stored tokenCount is over the budget. In the first
    case the one message left has 4001 words; in the second the file
    loaded holds a message of 4001 words. *)
Lemma C4_budget_exceeded :
  maxConversationTokens <
    tokenCount
      (addMessages (newConversation "You are helpful" 0)
         [("user", "hi", 1); ("assistant", words 4001, 2)])
  /\ maxConversationTokens <
       tokenCount
         (conversation
            (snd (processChatInput env_saved
                    (world_start ["/load saved.json"])))).
Proof. vm_compute. split; reflexivity. Qed.

Lemma replaceWith_other (c other : Conversation) : replaceWith c other = other.
Proof. destruct other. reflexivity. Qed.

(** A load leaves the conversation as it was or replaces it by the
    history of the file with the count of that history; it sends no
    request. *)
Lemma handleLoadCommand_effect (env : Env) (userInput : string) (w : World) :
  let w' := snd (handleLoadCommand env userInput w) in
  (exists evs, trace w' = trace w ++ evs /\ requests evs = 0%nat)
  /\ (conversation w' = conversation w
      \/ exists filename data history,
          os_ReadFile env (instant w) filename = inl data
          /\ json.Unmarshal_Messages data = inl history
          /\ conversation w' =
               {| History := history; tokenCount := countTokens history |}).
Proof.
  cbv zeta. unfold handleLoadCommand.
  destruct (strings.SplitN_space_2 userInput) as [|a [|filename [|x l]]];
    try (run_M; split; [eexists; split; [reflexivity|reflexivity]
                       |left; reflexivity]).
  unfold loadConversation, printConversationSummary. run_M.
  destruct (os_ReadFile env (instant w) filename) as [data|err] eqn:Hread;
    run_M.
  2: { split; [eexists; split; [reflexivity|reflexivity]|left; reflexivity]. }
  destruct (json.Unmarshal_Messages data) as [history|err] eqn:Hdec; run_M.
  2: { split; [eexists; split; [reflexivity|reflexivity]|left; reflexivity]. }
  split; [eexists; split; [reflexivity|reflexivity]|].
  right. exists filename, data, history. auto.
Qed.

(** C4, amended: after an append with its truncation pass the stored
    tokenCount is within the budget unless at most one message is left,
    where the pass stops; a load replaces the state by the history of
    the file, whole, with the count of that history, or leaves the
    state as it was. *)
Theorem C4_budget_unless_single_message :
  (forall c role content now,
      let c' := addMessage c role content now in
      tokenCount c' <= maxConversationTokens
      \/ (length (History c') <= 1)%nat)
  /\ (forall c other, replaceWith c other = other)
  /\ (forall env userInput w,
        let w' := snd (handleLoadCommand env userInput w) in
        conversation w' = conversation w
        \/ exists filename data history,
            os_ReadFile env (instant w) filename = inl data
            /\ json.Unmarshal_Messages data = inl history
            /\ conversation w' =
                 {| History := history; tokenCount := countTokens history |}).
Proof.
  split; [|split].
  - intros c role content now. cbv zeta. unfold addMessage, truncateHistory.
    apply truncateHistory_loop_stops.
  - apply replaceWith_other.
  - intros env userInput w. apply handleLoadCommand_effect.
Qed.

(** ** The outbound view *)

Lemma sumTokens_rev (msgs : list Message) :
  sumTokens (rev msgs) = sumTokens msgs.
Proof.
  induction msgs as [|m msgs IH]; [reflexivity|].
  simpl. rewrite sumTokens_app, IH. simpl. lia.
Qed.

(** The invariant of the loop: [truncated] is the part of the history
    already taken, [totalTokens] its estimate. *)
Lemma truncateConversation_loop_spec (newestFirst : list Message) :
  forall maxTokens totalTokens truncated,
    totalTokens = sumTokens truncated ->
    sumTokens newestFirst + totalTokens <= max_int ->
    let r :=
      truncateConversation_loop newestFirst maxTokens totalTokens truncated in
    exists dropped,
      rev newestFirst ++ truncated = dropped ++ r
      /\ match last dropped with
         | Some m => maxTokens < lenFields (Content m) + sumTokens r
         | None => True
         end
      /\ (totalTokens <= maxTokens -> sumTokens r <= maxTokens).
Proof.
  induction newestFirst as [|m older IH];
    intros maxTokens totalTokens truncated Htotal Hfit; simpl.
  - exists []. simpl. split; [reflexivity|]. split; [exact I|]. lia.
  - simpl in Hfit.
    pose proof (lenFields_nonneg (Content m)) as Hm.
    pose proof (sumTokens_nonneg older) as Holder.
    pose proof (sumTokens_nonneg truncated) as Htr.
    unfold max_int in Hfit.
    rewrite int_wrap_small by lia.
    destruct (totalTokens + lenFields (Content m) >? maxTokens) eqn:Hover.
    + exists (rev older ++ [m]).
      split; [reflexivity|]. split; [|lia].
      rewrite last_snoc.
      rewrite Z.gtb_ltb in Hover. apply Z.ltb_lt in Hover. lia.
    + rewrite Z.gtb_ltb in Hover. apply Z.ltb_ge in Hover.
      destruct (IH maxTokens (totalTokens + lenFields (Content m))
                  (m :: truncated)) as (dropped & Heq & Hlast & Hsum).
      * simpl. lia.
      * unfold max_int. lia.
      * exists dropped. split; [|split].
        -- rewrite <- Heq, <- app_assoc. reflexivity.
        -- exact Hlast.
        -- intros _. apply Hsum. exact Hover.
Qed.

(** Whatever the numbers, the loop takes messages from the newest on
    and leaves the others. *)
Lemma truncateConversation_loop_suffix (newestFirst : list Message) :
  forall maxTokens totalTokens truncated,
    exists dropped,
      rev newestFirst ++ truncated
      = dropped
        ++ truncateConversation_loop newestFirst maxTokens totalTokens
             truncated.
Proof.
  induction newestFirst as [|m older IH];
    intros maxTokens totalTokens truncated.
  - exists []. reflexivity.
  - cbn [truncateConversation_loop rev]. cbv zeta.
    destruct (_ >? maxTokens).
    + exists (rev older ++ [m]). reflexivity.
    + destruct (IH maxTokens
                  (int_wrap (totalTokens + lenFields (Content m)))
                  (m :: truncated)) as (dropped & Heq).
      exists dropped. rewrite <- Heq, <- app_assoc. reflexivity.
Qed.

(** Under a negative ceiling, which no caller passes, nothing is
    taken, and the estimate of nothing, 0, is over the ceiling. *)
Lemma truncateConversation_negative_ceiling :
  ~ sumTokens (truncateConversation [mkMessage "user" "hello" 0] (-1)) <= -1.
Proof. vm_compute. intros H. apply H. reflexivity. Qed.

(** C7: for every history and every ceiling [truncateConversation]
    returns a suffix of the history, in the order of the history. When
    the estimate of the history fits an [int], as that of every
    history in memory does, the message before the suffix, if there is
    one, is the first one, walking backward, whose estimate added to
    the total of the suffix is over the ceiling, and the total of the
    suffix is at most the ceiling, a number of tokens and so not
    negative. *)
Theorem C7_truncateConversation_suffix (history : list Message)
  (maxTokens : Z) :
  let r := truncateConversation history maxTokens in
  exists dropped,
    history = dropped ++ r
    /\ (sumTokens history <= max_int ->
        match last dropped with
        | Some m => maxTokens < lenFields (Content m) + sumTokens r
        | None => True
        end
        /\ (0 <= maxTokens -> sumTokens r <= maxTokens)).
Proof.
  cbv zeta. unfold truncateConversation.
  destruct (truncateConversation_loop_suffix (rev history) maxTokens 0 [])
    as (dropped & Hsuffix).
  rewrite rev_involutive, app_nil_r in Hsuffix.
  exists dropped. split; [exact Hsuffix|].
  intros Hfit.
  destruct (truncateConversation_loop_spec (rev history) maxTokens 0 [])
    as (dropped' & Heq & Hlast & Hsum).
  - reflexivity.
  - rewrite sumTokens_rev. lia.
  - rewrite rev_involutive, app_nil_r in Heq.
    assert (Hsame : dropped' = dropped).
    { apply (app_inv_tail
               (truncateConversation_loop (rev history) maxTokens 0 [])).
      congruence. }
    subst dropped'. auto.
Qed.

(** C7 on a history of three messages under a ceiling of 11 words:
    the system message is dropped, the last two are kept, and their
    total is 10. *)
Lemma C7_truncateConversation_suffix_witness :
  sumTokens history_monad <= max_int
  /\ 0 <= 11
  /\ truncateConversation history_monad 11
     = [mkMessage "user" "what is a monad" 1;
        mkMessage "assistant" "a monoid in the category of endofunctors" 2]
  /\ exists dropped,
      history_monad = dropped ++ truncateConversation history_monad 11
      /\ match last dropped with
         | Some m =>
             11 < lenFields (Content m)
                  + sumTokens (truncateConversation history_monad 11)
         | None => True
         end
      /\ sumTokens (truncateConversation history_monad 11) <= 11.
Proof.
  assert (Hfit : sumTokens history_monad <= max_int)
    by (vm_compute; discriminate).
  assert (Hpos : 0 <= 11) by lia.
  split; [exact Hfit|]. split; [exact Hpos|].
  split; [vm_compute; reflexivity|].
  destruct (C7_truncateConversation_suffix history_monad 11)
    as (dropped & Heq & Hrest).
  destruct (Hrest Hfit) as [Hlast Hsum].
  exists dropped. split; [exact Heq|]. split; [exact Hlast|].
  exact (Hsum Hpos).
Defined.

(** ** The stream decoder *)

Lemma HasPrefix_cons_inv (a : ascii) (p u : string) :
  strings.HasPrefix u (String a p) = true ->
  exists u', u = String a u' /\ strings.HasPrefix u' p = true.
Proof.
  unfold strings.HasPrefix. destruct u as [|b u]; simpl; [discriminate|].
  destruct (ascii_dec a b) as [->|]; [eauto|discriminate].
Qed.

Lemma append_cons (c : ascii) (s t : string) :
  String c s +:+ t = String c (s +:+ t).
Proof. reflexivity. Qed.

Lemma append_empty_r (s : string) : s +:+ "" = s.
Proof.
  induction s as [|c s IH]; [reflexivity|]. now rewrite append_cons, IH.
Qed.

Lemma append_assoc (a b c : string) : (a +:+ b) +:+ c = a +:+ (b +:+ c).
Proof.
  induction a as [|x a IH]; [reflexivity|]. now rewrite !append_cons, IH.
Qed.

Lemma length_append (a b : string) :
  String.length (a +:+ b) = (String.length a + String.length b)%nat.
Proof.
  induction a as [|c a IH]; [reflexivity|].
  rewrite append_cons. simpl. now rewrite IH.
Qed.

Lemma concat_empty_cons (x : string) (xs : list string) :
  String.concat "" (x :: xs) = x +:+ String.concat "" xs.
Proof.
  destruct xs as [|y ys]; simpl; [now rewrite append_empty_r|reflexivity].
Qed.

Lemma concat_empty_app (xs ys : list string) :
  String.concat "" (xs ++ ys)
  = String.concat "" xs +:+ String.concat "" ys.
Proof.
  induction xs as [|x xs IH]; [reflexivity|].
  change ((x :: xs) ++ ys) with (x :: (xs ++ ys)).
  rewrite !concat_empty_cons, IH, append_assoc. reflexivity.
Qed.

Lemma last_app_keep {A : Type} (xs ys : list A) (d : option A) :
  match last (xs ++ ys) with Some e => Some e | None => d end
  = match last ys with
    | Some e => Some e
    | None => match last xs with Some e => Some e | None => d end
    end.
Proof.
  destruct ys as [|y ys].
  - rewrite app_nil_r. simpl. destruct (last xs); reflexivity.
  - rewrite last_app_cons. destruct (last (y :: ys)) eqn:H; [reflexivity|].
    rewrite last_cons in H. destruct (last ys); discriminate.
Qed.

Lemma fragments_cons (line : string) (ls : list string) :
  fragments (line :: ls) = fragments [line] ++ fragments ls.
Proof. unfold fragments. simpl. now rewrite app_nil_r. Qed.

Lemma decodeErrors_cons (line : string) (ls : list string) :
  decodeErrors (line :: ls) = decodeErrors [line] ++ decodeErrors ls.
Proof. unfold decodeErrors. simpl. now rewrite app_nil_r. Qed.

(** What one line contributes. *)
Lemma fragments_line (line : string) :
  fragments [line]
  = if isData line then
      match json.Unmarshal_map (payload line) with
      | inl jsonResponse => [extractContent jsonResponse]
      | inr _ => []
      end
    else [].
Proof. unfold fragments. simpl. now rewrite app_nil_r. Qed.

Lemma decodeErrors_line (line : string) :
  decodeErrors [line]
  = if isData line then
      match json.Unmarshal_map (payload line) with
      | inl _ => []
      | inr err => [err]
      end
    else [].
Proof. unfold decodeErrors. simpl. now rewrite app_nil_r. Qed.

(** The loop against the words of the protocol: the buffer gains the
    fragments of the lines read, in their order, with nothing between
    them; [lastError] becomes the last decode error, if there is one. *)
Lemma processStreamResponse_loop_spec (sc : Scanned) :
  forall buffer lastError,
    processStreamResponse_loop sc buffer lastError
    = (buffer +:+ String.concat "" (fragments (linesRead sc)),
       match last (decodeErrors (linesRead sc)) with
       | Some e => Some e
       | None => lastError
       end,
       errRead sc).
Proof.
  induction sc as [line errNow next IH | errNow]; intros buffer lastError;
    cbn [processStreamResponse_loop linesRead errRead].
  2: { cbn. now rewrite append_empty_r. }
  unfold isDone. fold (isData line). fold (payload line).
  destruct (isData line) eqn:Hdata; cbn [negb andb].
  2: { rewrite IH, fragments_cons, decodeErrors_cons,
         fragments_line, decodeErrors_line, Hdata.
       reflexivity. }
  destruct (String.eqb (payload line) "[DONE]") eqn:Hdone.
  { cbn. now rewrite append_empty_r. }
  rewrite fragments_cons, decodeErrors_cons, fragments_line,
    decodeErrors_line, Hdata, concat_empty_app.
  destruct (json.Unmarshal_map (payload line)) as [jsonResponse | err].
  - change (String.concat "" [extractContent jsonResponse])
      with (extractContent jsonResponse).
    change ([] ++ decodeErrors (linesRead next))
      with (decodeErrors (linesRead next)).
    destruct (String.eqb (extractContent jsonResponse) "") eqn:Hempty;
      cbn [negb]; rewrite IH.
    + apply String.eqb_eq in Hempty. rewrite Hempty. reflexivity.
    + rewrite append_assoc. reflexivity.
  - rewrite IH.
    change ([err] ++ decodeErrors (linesRead next))
      with (err :: decodeErrors (linesRead next)).
    rewrite last_cons.
    destruct (last (decodeErrors (linesRead next))); reflexivity.
Qed.

(** [processStreamResponse] is the decoding the protocol describes. *)
Lemma processStreamResponse_decoded (body : Reader) :
  processStreamResponse body = decoded body.
Proof.
  unfold processStreamResponse, decoded.
  rewrite processStreamResponse_loop_spec. simpl.
  destruct (errRead (bufio.scan body)); [reflexivity|].
  destruct (last (decodeErrors (linesRead (bufio.scan body))));
    reflexivity.
Qed.

(** C3, counterexample: a fragment, a malformed record, the sentinel.
    The sentinel is read and the result is the error of the malformed
    record, with no text. *)
Lemma C3_malformed_then_done_is_error :
  reachesDone (bufio.scan stream_malformed_then_done) = true
  /\ processStreamResponse stream_malformed_then_done
     = ("",
        Some (wrapError "error processing stream: json: syntax error"
                json.SyntaxError)).
Proof. vm_compute. split; reflexivity. Qed.

(** The sentinel is one line. *)
Lemma substring_all (s : string) : String.substring 0 (String.length s) s = s.
Proof.
  induction s as [|c s IH]; [reflexivity|]. simpl. now rewrite IH.
Qed.

Lemma isDone_inv (line : string) :
  isDone line = true -> line = "data: [DONE]".
Proof.
  unfold isDone, isData, payload, strings.TrimPrefix.
  destruct (strings.HasPrefix line "data: ") eqn:Hdata; [|discriminate].
  repeat (apply HasPrefix_cons_inv in Hdata;
          destruct Hdata as (? & -> & Hdata)).
  cbn [andb String.length String.substring Nat.sub].
  rewrite Nat.sub_0_r, substring_all. intros H. apply String.eqb_eq in H. now subst.
Qed.

(** When the sentinel is read, the lines read are the lines before the
    first sentinel. *)
Lemma reachesDone_split (sc : Scanned) :
  reachesDone sc = true ->
  exists after,
    bufio.lines sc = linesRead sc ++ "data: [DONE]" :: after
    /\ Forall (fun line => isDone line = false) (linesRead sc).
Proof.
  induction sc as [line errNow next IH | errNow]; simpl; [|discriminate].
  destruct (isDone line) eqn:Hdone; simpl.
  - intros _. exists (bufio.lines next).
    apply isDone_inv in Hdone. subst. split; [reflexivity|constructor].
  - intros H. destruct (IH H) as (after & Heq & Hall).
    exists after. split; [now rewrite Heq|]. now constructor.
Qed.

(** C3, amended: for a stream that reaches the sentinel with no read
    error, the result is the trimmed text of the fragments of the lines
    before the sentinel when none of these lines is a malformed record,
    and otherwise no text and an error that wraps the error of the last
    malformed one. *)
Theorem C3_done_does_not_supersede (body : Reader) :
  reachesDone (bufio.scan body) = true ->
  errRead (bufio.scan body) = None ->
  exists before after,
    bufio.lines (bufio.scan body) = before ++ "data: [DONE]" :: after
    /\ Forall (fun line => isDone line = false) before
    /\ (decodeErrors before = [] ->
        processStreamResponse body
        = (strings.TrimSpace (String.concat "" (fragments before)), None))
    /\ (forall err,
          last (decodeErrors before) = Some err ->
          processStreamResponse body
          = ("", Some (wrapError
                         ("error processing stream: " +:+ errors.Error err)
                         err))).
Proof.
  intros Hdone Herr.
  destruct (reachesDone_split _ Hdone) as (after & Hlines & Hall).
  exists (linesRead (bufio.scan body)), after.
  split; [exact Hlines|]. split; [exact Hall|].
  rewrite processStreamResponse_decoded. unfold decoded. rewrite Herr.
  split.
  - intros Hnone. rewrite Hnone. reflexivity.
  - intros err Hlast. rewrite Hlast. reflexivity.
Qed.

(** The amended C3 on the stream with a malformed record before the
    sentinel. *)
Lemma C3_done_does_not_supersede_witness :
  reachesDone (bufio.scan stream_malformed_then_done) = true
  /\ errRead (bufio.scan stream_malformed_then_done) = None
  /\ exists before after,
      bufio.lines (bufio.scan stream_malformed_then_done)
      = before ++ "data: [DONE]" :: after
      /\ Forall (fun line => isDone line = false) before
      /\ (decodeErrors before = [] ->
          processStreamResponse stream_malformed_then_done
          = (strings.TrimSpace (String.concat "" (fragments before)), None))
      /\ (forall err,
            last (decodeErrors before) = Some err ->
            processStreamResponse stream_malformed_then_done
            = ("", Some (wrapError
                           ("error processing stream: "
                            +:+ errors.Error err)
                           err))).
Proof.
  split; [vm_compute; reflexivity|].
  split; [vm_compute; reflexivity|].
  apply (C3_done_does_not_supersede stream_malformed_then_done);
    vm_compute; reflexivity.
Defined.

(** ** White space

    [strings.TrimSpace] against the list of the encodings of the
    white-space characters. *)

Lemma In_spaceRunes (r : string) :
  existsb (String.eqb r) spaceRunes = true -> In r spaceRunes.
Proof.
  intros H. apply existsb_exists in H. destruct H as (x & Hin & Heq).
  apply String.eqb_eq in Heq. now subst.
Qed.

Lemma byte_inv (c : ascii) (b : N) :
  (strings.byte c =? b)%N = true -> c = ascii_of_N b.
Proof.
  intros H. apply N.eqb_eq in H. unfold strings.byte in H.
  now rewrite <- (ascii_N_embedding c), H.
Qed.

Lemma byte_range_inv (c : ascii) (lo : N) (len : nat) :
  ((lo <=? strings.byte c) && (strings.byte c <=? lo + N.of_nat len))%N = true ->
  exists i, (i <= len)%nat /\ c = ascii_of_N (lo + N.of_nat i).
Proof.
  intros H. apply andb_prop in H. destruct H as [Hlo Hhi].
  apply N.leb_le in Hlo. apply N.leb_le in Hhi.
  exists (N.to_nat (strings.byte c - lo)). split; [lia|].
  rewrite N2Nat.id.
  replace (lo + (strings.byte c - lo))%N with (strings.byte c) by lia.
  unfold strings.byte. now rewrite ascii_N_embedding.
Qed.

Lemma spaceWidth_rune (r : string) :
  In r spaceRunes ->
  r <> "" /\ forall rest, strings.spaceWidth (r +:+ rest) = String.length r.
Proof.
  intros H. vm_compute in H.
  repeat (destruct H as [<- | H];
          [split; [discriminate|intros rest; reflexivity]|]).
  destruct H.
Qed.

Lemma spaceWidth_inv (s : string) (k : nat) :
  strings.spaceWidth s = S k ->
  exists r rest,
    In r spaceRunes /\ s = r +:+ rest /\ String.length r = S k.
Proof.
  unfold strings.spaceWidth.
  destruct s as [|c0 r0]; [discriminate|].
  destruct (strings.asciiSpace c0) eqn:H0.
  { intros [= <-]. exists (String c0 ""), r0.
    split; [|split; reflexivity].
    unfold strings.asciiSpace in H0. apply orb_prop in H0.
    destruct H0 as [H0 | H0].
    - apply (byte_range_inv c0 9 4) in H0. destruct H0 as (i & Hi & ->).
      apply In_spaceRunes.
      do 5 (destruct i as [|i]; [vm_compute; reflexivity|]). lia.
    - apply byte_inv in H0. subst. apply In_spaceRunes.
      vm_compute. reflexivity. }
  destruct r0 as [|c1 r1]; [discriminate|]. cbv zeta.
  destruct ((strings.byte c0 =? 194)
            && ((strings.byte c1 =? 133) || (strings.byte c1 =? 160)))%N
    eqn:H1.
  { intros [= <-]. exists (String c0 (String c1 "")), r1.
    split; [|split; reflexivity].
    apply andb_prop in H1. destruct H1 as [Ha Hb].
    apply byte_inv in Ha. subst. apply orb_prop in Hb.
    destruct Hb as [Hb | Hb]; apply byte_inv in Hb; subst;
      apply In_spaceRunes; vm_compute; reflexivity. }
  destruct r1 as [|c2 r2]; [discriminate|].
  destruct ((strings.byte c0 =? 225) && (strings.byte c1 =? 154)
            && (strings.byte c2 =? 128))%N eqn:H2.
  { intros [= <-]. exists (String c0 (String c1 (String c2 ""))), r2.
    split; [|split; reflexivity].
    apply andb_prop in H2. destruct H2 as [H2 Hc].
    apply andb_prop in H2. destruct H2 as [Ha Hb].
    apply byte_inv in Ha, Hb, Hc. subst.
    apply In_spaceRunes. vm_compute. reflexivity. }
  destruct ((strings.byte c0 =? 226) && (strings.byte c1 =? 128)
            && ((128 <=? strings.byte c2) && (strings.byte c2 <=? 138)
                || (strings.byte c2 =? 168) || (strings.byte c2 =? 169)
                || (strings.byte c2 =? 175)))%N eqn:H3.
  { intros [= <-]. exists (String c0 (String c1 (String c2 ""))), r2.
    split; [|split; reflexivity].
    apply andb_prop in H3. destruct H3 as [H3 Hc].
    apply andb_prop in H3. destruct H3 as [Ha Hb].
    apply byte_inv in Ha, Hb. subst.
    apply orb_prop in Hc. destruct Hc as [Hc | Hc].
    2:{ apply byte_inv in Hc. subst. apply In_spaceRunes.
        vm_compute. reflexivity. }
    apply orb_prop in Hc. destruct Hc as [Hc | Hc].
    2:{ apply byte_inv in Hc. subst. apply In_spaceRunes.
        vm_compute. reflexivity. }
    apply orb_prop in Hc. destruct Hc as [Hc | Hc].
    2:{ apply byte_inv in Hc. subst. apply In_spaceRunes.
        vm_compute. reflexivity. }
    apply (byte_range_inv c2 128 10) in Hc. destruct Hc as (i & Hi & ->).
    apply In_spaceRunes.
    do 11 (destruct i as [|i]; [vm_compute; reflexivity|]). lia. }
  destruct ((strings.byte c0 =? 226) && (strings.byte c1 =? 129)
            && (strings.byte c2 =? 159))%N eqn:H4.
  { intros [= <-]. exists (String c0 (String c1 (String c2 ""))), r2.
    split; [|split; reflexivity].
    apply andb_prop in H4. destruct H4 as [H4 Hc].
    apply andb_prop in H4. destruct H4 as [Ha Hb].
    apply byte_inv in Ha, Hb, Hc. subst.
    apply In_spaceRunes. vm_compute. reflexivity. }
  destruct ((strings.byte c0 =? 227) && (strings.byte c1 =? 128)
            && (strings.byte c2 =? 128))%N eqn:H5; [|discriminate].
  intros [= <-]. exists (String c0 (String c1 (String c2 ""))), r2.
  split; [|split; reflexivity].
  apply andb_prop in H5. destruct H5 as [H5 Hc].
  apply andb_prop in H5. destruct H5 as [Ha Hb].
  apply byte_inv in Ha, Hb, Hc. subst.
  apply In_spaceRunes. vm_compute. reflexivity.
Qed.

Lemma TrimLeft_from_skip (r : string) :
  forall rest,
    strings.TrimLeft_from (r +:+ rest) (String.length r)
    = strings.TrimLeft_from rest 0.
Proof.
  induction r as [|c r IH]; intros rest; [reflexivity|].
  rewrite append_cons. cbn [String.length strings.TrimLeft_from]. apply IH.
Qed.

Lemma allSpace_from_skip (r : string) :
  forall rest,
    strings.allSpace_from (r +:+ rest) (String.length r)
    = strings.allSpace_from rest 0.
Proof.
  induction r as [|c r IH]; intros rest; [reflexivity|].
  rewrite append_cons. cbn [String.length strings.allSpace_from]. apply IH.
Qed.

Lemma TrimLeft_from_rune (r rest : string) :
  In r spaceRunes ->
  strings.TrimLeft_from (r +:+ rest) 0 = strings.TrimLeft_from rest 0.
Proof.
  intros Hr. destruct (spaceWidth_rune r Hr) as [Hne Hw].
  specialize (Hw rest). destruct r as [|c r]; [congruence|].
  rewrite append_cons in *. cbn [strings.TrimLeft_from].
  rewrite Hw. cbn [String.length]. apply TrimLeft_from_skip.
Qed.

Lemma allSpace_from_rune (r rest : string) :
  In r spaceRunes ->
  strings.allSpace_from (r +:+ rest) 0 = strings.allSpace_from rest 0.
Proof.
  intros Hr. destruct (spaceWidth_rune r Hr) as [Hne Hw].
  specialize (Hw rest). destruct r as [|c r]; [congruence|].
  rewrite append_cons in *. cbn [strings.allSpace_from].
  rewrite Hw. cbn [String.length]. apply allSpace_from_skip.
Qed.

Lemma rune_length (r : string) : In r spaceRunes -> (0 < String.length r)%nat.
Proof.
  intros Hr. destruct (spaceWidth_rune r Hr) as [Hne _].
  destruct r; [congruence|cbn; lia].
Qed.

Lemma TrimLeft_spec (s : string) :
  exists lead,
    Spaces lead
    /\ s = lead +:+ strings.TrimLeft_from s 0
    /\ strings.spaceWidth (strings.TrimLeft_from s 0) = 0%nat.
Proof.
  remember (String.length s) as n eqn:Hn. revert s Hn.
  induction n as [n IH] using lt_wf_ind. intros s ->.
  destruct (strings.spaceWidth s) as [|k] eqn:Hw.
  - exists "". split; [constructor|].
    destruct s as [|c s]; [split; reflexivity|].
    cbn [strings.TrimLeft_from]. rewrite Hw. split; [reflexivity|exact Hw].
  - destruct (spaceWidth_inv s k Hw) as (r & rest & Hr & -> & _).
    rewrite TrimLeft_from_rune by exact Hr.
    destruct (IH (String.length rest)) with (s := rest)
      as (lead & Hlead & Heq & Hnone); [|reflexivity|].
    { rewrite length_append. pose proof (rune_length r Hr). lia. }
    exists (r +:+ lead). split; [now constructor|].
    split; [|exact Hnone].
    rewrite append_assoc. now rewrite <- Heq.
Qed.

Lemma allSpace_Spaces (s : string) :
  strings.allSpace_from s 0 = true -> Spaces s.
Proof.
  remember (String.length s) as n eqn:Hn. revert s Hn.
  induction n as [n IH] using lt_wf_ind. intros s -> Hall.
  destruct s as [|c s]; [constructor|].
  destruct (strings.spaceWidth (String c s)) as [|k] eqn:Hw.
  - cbn [strings.allSpace_from] in Hall. rewrite Hw in Hall. discriminate.
  - destruct (spaceWidth_inv _ k Hw) as (r & rest & Hr & Heq & _).
    rewrite Heq in *. rewrite allSpace_from_rune in Hall by exact Hr.
    constructor; [exact Hr|].
    apply (IH (String.length rest)); [|reflexivity|exact Hall].
    rewrite length_append. pose proof (rune_length r Hr). lia.
Qed.

Lemma TrimRight_trail (s : string) :
  exists trail,
    s = strings.TrimRight s +:+ trail
    /\ strings.allSpace_from trail 0 = true.
Proof.
  induction s as [|c s IH]; [exists ""; split; reflexivity|].
  cbn [strings.TrimRight].
  destruct (strings.allSpace_from (String c s) 0) eqn:Hall.
  - exists (String c s). split; [reflexivity|exact Hall].
  - destruct IH as (trail & Heq & Htrail). exists trail.
    split; [|exact Htrail]. rewrite append_cons. now rewrite <- Heq.
Qed.

Lemma TrimRight_least (s : string) :
  forall init trail,
    s = init +:+ trail ->
    strings.allSpace_from trail 0 = true ->
    exists more, init = strings.TrimRight s +:+ more.
Proof.
  induction s as [|c s IH]; intros init trail Heq Htrail.
  - exists init. reflexivity.
  - cbn [strings.TrimRight].
    destruct (strings.allSpace_from (String c s) 0) eqn:Hall.
    + exists init. reflexivity.
    + destruct init as [|c' init].
      * change ("" +:+ trail) with trail in Heq. congruence.
      * rewrite append_cons in Heq. injection Heq as -> Heq.
        destruct (IH init trail Heq Htrail) as (more & ->).
        exists more. now rewrite append_cons.
Qed.

Lemma TrimSpace_trimmedOf (s : string) : trimmedOf s (strings.TrimSpace s).
Proof.
  unfold strings.TrimSpace.
  destruct (TrimLeft_spec s) as (lead & Hlead & Hs & Hnone).
  destruct (TrimRight_trail (strings.TrimLeft_from s 0))
    as (trail & Hmid & Htrail).
  split.
  - exists lead, trail. split; [|split].
    + now rewrite <- Hmid.
    + exact Hlead.
    + now apply allSpace_Spaces.
  - intros r Hr. destruct (spaceWidth_rune r Hr) as [Hne Hw]. split.
    + intros rest Heq. rewrite Heq, append_assoc in Hmid.
      rewrite Hmid, Hw in Hnone. pose proof (rune_length r Hr). lia.
    + intros init Heq.
      destruct (TrimRight_least (strings.TrimLeft_from s 0) init
                  (r +:+ trail)) as (more & Hmore).
      * rewrite Hmid at 1. rewrite Heq. apply append_assoc.
      * now rewrite allSpace_from_rune.
      * rewrite Heq in Hmore. apply (f_equal String.length) in Hmore.
        rewrite !length_append in Hmore.
        pose proof (rune_length r Hr). lia.
Qed.

(** C6: when decoding succeeds, its text is the fragments of the lines
    read, joined in the order of their arrival with nothing between
    them, without the white space around the whole: the joined
    fragments are white-space characters, the text, and white-space
    characters again, and the text neither starts nor ends with a
    white-space character. The three lines of the example give
    [Hi there], and so does a stream whose fragments carry two spaces
    before the text and a space and a line feed after it. *)
Theorem C6_fragments_in_order_trimmed :
  (forall body text,
      processStreamResponse body = (text, None) ->
      trimmedOf
        (String.concat "" (fragments (linesRead (bufio.scan body)))) text)
  /\ fragments (linesRead (bufio.scan stream_hi_there)) = ["Hi"; " there"]
  /\ processStreamResponse stream_hi_there = ("Hi there", None)
  /\ fragments (linesRead (bufio.scan stream_padded))
     = ["  Hi"; " there " +:+ LF]
  /\ processStreamResponse stream_padded = ("Hi there", None).
Proof.
  split; [|repeat split; vm_compute; reflexivity].
  intros body text. rewrite processStreamResponse_decoded. unfold decoded.
  destruct (errRead (bufio.scan body)); [discriminate|].
  destruct (last (decodeErrors (linesRead (bufio.scan body))));
    [discriminate|].
  intros H. injection H as <-. apply TrimSpace_trimmedOf.
Qed.

(** C6 on the stream with white space around the text. *)
Lemma C6_fragments_in_order_trimmed_witness :
  processStreamResponse stream_padded = ("Hi there", None)
  /\ trimmedOf
       (String.concat "" (fragments (linesRead (bufio.scan stream_padded))))
       "Hi there".
Proof.
  split; [vm_compute; reflexivity|].
  apply (proj1 C6_fragments_in_order_trimmed stream_padded "Hi there").
  vm_compute. reflexivity.
Defined.

(** ** The dispatcher *)

Lemma requests_app (xs ys : list Event) :
  requests (xs ++ ys) = (requests xs + requests ys)%nat.
Proof. unfold requests. now rewrite filter_app, length_app. Qed.

(** Decoding gives a text or an error, never both. *)
Lemma processStreamResponse_all_or_nothing (body : Reader) :
  snd (processStreamResponse body) <> None ->
  fst (processStreamResponse body) = "".
Proof.
  rewrite processStreamResponse_decoded. unfold decoded.
  destruct (errRead (bufio.scan body)); [reflexivity|].
  destruct (last (decodeErrors (linesRead (bufio.scan body))));
    [reflexivity|].
  simpl. congruence.
Qed.

(** One call of [getAIResponse] sends one request and touches neither
    the conversation nor standard input; it gives a text or an error,
    never both. *)
Lemma getAIResponse_effect (env : Env) (w : World) :
  exists req,
    trace (snd (getAIResponse env w)) = trace w ++ [HTTPRequest req]
    /\ conversation (snd (getAIResponse env w)) = conversation w
    /\ stdin (snd (getAIResponse env w)) = stdin w
    /\ (snd (fst (getAIResponse env w)) <> None ->
        fst (fst (getAIResponse env w)) = "").
Proof.
  unfold getAIResponse, sendRequest, createRequestBody. run_M.
  eexists.
  destruct (httpClient_Do env _ _) as [response | err]; run_M.
  - destruct (negb (StatusCode response =? 200)); run_M.
    + repeat split; reflexivity.
    + repeat split; try reflexivity.
      apply processStreamResponse_all_or_nothing.
  - repeat split; reflexivity.
Qed.

(** One call of [getAIResponse], said with the instants: it asks the
    time, sends the request and takes the answer of the transport. *)
Lemma getAIResponse_run (env : Env) (w : World) :
  getAIResponse env w
  = (attemptOutcome env (conversation w) (instant w),
     mkWorld (2 + instant w)
       (trace w ++ [HTTPRequest (requestAt env (conversation w) (instant w))])
       (stdin w) (conversation w)).
Proof.
  unfold getAIResponse, sendRequest, createRequestBody, attemptOutcome,
    responseOutcome, requestAt, toAPIMessage.
  run_M.
  destruct (httpClient_Do env _ _) as [response | err]; run_M;
    [|reflexivity].
  destruct (negb (StatusCode response =? 200)); reflexivity.
Qed.

(** An iteration of the loop whose wait ends with the rate limiter and
    whose attempt fails. *)
Lemma getAIResponseWithRetry_loop_failed (env : Env) (remaining : nat)
  (attempt backoff : Z) (err : option error) (n : nat) (tr : list Event)
  (sc : Scanned) (c : Conversation) (e : error) :
  select_wait env n = rateLimiter_C ->
  snd (attemptOutcome env c (1 + n)) = Some e ->
  getAIResponseWithRetry_loop env (S remaining) attempt backoff err
    (mkWorld n tr sc c)
  = if attempt <? maxRetries - 1
    then
      getAIResponseWithRetry_loop env remaining (attempt + 1)
        (int_wrap (backoff * backoffFactor)) (Some e)
        (mkWorld (4 + n)
           (tr ++ failedAttempt env c (1 + n) (attempt + 1) e
            ++ pause
                 (int_wrap (backoff + rand_Int63 env (3 + n) mod backoff)))
           sc c)
    else
      getAIResponseWithRetry_loop env remaining (attempt + 1) backoff (Some e)
        (mkWorld (3 + n)
           (tr ++ failedAttempt env c (1 + n) (attempt + 1) e) sc c).
Proof.
  intros Hsel Hfail.
  cbn [getAIResponseWithRetry_loop]. run_M. rewrite Hsel.
  rewrite getAIResponse_run. cbn [instant trace stdin conversation Nat.add].
  cbn [Nat.add] in Hfail.
  destruct (attemptOutcome env c (S n)) as [text oerr].
  cbn [snd] in Hfail. subst oerr. run_M.
  unfold failedAttempt, pause.
  destruct (attempt <? maxRetries - 1); run_M;
    rewrite <- ?app_assoc; reflexivity.
Qed.


Lemma first_pause (r : Z) :
  int_wrap (initialBackoff + r mod initialBackoff)
  = initialBackoff + r mod initialBackoff.
Proof.
  apply int_wrap_small.
  pose proof (Z.mod_pos_bound r initialBackoff eq_refl) as H.
  unfold initialBackoff in *. lia.
Qed.

Lemma second_pause (r : Z) :
  int_wrap
    (int_wrap (initialBackoff * backoffFactor)
     + r mod int_wrap (initialBackoff * backoffFactor))
  = initialBackoff * backoffFactor
    + r mod (initialBackoff * backoffFactor).
Proof.
  replace (int_wrap (initialBackoff * backoffFactor))
    with (initialBackoff * backoffFactor) by (vm_compute; reflexivity).
  apply int_wrap_small.
  pose proof (Z.mod_pos_bound r (initialBackoff * backoffFactor) eq_refl)
    as H.
  unfold initialBackoff, backoffFactor in *. lia.
Qed.

(** The loop returns a text or an error, never both. *)
Lemma getAIResponseWithRetry_loop_all_or_nothing (env : Env) :
  forall remaining attempt backoff err w,
    snd (fst (getAIResponseWithRetry_loop env remaining attempt backoff err w))
    <> None ->
    fst (fst (getAIResponseWithRetry_loop env remaining attempt backoff err w))
    = "".
Proof.
  induction remaining as [|remaining IH]; intros attempt backoff err w.
  - reflexivity.
  - cbn [getAIResponseWithRetry_loop]. run_M.
    destruct (select_wait env (instant w)); [|reflexivity].
    destruct (getAIResponse env _) as [[text oerr] w2].
    destruct oerr as [e|]; [|cbn; congruence].
    run_M. destruct (attempt <? maxRetries - 1); run_M; apply IH.
Qed.

(** C5: when each of the three waits ends with the rate limiter and
    each of the three attempts fails, with the errors [e1], [e2] and
    [e3] in this order, the dispatcher sends exactly [maxRetries]
    requests, pauses after the first and after the second, and returns
    the empty text with the error [failed after 3 attempts, last
    error: ...] that wraps [e3], the error of the third attempt; the
    conversation is as it was. And whatever the environment does, an
    error never comes with a text. *)
Theorem C5_all_attempts_fail :
  (forall env w e1 e2 e3,
      let i := instant w in
      let c := conversation w in
      let d1 :=
        initialBackoff + rand_Int63 env (3 + i) mod initialBackoff in
      let d2 :=
        initialBackoff * backoffFactor
        + rand_Int63 env (7 + i) mod (initialBackoff * backoffFactor) in
      let evs :=
        failedAttempt env c (1 + i) 1 e1 ++ pause d1
        ++ failedAttempt env c (5 + i) 2 e2 ++ pause d2
        ++ failedAttempt env c (9 + i) 3 e3 in
      select_wait env i = rateLimiter_C ->
      snd (attemptOutcome env c (1 + i)) = Some e1 ->
      select_wait env (4 + i) = rateLimiter_C ->
      snd (attemptOutcome env c (5 + i)) = Some e2 ->
      select_wait env (8 + i) = rateLimiter_C ->
      snd (attemptOutcome env c (9 + i)) = Some e3 ->
      getAIResponseWithRetry env w
      = (("",
          Some (wrapError
                  ("failed after 3 attempts, last error: "
                   +:+ errors.Error e3) e3)),
         mkWorld (11 + i) (trace w ++ evs) (stdin w) c)
      /\ requests evs = Z.to_nat maxRetries
      /\ sleeps evs = 2%nat)
  /\ (forall env w,
        snd (fst (getAIResponseWithRetry env w)) <> None ->
        fst (fst (getAIResponseWithRetry env w)) = "").
Proof.
  split.
  - intros env [n tr sc c] e1 e2 e3. cbv zeta.
    cbn [instant trace stdin conversation].
    intros Hs1 Hf1 Hs2 Hf2 Hs3 Hf3.
    split; [|split; reflexivity].
    unfold getAIResponseWithRetry.
    change (Z.to_nat maxRetries) with 3%nat.
    rewrite (getAIResponseWithRetry_loop_failed env 2 0 _ _ _ _ _ _ e1
               Hs1 Hf1).
    change (0 <? maxRetries - 1) with true. cbv iota.
    rewrite (getAIResponseWithRetry_loop_failed env 1 (0 + 1) _ _ _ _ _ _ e2
               Hs2 Hf2).
    change (0 + 1 <? maxRetries - 1) with true. cbv iota.
    rewrite (getAIResponseWithRetry_loop_failed env 0 (0 + 1 + 1) _ _ _ _ _ _
               e3 Hs3 Hf3).
    change (0 + 1 + 1 <? maxRetries - 1) with false. cbv iota.
    cbn [getAIResponseWithRetry_loop].
    rewrite first_pause, second_pause.
    unfold ret. rewrite <- !app_assoc. reflexivity.
  - intros env w. apply getAIResponseWithRetry_loop_all_or_nothing.
Qed.

(** C5 with a transport that fails each request for another reason:
    the error that is wrapped is the one of the third attempt. *)
Lemma C5_all_attempts_fail_witness :
  select_wait env_flaky 0 = rateLimiter_C
  /\ snd (attemptOutcome env_flaky (conversation (world_start [])) 1)
     = Some (wrapError "failed to send request: connection refused"
               (errorString "connection refused"))
  /\ select_wait env_flaky 4 = rateLimiter_C
  /\ snd (attemptOutcome env_flaky (conversation (world_start [])) 5)
     = Some (wrapError "failed to send request: connection reset by peer"
               (errorString "connection reset by peer"))
  /\ select_wait env_flaky 8 = rateLimiter_C
  /\ snd (attemptOutcome env_flaky (conversation (world_start [])) 9)
     = Some (wrapError "failed to send request: i/o timeout"
               (errorString "i/o timeout"))
  /\ fst (getAIResponseWithRetry env_flaky (world_start []))
     = ("",
        Some (wrapError
                ("failed after 3 attempts, last error: "
                 +:+ "failed to send request: i/o timeout")
                (wrapError "failed to send request: i/o timeout"
                   (errorString "i/o timeout")))).
Proof.
  repeat (split; [reflexivity|]).
  rewrite (proj1
             (proj1 C5_all_attempts_fail env_flaky (world_start [])
                (wrapError "failed to send request: connection refused"
                   (errorString "connection refused"))
                (wrapError "failed to send request: connection reset by peer"
                   (errorString "connection reset by peer"))
                (wrapError "failed to send request: i/o timeout"
                   (errorString "i/o timeout"))
                eq_refl eq_refl eq_refl eq_refl eq_refl eq_refl)).
  reflexivity.
Defined.




(** ** The session *)

(** A line that begins with a command still does after [TrimSpace]. *)
Lemma spaceWidth_plain (c : ascii) (r : string) :
  (strings.byte c <? 128)%N = true ->
  strings.asciiSpace c = false ->
  strings.spaceWidth (String c r) = 0%nat.
Proof.
  intros Hascii Hspace. unfold strings.spaceWidth. rewrite Hspace.
  apply N.ltb_lt in Hascii.
  assert (H194 : (strings.byte c =? 194)%N = false) by (apply N.eqb_neq; lia).
  assert (H225 : (strings.byte c =? 225)%N = false) by (apply N.eqb_neq; lia).
  assert (H226 : (strings.byte c =? 226)%N = false) by (apply N.eqb_neq; lia).
  assert (H227 : (strings.byte c =? 227)%N = false) by (apply N.eqb_neq; lia).
  destruct r as [|c1 [|c2 r2]]; cbv zeta; rewrite ?H194, ?H225, ?H226, ?H227;
    reflexivity.
Qed.

Lemma TrimRight_plain (c : ascii) (r : string) :
  (strings.byte c <? 128)%N = true ->
  strings.asciiSpace c = false ->
  strings.TrimRight (String c r) = String c (strings.TrimRight r).
Proof.
  intros Hascii Hspace. cbn [strings.TrimRight strings.allSpace_from].
  now rewrite spaceWidth_plain.
Qed.

Lemma TrimLeft_plain (c : ascii) (r : string) :
  (strings.byte c <? 128)%N = true ->
  strings.asciiSpace c = false ->
  strings.TrimLeft_from (String c r) 0 = String c r.
Proof.
  intros Hascii Hspace. cbn [strings.TrimLeft_from].
  now rewrite spaceWidth_plain.
Qed.

Lemma TrimSpace_keeps_save (line : string) :
  strings.HasPrefix line "/save" = true ->
  strings.HasPrefix (strings.TrimSpace line) "/save" = true.
Proof.
  intros H.
  repeat (apply HasPrefix_cons_inv in H; destruct H as (? & -> & H)).
  unfold strings.TrimSpace.
  rewrite TrimLeft_plain by reflexivity.
  rewrite !TrimRight_plain by reflexivity.
  unfold strings.HasPrefix. cbn. now destruct (strings.TrimRight _).
Qed.

Lemma TrimSpace_keeps_load (line : string) :
  strings.HasPrefix line "/load" = true ->
  strings.HasPrefix (strings.TrimSpace line) "/load" = true.
Proof.
  intros H.
  repeat (apply HasPrefix_cons_inv in H; destruct H as (? & -> & H)).
  unfold strings.TrimSpace.
  rewrite TrimLeft_plain by reflexivity.
  rewrite !TrimRight_plain by reflexivity.
  unfold strings.HasPrefix. cbn. now destruct (strings.TrimRight _).
Qed.

Lemma getUserInput_effect (w : World) :
  trace (snd (getUserInput w)) = trace w ++ [Print Prompt]
  /\ conversation (snd (getUserInput w)) = conversation w
  /\ instant (snd (getUserInput w)) = instant w.
Proof.
  unfold getUserInput, Scan_stdin. run_M.
  destruct (stdin w); run_M; repeat split; reflexivity.
Qed.

(** A save writes a file or reports why it could not; it sends no
    request, leaves the conversation as it was and lets the session go
    on. *)
Lemma handleSaveCommand_effect (env : Env) (w : World) :
  (exists evs,
      trace (snd (handleSaveCommand env w)) = trace w ++ evs
      /\ requests evs = 0%nat)
  /\ conversation (snd (handleSaveCommand env w)) = conversation w
  /\ fst (handleSaveCommand env w) = None.
Proof.
  unfold handleSaveCommand, saveConversation. run_M.
  destruct (json_MarshalIndent env _) as [data|err]; run_M.
  - destruct (os_WriteFile env _ _ _); run_M;
      (split; [eexists; split; [rewrite <- ?app_assoc; reflexivity
                               |reflexivity]
              |split; reflexivity]).
  - split; [eexists; split; [reflexivity|reflexivity]|split; reflexivity].
Qed.

(** [processChatInput] after the line is read. *)
Lemma processChatInput_dispatch (env : Env) (w : World) :
  processChatInput env w
  = let userInput := fst (getUserInput w) in
    let w1 := snd (getUserInput w) in
    if String.eqb userInput "" then (None, w1)
    else if strings.EqualFold userInput exitCommand then
      (Some io_EOF,
       mkWorld (instant w1) (trace w1 ++ [Print Goodbye]) (stdin w1)
         (conversation w1))
    else if strings.HasPrefix userInput "/save" then handleSaveCommand env w1
    else if strings.HasPrefix userInput "/load" then
      handleLoadCommand env userInput w1
    else
      (run addMessage_ env "user" userInput ;;
       r <- getAIResponseWithRetry env ;;
       match r with
       | (_, Some err) => run emit (Print (ResponseFailed err)) ;; ret None
       | (aiResponse, None) =>
           run emit (Print AIPrefix) ;;
           run printStreamingResponse aiResponse ;;
           run addMessage_ env "assistant" aiResponse ;;
           run emit (Print Newline) ;;
           ret None
       end) w1.
Proof.
  unfold processChatInput. unfold bind at 1.
  destruct (getUserInput w) as [userInput w1]. cbn [fst snd].
  destruct (String.eqb userInput ""); [reflexivity|].
  destruct (strings.EqualFold userInput exitCommand); [reflexivity|].
  destruct (strings.HasPrefix userInput "/save"); [reflexivity|].
  destruct (strings.HasPrefix userInput "/load"); reflexivity.
Qed.

(** C9: an input that begins with [/save], whatever follows, is handled
    by [handleSaveCommand], and one that begins with [/load] by
    [handleLoadCommand]; in both cases no request is sent, and the
    conversation is as it was or, after a load that succeeds, the
    conversation of the file: the input is not appended to it. By
    [TrimSpace_keeps_save] and [TrimSpace_keeps_load] this holds of the
    line as typed as well as of the input trimmed. *)
Theorem C9_commands_by_prefix (env : Env) (w : World) :
  let userInput := fst (getUserInput w) in
  let w1 := snd (getUserInput w) in
  let w' := snd (processChatInput env w) in
  (strings.HasPrefix userInput "/save" = true ->
   processChatInput env w = handleSaveCommand env w1
   /\ (exists evs, trace w' = trace w ++ evs /\ requests evs = 0%nat)
   /\ conversation w' = conversation w)
  /\ (strings.HasPrefix userInput "/load" = true ->
      processChatInput env w = handleLoadCommand env userInput w1
      /\ (exists evs, trace w' = trace w ++ evs /\ requests evs = 0%nat)
      /\ (conversation w' = conversation w
          \/ exists filename data history,
              os_ReadFile env (instant w) filename = inl data
              /\ json.Unmarshal_Messages data = inl history
              /\ conversation w' =
                   {| History := history;
                      tokenCount := countTokens history |})).
Proof.
  cbv zeta. rewrite processChatInput_dispatch. cbv zeta.
  destruct (getUserInput_effect w) as (Htr & Hconv & Hinst).
  destruct (getUserInput w) as [userInput w1]. cbn [fst snd] in *.
  split; intros H.
  - pose proof H as H'.
    apply HasPrefix_cons_inv in H'. destruct H' as (u & -> & _).
    change (String.eqb (String "/" u) "") with false.
    change (strings.EqualFold (String "/" u) exitCommand) with false.
    cbv iota. rewrite H.
    destruct (handleSaveCommand_effect env w1) as ((evs & Hevs & Hreq) & Hc & _).
    split; [reflexivity|]. split.
    + exists ([Print Prompt] ++ evs).
      rewrite Hevs, Htr, <- app_assoc, requests_app, Hreq. auto.
    + congruence.
  - pose proof H as H'.
    apply HasPrefix_cons_inv in H'. destruct H' as (u & -> & H').
    apply HasPrefix_cons_inv in H'. destruct H' as (u' & -> & _).
    change (String.eqb (String "/" (String "l" u')) "") with false.
    change (strings.EqualFold (String "/" (String "l" u')) exitCommand)
      with false.
    change (strings.HasPrefix (String "/" (String "l" u')) "/save")
      with false.
    cbv iota. rewrite H.
    destruct (handleLoadCommand_effect env (String "/" (String "l" u')) w1)
      as ((evs & Hevs & Hreq) & Hc).
    split; [reflexivity|]. split.
    + exists ([Print Prompt] ++ evs).
      rewrite Hevs, Htr, <- app_assoc, requests_app, Hreq. auto.
    + rewrite Hconv, Hinst in Hc. exact Hc.
Qed.

(** C9 on the inputs [/savefoo] and [/loadfoo saved.json]. *)
Lemma C9_commands_by_prefix_witness :
  strings.HasPrefix (fst (getUserInput (world_start ["/savefoo"])))
    "/save" = true
  /\ processChatInput env_saved (world_start ["/savefoo"])
     = handleSaveCommand env_saved
         (snd (getUserInput (world_start ["/savefoo"])))
  /\ strings.HasPrefix
       (fst (getUserInput (world_start ["/loadfoo saved.json"])))
       "/load" = true
  /\ processChatInput env_saved (world_start ["/loadfoo saved.json"])
     = handleLoadCommand env_saved
         (fst (getUserInput (world_start ["/loadfoo saved.json"])))
         (snd (getUserInput (world_start ["/loadfoo saved.json"]))).
Proof.
  split; [vm_compute; reflexivity|].
  split.
  { apply (proj1 (C9_commands_by_prefix env_saved (world_start ["/savefoo"]))).
    vm_compute. reflexivity. }
  split; [vm_compute; reflexivity|].
  apply (proj2 (C9_commands_by_prefix env_saved
                  (world_start ["/loadfoo saved.json"]))).
  vm_compute. reflexivity.
Defined.

(** C10: when [Scan] fails on standard input, [getUserInput] returns
    [exitCommand]; [processChatInput] then prints the goodbye and
    returns [io.EOF], with no request sent and the conversation as it
    was, which is what it does when the line [exit] is read; and the
    loop of the session, unless its context is already done, returns
    [nil] there. *)
Theorem C10_end_of_input_is_exit (env : Env) (n : nat) (tr : list Event)
  (e : option error) (c : Conversation) :
  let w := mkWorld n tr (Stop e) c in
  getUserInput w = (exitCommand, mkWorld n (tr ++ [Print Prompt]) (Stop e) c)
  /\ processChatInput env w
     = (Some io_EOF,
        mkWorld n ((tr ++ [Print Prompt]) ++ [Print Goodbye]) (Stop e) c)
  /\ (forall e' next,
        processChatInput env (mkWorld n tr (Token "exit" e' next) c)
        = (Some io_EOF,
           mkWorld n ((tr ++ [Print Prompt]) ++ [Print Goodbye]) next c))
  /\ (forall fuel,
        processChatInputLoop env (S fuel) w
        = match ctx_Err env n with
          | Some ctxErr => (Some (Some ctxErr), mkWorld (S n) tr (Stop e) c)
          | None =>
              (Some None,
               mkWorld (S n) ((tr ++ [Print Prompt]) ++ [Print Goodbye])
                 (Stop e) c)
          end).
Proof.
  cbv zeta. split; [reflexivity|]. split; [reflexivity|].
  split; [intros e' next; reflexivity|].
  intros fuel. cbn [processChatInputLoop]. run_M.
  destruct (ctx_Err env n); reflexivity.
Qed.

(** ** The loop of the session returns

    Standard input is read by [getUserInput] only; every turn that lets
    the loop go on has read a line. So the loop returns within one
    iteration more than there are lines to read. *)

Lemma getAIResponseWithRetry_loop_stdin (env : Env) :
  forall remaining attempt backoff err w,
    stdin (snd (getAIResponseWithRetry_loop env remaining attempt backoff err w))
    = stdin w.
Proof.
  induction remaining as [|remaining IH]; intros attempt backoff err w.
  - reflexivity.
  - cbn [getAIResponseWithRetry_loop]. run_M.
    destruct (select_wait env (instant w)); [|reflexivity].
    match goal with
    | |- context [getAIResponse env ?w1] =>
        destruct (getAIResponse_effect env w1) as (req & _ & _ & Hin & _);
          destruct (getAIResponse env w1) as [[text oerr] w2]
    end.
    cbn [fst snd stdin] in Hin.
    destruct oerr as [e|]; [|exact Hin].
    run_M. destruct (attempt <? maxRetries - 1); run_M;
      rewrite IH; exact Hin.
Qed.

Lemma handleSaveCommand_stdin (env : Env) (w : World) :
  stdin (snd (handleSaveCommand env w)) = stdin w.
Proof.
  unfold handleSaveCommand, saveConversation. run_M.
  destruct (json_MarshalIndent env _); run_M; [|reflexivity].
  destruct (os_WriteFile env _ _ _); reflexivity.
Qed.

Lemma handleLoadCommand_stdin (env : Env) (userInput : string) (w : World) :
  stdin (snd (handleLoadCommand env userInput w)) = stdin w.
Proof.
  unfold handleLoadCommand.
  destruct (strings.SplitN_space_2 userInput) as [|a [|filename [|x l]]];
    try reflexivity.
  unfold loadConversation, printConversationSummary. run_M.
  destruct (os_ReadFile env (instant w) filename); run_M; [|reflexivity].
  destruct (json.Unmarshal_Messages _); reflexivity.
Qed.

(** A turn at the end of input ends the session; any other turn takes
    one line. *)
Lemma processChatInput_reads (env : Env) (w : World) :
  match stdin w with
  | Stop _ => fst (processChatInput env w) = Some io_EOF
  | Token _ _ next => stdin (snd (processChatInput env w)) = next
  end.
Proof.
  rewrite processChatInput_dispatch. cbv zeta.
  unfold getUserInput, Scan_stdin. run_M.
  destruct (stdin w) as [line errNow next | errNow] eqn:Hin; run_M.
  2: { reflexivity. }
  destruct (String.eqb (strings.TrimSpace line) ""); [reflexivity|].
  destruct (strings.EqualFold (strings.TrimSpace line) exitCommand);
    [reflexivity|].
  destruct (strings.HasPrefix (strings.TrimSpace line) "/save").
  { now rewrite handleSaveCommand_stdin. }
  destruct (strings.HasPrefix (strings.TrimSpace line) "/load").
  { now rewrite handleLoadCommand_stdin. }
  run_M.
  match goal with
  | |- context [getAIResponseWithRetry env ?w1] =>
      pose proof (getAIResponseWithRetry_loop_stdin env
                    (Z.to_nat maxRetries) 0 initialBackoff None w1) as Hr;
        fold (getAIResponseWithRetry env) in Hr;
        destruct (getAIResponseWithRetry env w1) as [[text oerr] w2]
  end.
  cbn [fst snd stdin] in Hr.
  destruct oerr; unfold printStreamingResponse; run_M; exact Hr.
Qed.

Lemma processChatInputLoop_returns (env : Env) :
  forall fuel w,
    (pending (stdin w) < fuel)%nat ->
    fst (processChatInputLoop env fuel w) <> None.
Proof.
  induction fuel as [|fuel IH]; intros w Hfuel; [lia|].
  cbn [processChatInputLoop]. run_M.
  destruct (ctx_Err env (instant w)); [discriminate|].
  match goal with
  | |- context [processChatInput env ?w1] =>
      pose proof (processChatInput_reads env w1) as Hread;
        destruct (processChatInput env w1) as [r w2]
  end.
  cbn [fst snd stdin] in Hread.
  destruct r as [err|].
  - destruct (errors.Is err io_EOF); discriminate.
  - destruct (stdin w) as [line errNow next | errNow]; [|discriminate].
    apply IH. rewrite Hread. simpl in Hfuel. lia.
Qed.

(** * Further properties of the code *)

(** ** The conversation buffer *)

Lemma countTokens_from (msgs : list Message) :
  forall count,
    0 <= count ->
    count + sumTokens msgs <= max_int ->
    fold_left (fun count msg => int_wrap (count + lenFields (Content msg)))
      msgs count
    = count + sumTokens msgs.
Proof.
  induction msgs as [|m msgs IH]; intros count Hc Hfit; simpl.
  - lia.
  - pose proof (lenFields_nonneg (Content m)) as Hm.
    pose proof (sumTokens_nonneg msgs) as Hs.
    simpl in Hfit. unfold max_int in *.
    rewrite int_wrap_small by lia.
    rewrite IH by (unfold max_int; lia). lia.
Qed.

(** X1: [countTokens] is the sum of the word counts of the contents,
    for messages whose sum fits an [int]. *)
Theorem countTokens_is_sum (msgs : list Message) :
  sumTokens msgs <= max_int -> countTokens msgs = sumTokens msgs.
Proof.
  intros Hfit. unfold countTokens.
  rewrite countTokens_from by lia. lia.
Qed.

Lemma countTokens_is_sum_witness :
  sumTokens history_monad <= max_int
  /\ countTokens history_monad = sumTokens history_monad.
Proof.
  split; [vm_compute; discriminate|].
  apply (countTokens_is_sum history_monad). vm_compute. discriminate.
Defined.

Lemma truncateHistory_loop_within (h : list Message) (count : Z) :
  count <= maxConversationTokens ->
  truncateHistory_loop h count = {| History := h; tokenCount := count |}.
Proof.
  intros Hfit. destruct h as [|a [|b rest]]; simpl; try reflexivity.
  now rewrite gtb_false.
Qed.

Lemma truncateHistory_loop_short (h : list Message) (count : Z) :
  (length h <= 1)%nat ->
  truncateHistory_loop h count = {| History := h; tokenCount := count |}.
Proof.
  intros Hlen. destruct h as [|a [|b rest]]; simpl in *; try reflexivity.
  lia.
Qed.

(** X2: [truncateHistory] changes nothing when the count is within the
    budget, and running it a second time changes nothing: one pass
    does all it can. *)
Theorem truncateHistory_idempotent (c : Conversation) :
  (tokenCount c <= maxConversationTokens -> truncateHistory c = c)
  /\ truncateHistory (truncateHistory c) = truncateHistory c.
Proof.
  split.
  - intros Hfit. unfold truncateHistory.
    rewrite truncateHistory_loop_within by exact Hfit. now destruct c.
  - unfold truncateHistory at 1.
    destruct (truncateHistory_loop_stops (History c) (tokenCount c))
      as [Hfit | Hlen]; fold (truncateHistory c) in *.
    + rewrite truncateHistory_loop_within by exact Hfit.
      now destruct (truncateHistory c).
    + rewrite truncateHistory_loop_short by exact Hlen.
      now destruct (truncateHistory c).
Qed.

Lemma truncateHistory_idempotent_witness :
  tokenCount (newConversation "You are helpful" 0) <= maxConversationTokens
  /\ truncateHistory (newConversation "You are helpful" 0)
     = newConversation "You are helpful" 0.
Proof.
  split; [vm_compute; discriminate|].
  apply (proj1 (truncateHistory_idempotent
                  (newConversation "You are helpful" 0))).
  vm_compute. discriminate.
Defined.

Lemma truncateHistory_loop_drops (h : list Message) :
  forall count,
    exists k,
      (2 * k <= length h)%nat
      /\ History (truncateHistory_loop h count) = drop (2 * k) h.
Proof.
  induction h as [| a | a b rest IH] using list_pair_ind; intros count.
  - exists 0%nat. split; [simpl; lia|reflexivity].
  - exists 0%nat. split; [simpl; lia|reflexivity].
  - cbn [truncateHistory_loop]. destruct (count >? maxConversationTokens).
    + destruct (IH (int_wrap (count - lenFields (Content b))))
        as (k & Hk & Heq).
      exists (S k). split; [simpl; lia|].
      assert (E : (2 * S k = S (S (2 * k)))%nat) by lia.
      rewrite Heq, E. reflexivity.
    + exists 0%nat. split; [lia|reflexivity].
Qed.

(** X3: [addMessage] never reorders or alters messages: the history
    afterwards is the old history followed by the new message, less an
    even number of messages taken from its front. *)
Theorem addMessage_drops_even_prefix (c : Conversation)
  (role content : string) (now : Z) :
  exists k,
    (2 * k <= S (length (History c)))%nat
    /\ History (addMessage c role content now)
       = drop (2 * k) (History c ++ [mkMessage role content now]).
Proof.
  unfold addMessage, truncateHistory. cbn [History tokenCount].
  destruct (truncateHistory_loop_drops
              (History c ++ [mkMessage role content now])
              (int_wrap (tokenCount c + lenFields content)))
    as (k & Hk & Heq).
  exists k. split; [|exact Heq].
  rewrite length_app in Hk. simpl in Hk. lia.
Qed.

Lemma truncateHistory_loop_over (h : list Message) :
  forall count,
    sumTokens h <= count <= max_int ->
    sumTokens (History (truncateHistory_loop h count))
    <= tokenCount (truncateHistory_loop h count) <= count.
Proof.
  induction h as [| a | a b rest IH] using list_pair_ind; intros count Hc.
  - simpl in *. lia.
  - simpl in *. lia.
  - cbn [truncateHistory_loop].
    destruct (count >? maxConversationTokens); [|simpl in *; lia].
    pose proof (lenFields_nonneg (Content a)) as Ha.
    pose proof (lenFields_nonneg (Content b)) as Hb.
    pose proof (sumTokens_nonneg rest) as Hr.
    simpl in Hc. unfold max_int in *.
    rewrite int_wrap_small by lia.
    specialize (IH (count - lenFields (Content b))).
    unfold max_int in IH. lia.
Qed.

(** X4: the stored count never falls below the estimate of the
    messages kept. If it is at least their sum before an append, and
    the addition does not overflow, it is at least their sum after it,
    and at most the count before plus the estimate of the new
    message. *)
Theorem addMessage_count_covers_sum (c : Conversation)
  (role content : string) (now : Z) :
  sumTokens (History c) <= tokenCount c ->
  tokenCount c + lenFields content <= max_int ->
  let c' := addMessage c role content now in
  sumTokens (History c') <= tokenCount c'
  /\ tokenCount c' <= tokenCount c + lenFields content.
Proof.
  intros Hinv Hfit. cbv zeta. unfold addMessage, truncateHistory.
  cbn [History tokenCount].
  pose proof (sumTokens_nonneg (History c)) as Hs.
  pose proof (lenFields_nonneg content) as Hc.
  unfold max_int in Hfit.
  rewrite int_wrap_small by lia.
  apply truncateHistory_loop_over.
  rewrite sumTokens_app. simpl. unfold max_int. lia.
Qed.

Lemma addMessage_count_covers_sum_witness :
  let c :=
    addMessages (newConversation "You are helpful" 0)
      [("user", "hi", 1); ("assistant", words 3998, 2)] in
  sumTokens (History c) <= tokenCount c
  /\ tokenCount c + lenFields "and then" <= max_int
  /\ sumTokens (History (addMessage c "user" "and then" 3))
     <= tokenCount (addMessage c "user" "and then" 3)
  /\ tokenCount (addMessage c "user" "and then" 3)
     <= tokenCount c + lenFields "and then".
Proof.
  cbv zeta.
  split; [vm_compute; discriminate|].
  split; [vm_compute; discriminate|].
  apply (addMessage_count_covers_sum
           (addMessages (newConversation "You are helpful" 0)
              [("user", "hi", 1); ("assistant", words 3998, 2)])
           "user" "and then" 3);
    vm_compute; discriminate.
Defined.

(** The witness of [addMessage_within_budget], X5: an append that stays
    within the budget adds the message at the end and keeps the count
    equal to the sum. *)
Lemma addMessage_within_budget_witness :
  let c := newConversation "You are helpful" 0 in
  tokenCount c = sumTokens (History c)
  /\ tokenCount c + lenFields "what is a monad" <= maxConversationTokens
  /\ History (addMessage c "user" "what is a monad" 1)
     = History c ++ [mkMessage "user" "what is a monad" 1]
  /\ tokenCount (addMessage c "user" "what is a monad" 1)
     = sumTokens (History (addMessage c "user" "what is a monad" 1)).
Proof.
  cbv zeta.
  split; [vm_compute; reflexivity|].
  split; [vm_compute; discriminate|].
  apply (addMessage_within_budget (newConversation "You are helpful" 0)
           "user" "what is a monad" 1).
  - vm_compute. reflexivity.
  - vm_compute. discriminate.
Defined.

(** ** The outbound view and the request *)

Lemma truncateConversation_loop_whole (newestFirst : list Message) :
  forall maxTokens totalTokens truncated,
    0 <= totalTokens ->
    totalTokens + sumTokens newestFirst <= maxTokens ->
    maxTokens <= max_int ->
    truncateConversation_loop newestFirst maxTokens totalTokens truncated
    = rev newestFirst ++ truncated.
Proof.
  induction newestFirst as [|m older IH];
    intros maxTokens totalTokens truncated Hnn Hfit Hmax; simpl.
  - reflexivity.
  - simpl in Hfit.
    pose proof (lenFields_nonneg (Content m)) as Hm.
    pose proof (sumTokens_nonneg older) as Ho.
    unfold max_int in Hmax.
    rewrite int_wrap_small by lia.
    rewrite gtb_false by lia.
    rewrite IH by (unfold max_int; lia). now rewrite <- app_assoc.
Qed.

Lemma truncateConversation_loop_whole_history (history : list Message) :
  sumTokens history <= maxTokens ->
  truncateConversation history maxTokens = history.
Proof.
  intros Hfit. unfold truncateConversation.
  rewrite truncateConversation_loop_whole.
  - now rewrite rev_involutive, app_nil_r.
  - lia.
  - rewrite sumTokens_rev. lia.
  - vm_compute. discriminate.
Qed.

(** X6: a history whose estimate is within the ceiling is returned
    whole. *)
Theorem truncateConversation_whole (history : list Message)
  (maxTokens : Z) :
  sumTokens history <= maxTokens ->
  maxTokens <= max_int ->
  truncateConversation history maxTokens = history.
Proof.
  intros Hfit Hmax. unfold truncateConversation.
  rewrite truncateConversation_loop_whole.
  - now rewrite rev_involutive, app_nil_r.
  - lia.
  - rewrite sumTokens_rev. lia.
  - exact Hmax.
Qed.

Lemma truncateConversation_whole_witness :
  sumTokens history_monad <= 14
  /\ 14 <= max_int
  /\ truncateConversation history_monad 14 = history_monad.
Proof.
  split; [vm_compute; discriminate|].
  split; [vm_compute; discriminate|].
  apply (truncateConversation_whole history_monad 14);
    vm_compute; discriminate.
Defined.

(** X7: [sendRequest] sends one request and changes neither the
    conversation nor standard input. For a history whose estimate fits
    an [int], the messages of the request are the message with the
    date and time followed by the messages of a suffix of the history,
    with their roles and contents, in order, whose estimate is at most
    [maxTokens]. *)
Theorem sendRequest_carries_suffix (env : Env) (w : World) :
  sumTokens (History (conversation w)) <= max_int ->
  exists dropped kept,
    History (conversation w) = dropped ++ kept
    /\ sumTokens kept <= maxTokens
    /\ trace (snd (sendRequest env w))
       = trace w
         ++ [HTTPRequest
               (mkAPIMessage "system"
                  ("Current date and time: "
                   +:+ time_Format env "RFC3339" (time_Now env (instant w)))
                :: map toAPIMessage kept)]
    /\ conversation (snd (sendRequest env w)) = conversation w
    /\ stdin (snd (sendRequest env w)) = stdin w.
Proof.
  intros Hfit.
  destruct (truncateConversation_loop_spec
              (rev (History (conversation w))) maxTokens 0 [])
    as (dropped & Heq & _ & Hsum).
  { reflexivity. }
  { rewrite sumTokens_rev. lia. }
  rewrite rev_involutive, app_nil_r in Heq.
  exists dropped, (truncateConversation (History (conversation w)) maxTokens).
  split; [exact Heq|].
  split; [apply Hsum; unfold maxTokens; lia|].
  unfold sendRequest, createRequestBody. run_M.
  repeat split; reflexivity.
Qed.

Lemma sendRequest_carries_suffix_witness :
  sumTokens (History (conversation (world_start []))) <= max_int
  /\ exists dropped kept,
      History (conversation (world_start [])) = dropped ++ kept
      /\ sumTokens kept <= maxTokens
      /\ trace (snd (sendRequest env_refusing (world_start [])))
         = trace (world_start [])
           ++ [HTTPRequest
                 (mkAPIMessage "system"
                    ("Current date and time: "
                     +:+ time_Format env_refusing "RFC3339"
                           (time_Now env_refusing
                              (instant (world_start []))))
                  :: map toAPIMessage kept)]
      /\ conversation (snd (sendRequest env_refusing (world_start [])))
         = conversation (world_start [])
      /\ stdin (snd (sendRequest env_refusing (world_start [])))
         = stdin (world_start []).
Proof.
  split; [vm_compute; discriminate|].
  apply (sendRequest_carries_suffix env_refusing (world_start [])).
  vm_compute. discriminate.
Defined.

(** X8: while the stored count is within the budget of the buffer and
    covers the estimate of the history, the request carries the whole
    history: the ceiling of the request is never what cuts it. *)
Theorem sendRequest_whole_within_budget (env : Env) (w : World) :
  sumTokens (History (conversation w)) <= tokenCount (conversation w) ->
  tokenCount (conversation w) <= maxConversationTokens ->
  trace (snd (sendRequest env w))
  = trace w
    ++ [HTTPRequest
          (mkAPIMessage "system"
             ("Current date and time: "
              +:+ time_Format env "RFC3339" (time_Now env (instant w)))
           :: map toAPIMessage (History (conversation w)))].
Proof.
  intros Hinv Hfit. unfold sendRequest, createRequestBody. run_M.
  unfold getHistory.
  rewrite truncateConversation_loop_whole_history; [reflexivity|].
  unfold maxConversationTokens in Hfit. unfold maxTokens. lia.
Qed.

Lemma sendRequest_whole_within_budget_witness :
  sumTokens (History (conversation (world_start [])))
  <= tokenCount (conversation (world_start []))
  /\ tokenCount (conversation (world_start [])) <= maxConversationTokens
  /\ trace (snd (sendRequest env_refusing (world_start [])))
     = trace (world_start [])
       ++ [HTTPRequest
             (mkAPIMessage "system"
                ("Current date and time: "
                 +:+ time_Format env_refusing "RFC3339"
                       (time_Now env_refusing (instant (world_start []))))
              :: map toAPIMessage (History (conversation (world_start []))))].
Proof.
  split; [vm_compute; discriminate|].
  split; [vm_compute; discriminate|].
  apply (sendRequest_whole_within_budget env_refusing (world_start []));
    vm_compute; discriminate.
Defined.

(** ** The dispatcher, in every environment *)

Lemma sleeps_app (xs ys : list Event) :
  sleeps (xs ++ ys) = (sleeps xs + sleeps ys)%nat.
Proof. unfold sleeps. now rewrite filter_app, length_app. Qed.

Lemma requests_cons (e : Event) (evs : list Event) :
  requests (e :: evs)
  = ((if isRequest e then 1 else 0) + requests evs)%nat.
Proof. destruct e; reflexivity. Qed.

Lemma sleeps_cons (e : Event) (evs : list Event) :
  sleeps (e :: evs) = ((if isSleep e then 1 else 0) + sleeps evs)%nat.
Proof. destruct e; reflexivity. Qed.

Ltac count_events :=
  rewrite ?requests_cons, ?sleeps_cons;
  cbn [isRequest isSleep]; change (requests []) with 0%nat;
  change (sleeps []) with 0%nat; try lia.

Lemma sleepsWithin_weaken (lo hi lo' hi' : Z) (evs : list Event) :
  lo' <= lo -> hi <= hi' ->
  sleepsWithin lo hi evs -> sleepsWithin lo' hi' evs.
Proof.
  intros Hlo Hhi H. unfold sleepsWithin in *.
  eapply Forall_impl; [exact H|].
  intros [| | |d| |]; auto. cbn. lia.
Qed.

Lemma pow2_succ (n : nat) : 2 ^ Z.of_nat (S n) = 2 * 2 ^ Z.of_nat n.
Proof. rewrite Nat2Z.inj_succ. apply Z.pow_succ_r. lia. Qed.

Lemma pow2_pos (n : nat) : 0 < 2 ^ Z.of_nat n.
Proof. apply Z.pow_pos_nonneg; lia. Qed.

(** What the loop does to the world from any of its iterations. *)
Lemma getAIResponseWithRetry_loop_bounds (env : Env) :
  forall remaining attempt backoff err w,
    attempt + Z.of_nat remaining = maxRetries ->
    0 < backoff ->
    backoff * 2 ^ Z.of_nat remaining <= 2 ^ 62 ->
    let w' :=
      snd (getAIResponseWithRetry_loop env remaining attempt backoff err w) in
    exists evs,
      trace w' = trace w ++ evs
      /\ conversation w' = conversation w
      /\ stdin w' = stdin w
      /\ (requests evs <= remaining)%nat
      /\ (sleeps evs <= remaining - 1)%nat
      /\ sleepsWithin backoff (backoff * 2 ^ Z.of_nat (remaining - 1)) evs.
Proof.
  induction remaining as [|remaining IH];
    intros attempt backoff err w Hn Hpos Hfit; cbv zeta.
  - exists []. cbn. rewrite app_nil_r.
    split; [reflexivity|]. split; [reflexivity|]. split; [reflexivity|].
    split; [lia|]. split; [lia|]. constructor.
  - cbn [getAIResponseWithRetry_loop]. run_M.
    destruct (select_wait env (instant w)).
    2: { exists []. cbn [fst snd trace conversation stdin].
         rewrite app_nil_r.
         split; [reflexivity|]. split; [reflexivity|]. split; [reflexivity|].
         split; [count_events|]. split; [count_events|]. constructor. }
    match goal with
    | |- context [getAIResponse env ?w1] =>
        destruct (getAIResponse_effect env w1) as (req & Htr & Hconv & Hin & _);
          destruct (getAIResponse env w1) as [[text oerr] w2]
    end.
    cbn [fst snd trace conversation stdin] in Htr, Hconv, Hin.
    destruct oerr as [e|].
    2: { exists [HTTPRequest req]. cbn [fst snd].
         split; [exact Htr|]. split; [exact Hconv|]. split; [exact Hin|].
         split; [count_events|]. split; [count_events|].
         constructor; [exact I|constructor]. }
    run_M.
    pose proof (pow2_pos remaining) as Hp.
    rewrite pow2_succ in Hfit.
    destruct (attempt <? maxRetries - 1) eqn:Hmore; run_M.
    + apply Z.ltb_lt in Hmore.
      destruct remaining as [|remaining]; [lia|].
      assert (Hj : 0 <= rand_Int63 env (instant w2) mod backoff < backoff)
        by (apply Z.mod_pos_bound; lia).
      pose proof (pow2_pos remaining) as Hp'.
      rewrite pow2_succ in Hfit, Hp.
      assert (Hb2 : int_wrap (backoff * backoffFactor) = 2 * backoff).
      { unfold backoffFactor. rewrite int_wrap_small; nia. }
      assert (Hd : int_wrap (backoff + rand_Int63 env (instant w2) mod backoff)
                   = backoff + rand_Int63 env (instant w2) mod backoff).
      { rewrite int_wrap_small; nia. }
      rewrite Hb2, Hd.
      match goal with
      | |- context [getAIResponseWithRetry_loop env (S remaining) ?a ?b ?c ?w0] =>
          destruct (IH a b c w0) as (evs & Htr' & Hc' & Hin' & Hreq & Hsl & Hwi);
            [lia | lia | rewrite pow2_succ; nia |]
      end.
      cbn [trace conversation stdin] in Htr', Hc', Hin'.
      eexists (_ :: _ :: _ :: _ :: evs).
      split.
      { rewrite Htr', Htr, <- !app_assoc. reflexivity. }
      split; [congruence|]. split; [congruence|].
      split; [count_events|].
      replace (S remaining - 1)%nat with remaining in Hsl, Hwi by lia.
      replace (S (S remaining) - 1)%nat with (S remaining) by lia.
      split; [count_events|].
      rewrite pow2_succ.
      repeat (constructor; [first [exact I | cbn; nia]|]).
      eapply sleepsWithin_weaken; [| |exact Hwi]; lia.
    + apply Z.ltb_ge in Hmore.
      destruct remaining as [|remaining]; [|lia].
      match goal with
      | |- context [getAIResponseWithRetry_loop env 0 ?a ?b ?c ?w0] =>
          destruct (IH a b c w0) as (evs & Htr' & Hc' & Hin' & Hreq & Hsl & Hwi);
            [lia | lia | cbn; lia |]
      end.
      cbn [trace conversation stdin] in Htr', Hc', Hin'.
      assert (evs = []) as -> by (destruct evs; [reflexivity|];
                                  cbn in Htr'; apply (f_equal length) in Htr';
                                  rewrite !length_app in Htr'; cbn in Htr'; lia).
      eexists [_; _].
      split.
      { rewrite Htr', Htr, app_nil_r, <- !app_assoc. reflexivity. }
      split; [congruence|]. split; [congruence|].
      split; [count_events|]. split; [count_events|].
      repeat (constructor; [exact I|]). constructor.
Qed.

(** X9: whatever the environment does, a call of
    [getAIResponseWithRetry] sends at most [maxRetries] requests and
    pauses at most twice, each time for at least [initialBackoff] and
    less than four times that; it changes neither the conversation nor
    standard input. *)
Theorem getAIResponseWithRetry_bounds (env : Env) (w : World) :
  exists evs,
    trace (snd (getAIResponseWithRetry env w)) = trace w ++ evs
    /\ conversation (snd (getAIResponseWithRetry env w)) = conversation w
    /\ stdin (snd (getAIResponseWithRetry env w)) = stdin w
    /\ (requests evs <= Z.to_nat maxRetries)%nat
    /\ (sleeps evs <= 2)%nat
    /\ sleepsWithin initialBackoff (4 * initialBackoff) evs.
Proof.
  unfold getAIResponseWithRetry.
  destruct (getAIResponseWithRetry_loop_bounds env (Z.to_nat maxRetries) 0
              initialBackoff None w)
    as (evs & Htr & Hc & Hin & Hreq & Hsl & Hwi);
    [reflexivity | reflexivity | vm_compute; discriminate |].
  exists evs. repeat split; auto.
Qed.

Lemma last_app_Some {A : Type} (xs ys : list A) (y : A) :
  last ys = Some y -> last (xs ++ ys) = Some y.
Proof.
  intros H. destruct ys as [|z ys]; [discriminate|].
  now rewrite last_app_cons.
Qed.

Lemma getAIResponseWithRetry_loop_success (env : Env) :
  forall remaining attempt backoff err w,
    snd (fst (getAIResponseWithRetry_loop env remaining attempt backoff err w))
    = None ->
    exists evs req,
      trace (snd (getAIResponseWithRetry_loop env remaining attempt backoff
                    err w))
      = trace w ++ evs
      /\ last evs = Some (HTTPRequest req).
Proof.
  induction remaining as [|remaining IH]; intros attempt backoff err w.
  - cbn. discriminate.
  - cbn [getAIResponseWithRetry_loop]. run_M.
    destruct (select_wait env (instant w)); [|cbn; discriminate].
    match goal with
    | |- context [getAIResponse env ?w1] =>
        destruct (getAIResponse_effect env w1) as (req & Htr & _);
          destruct (getAIResponse env w1) as [[text oerr] w2]
    end.
    cbn [fst snd trace] in Htr.
    destruct oerr as [e|].
    2: { intros _. exists [HTTPRequest req], req. cbn [fst snd]. auto. }
    run_M. destruct (attempt <? maxRetries - 1); run_M; intros Hok;
      match goal with
      | |- context [getAIResponseWithRetry_loop env remaining ?a ?b ?c ?w0] =>
          destruct (IH a b c w0 Hok) as (evs & req' & Htr' & Hlast)
      end;
      cbn [trace] in Htr'; rewrite Htr', Htr, <- !app_assoc;
      eexists _, req'; (split; [reflexivity|]);
      rewrite !app_assoc; apply last_app_Some; exact Hlast.
Qed.

(** X10: when [getAIResponseWithRetry] returns without error, the last
    thing it did is the request that succeeded: nothing is logged, no
    pause made and no request sent after it. *)
Theorem getAIResponseWithRetry_success_ends (env : Env) (w : World) :
  snd (fst (getAIResponseWithRetry env w)) = None ->
  exists evs req,
    trace (snd (getAIResponseWithRetry env w)) = trace w ++ evs
    /\ last evs = Some (HTTPRequest req).
Proof. apply getAIResponseWithRetry_loop_success. Qed.

Lemma getAIResponseWithRetry_success_ends_witness :
  getAIResponseWithRetry env_answering (world_start [])
  = (("Hi there", None),
     snd (getAIResponseWithRetry env_answering (world_start [])))
  /\ exists evs req,
      trace (snd (getAIResponseWithRetry env_answering (world_start [])))
      = trace (world_start []) ++ evs
      /\ last evs = Some (HTTPRequest req).
Proof.
  split; [vm_compute; reflexivity|].
  apply (getAIResponseWithRetry_success_ends env_answering (world_start [])).
  vm_compute. reflexivity.
Defined.

(** ** The stream decoder, line by line *)

(** Comparisons of natural numbers under Boolean connectives. *)
Ltac nat_bool :=
  repeat match goal with
         | |- context [(?a <=? ?b)%nat] => destruct (Nat.leb_spec a b)
         | |- context [(?a <? ?b)%nat] => destruct (Nat.ltb_spec a b)
         | |- context [(?a =? ?b)%nat] => destruct (Nat.eqb_spec a b)
         end;
  rewrite ?orb_true_r, ?orb_false_r; try reflexivity; try lia.

Lemma scan_from_line (line : string) :
  forall rest cur n clean seen srcEnd,
    isLine_from line n = true ->
    bufio.scan_from (line +:+ LF +:+ rest) cur n clean seen srcEnd
    = Token (bufio.dropCR (cur +:+ line))
        (if seen || (clean <=? String.length line)%nat then srcEnd else None)
        (bufio.scan_from rest "" 0 (clean - S (String.length line))
           (seen || (clean <=? String.length line)%nat) srcEnd).
Proof.
  induction line as [|c line IH];
    intros rest cur n clean seen srcEnd Hline.
  - rewrite append_empty_r. destruct clean; reflexivity.
  - cbn [isLine_from] in Hline.
    apply andb_prop in Hline. destruct Hline as [Hline Hrest].
    apply andb_prop in Hline. destruct Hline as [Hlf Hshort].
    apply negb_true_iff in Hlf. apply N.ltb_lt in Hshort.
    rewrite append_cons. cbn [bufio.scan_from]. rewrite Hlf.
    replace (bufio.MaxScanTokenSize <=? n + 1)%N with false
      by (symmetry; apply N.leb_gt; exact Hshort).
    rewrite andb_false_r, IH by exact Hrest.
    rewrite append_assoc, append_cons. cbn [String.length].
    replace (seen || (clean =? 0)%nat
             || (clean - 1 <=? String.length line)%nat)
      with (seen || (clean <=? S (String.length line))%nat)
      by (destruct seen; cbn [orb]; nat_bool).
    replace (clean - 1 - S (String.length line))%nat
      with (clean - S (S (String.length line)))%nat by lia.
    reflexivity.
Qed.

(** The bytes after the last line feed are a last line. *)
Lemma scan_from_last (line : string) :
  forall cur n clean seen srcEnd,
    isLine_from line n = true ->
    line <> "" \/ n <> 0%N ->
    bufio.scan_from line cur n clean seen srcEnd
    = Token (bufio.dropCR (cur +:+ line)) srcEnd (Stop srcEnd).
Proof.
  induction line as [|c line IH]; intros cur n clean seen srcEnd Hline Hsome.
  - destruct Hsome as [Hsome | Hsome]; [congruence|].
    cbn [bufio.scan_from]. apply N.eqb_neq in Hsome. rewrite Hsome.
    now rewrite append_empty_r.
  - cbn [isLine_from] in Hline.
    apply andb_prop in Hline. destruct Hline as [Hline Hrest].
    apply andb_prop in Hline. destruct Hline as [Hlf Hshort].
    apply negb_true_iff in Hlf. apply N.ltb_lt in Hshort.
    cbn [bufio.scan_from]. rewrite Hlf.
    replace (bufio.MaxScanTokenSize <=? n + 1)%N with false
      by (symmetry; apply N.leb_gt; exact Hshort).
    rewrite andb_false_r, IH by (try exact Hrest; right; lia).
    now rewrite append_assoc, append_cons.
Qed.

(** Once no byte is left before the end of the reader, the end is seen
    on the next byte. *)
Lemma scan_from_seen (s cur : string) (n : N) (clean : nat)
  (seen seen' : bool) (srcEnd : option error) :
  seen = seen' \/ clean = 0%nat ->
  bufio.scan_from s cur n clean seen srcEnd
  = bufio.scan_from s cur n clean seen' srcEnd.
Proof.
  intros [-> | ->]; [reflexivity|].
  destruct s as [|c s]; [reflexivity|].
  cbn [bufio.scan_from Nat.eqb]. now rewrite !orb_true_r.
Qed.

Lemma joinLines_cons (line : string) (ls : list string) (tail : string) :
  joinLines (line :: ls) +:+ tail = line +:+ LF +:+ (joinLines ls +:+ tail).
Proof. cbn [joinLines foldr]. now rewrite !append_assoc. Qed.

Lemma length_joinLines_cons (line : string) (ls : list string) :
  String.length (joinLines (line :: ls))
  = S (String.length line + String.length (joinLines ls)).
Proof.
  cbn [joinLines foldr]. fold (joinLines ls). rewrite !length_append.
  change (String.length LF) with 1%nat. lia.
Qed.

Lemma scan_from_joinLines (ls : list string) :
  forall tail clean seen srcEnd,
    Forall (fun line => isLine line = true) ls ->
    bufio.scan_from (joinLines ls +:+ tail) "" 0 clean seen srcEnd
    = tokensFrom ls clean seen srcEnd
        (fun c s => bufio.scan_from tail "" 0 c s srcEnd).
Proof.
  induction ls as [|line ls IH]; intros tail clean seen srcEnd Hls.
  - reflexivity.
  - inversion Hls as [|? ? Hline Hrest]; subst.
    rewrite joinLines_cons, scan_from_line by exact Hline.
    cbn [tokensFrom]. change ("" +:+ line) with line.
    now rewrite IH.
Qed.

(** The lines that come before the end of the reader is seen, and all
    lines of a reader that ends with [io.EOF], are read with no error
    seen. *)
Lemma tokensFrom_clean (ls : list string) :
  forall clean seen srcEnd next,
    srcEnd = None
    \/ seen = false /\ (String.length (joinLines ls) <= clean)%nat ->
    tokensFrom ls clean seen srcEnd next
    = tokensOf ls
        (next (clean - String.length (joinLines ls))%nat
           (seen || (clean <? String.length (joinLines ls))%nat)).
Proof.
  induction ls as [|line ls IH]; intros clean seen srcEnd next Hclean.
  - cbn [tokensFrom tokensOf foldr joinLines String.length].
    now rewrite Nat.sub_0_r, orb_false_r.
  - cbn [tokensFrom tokensOf foldr]. fold (tokensOf ls).
    rewrite length_joinLines_cons in *.
    rewrite IH.
    + replace (if seen || (clean <=? String.length line)%nat
               then srcEnd else None) with (@None error).
      2:{ destruct Hclean as [-> | [-> Hle]].
          - now destruct (seen || _).
          - cbn [orb]. destruct (Nat.leb_spec clean (String.length line));
              [lia|reflexivity]. }
      replace (clean - S (String.length line)
               - String.length (joinLines ls))%nat
        with (clean - S (String.length line
                         + String.length (joinLines ls)))%nat by lia.
      replace (seen || (clean <=? String.length line)%nat
               || (clean - S (String.length line)
                   <? String.length (joinLines ls))%nat)
        with (seen
              || (clean <? S (String.length line
                              + String.length (joinLines ls)))%nat)
        by (destruct seen; cbn [orb]; nat_bool).
      reflexivity.
    + destruct Hclean as [-> | [-> Hle]]; [left; reflexivity|right].
      split; [|lia]. cbn [orb].
      destruct (Nat.leb_spec clean (String.length line)); [lia|reflexivity].
Qed.

(** What the loop does with lines depends on what follows them only
    through what the loop does with that. *)
Lemma processStreamResponse_loop_tokensOf (ls : list string)
  (next next' : Scanned) :
  (forall buffer lastError,
      processStreamResponse_loop next buffer lastError
      = processStreamResponse_loop next' buffer lastError) ->
  forall buffer lastError,
    processStreamResponse_loop (tokensOf ls next) buffer lastError
    = processStreamResponse_loop (tokensOf ls next') buffer lastError.
Proof.
  intros Hnext.
  induction ls as [|line ls IH]; intros buffer lastError.
  - apply Hnext.
  - cbn [tokensOf foldr]. fold (tokensOf ls).
    cbn [processStreamResponse_loop].
    destruct (negb (strings.HasPrefix (bufio.dropCR line) "data: "));
      [apply IH|].
    destruct (String.eqb _ "[DONE]"); [reflexivity|].
    destruct (json.Unmarshal_map _); [|apply IH].
    destruct (negb (String.eqb _ "")); apply IH.
Qed.

Lemma dropCR_spec (line : string) :
  line = bufio.dropCR line \/ line = bufio.dropCR line +:+ CR.
Proof.
  induction line as [|c line IH]; [left; reflexivity|].
  cbn [bufio.dropCR]. destruct line as [|d line].
  - destruct (strings.byte c =? 13)%N eqn:Hc; [|left; reflexivity].
    right. apply N.eqb_eq in Hc. unfold strings.byte in Hc.
    rewrite <- (ascii_N_embedding c), Hc. reflexivity.
  - destruct IH as [IH | IH]; [left | right];
      rewrite ?append_cons; congruence.
Qed.

Lemma prefix_app (p s t : string) :
  String.prefix p s = true -> String.prefix p (s +:+ t) = true.
Proof.
  revert s. induction p as [|a p IH]; intros s H.
  - now destruct (s +:+ t).
  - destruct s as [|b s]; [discriminate|].
    rewrite append_cons. simpl in *.
    destruct (ascii_dec a b); [auto|discriminate].
Qed.

Lemma isData_dropCR (line : string) :
  isData line = false -> isData (bufio.dropCR line) = false.
Proof.
  intros H. destruct (isData (bufio.dropCR line)) eqn:Hd; [|reflexivity].
  destruct (dropCR_spec line) as [E | E]; rewrite E in H.
  - congruence.
  - unfold isData, strings.HasPrefix in *.
    rewrite (prefix_app _ _ _ Hd) in H. discriminate.
Qed.

(** A line the loop passes over can be taken out of the stream, where
    the reader ends with [io.EOF] or brings its error after the line. *)
Lemma processStreamResponse_without_line (ls : list string)
  (line rest : string) (err : option error) (k : nat) :
  Forall (fun l => isLine l = true) ls ->
  isLine line = true ->
  (forall errNow next buffer lastError,
      processStreamResponse_loop (Token (bufio.dropCR line) errNow next)
        buffer lastError
      = processStreamResponse_loop next buffer lastError) ->
  bufio.Err err = None \/ (k <= String.length rest)%nat ->
  processStreamResponse
    (mkReader (joinLines ls +:+ line +:+ LF +:+ rest) err k)
  = processStreamResponse (mkReader (joinLines ls +:+ rest) err k).
Proof.
  intros Hls Hline Hskip Hend.
  unfold processStreamResponse, bufio.scan.
  cbn [content readErr bundled].
  rewrite !scan_from_joinLines by exact Hls.
  rewrite !length_append. change (String.length LF) with 1%nat.
  rewrite !tokensFrom_clean
    by (destruct Hend as [-> | Hend]; [left; reflexivity|right; split;
                                                          [reflexivity|lia]]).
  rewrite scan_from_line by exact Hline.
  rewrite (processStreamResponse_loop_tokensOf ls _
             (bufio.scan_from rest "" 0
                (String.length (joinLines ls) + String.length rest - k
                 - String.length (joinLines ls))
                (false
                 || (String.length (joinLines ls) + String.length rest
                     - k <? String.length (joinLines ls))%nat)
                (bufio.Err err))); [reflexivity|].
  intros buffer lastError. rewrite Hskip. f_equal.
  match goal with
  | |- bufio.scan_from _ _ _ ?c ?s _ = bufio.scan_from _ _ _ ?c' ?s' _ =>
      replace c with c' by lia;
      apply scan_from_seen;
      destruct (Nat.eq_dec c' 0%nat) as [Hz | Hz]; [right; exact Hz|left]
  end.
  cbn [orb]. nat_bool.
Qed.

(** The same for a last line that no line feed closes. *)
Lemma processStreamResponse_without_last_line (ls : list string)
  (line : string) (err : option error) (k : nat) :
  Forall (fun l => isLine l = true) ls ->
  isLine line = true ->
  (forall errNow next buffer lastError,
      processStreamResponse_loop (Token (bufio.dropCR line) errNow next)
        buffer lastError
      = processStreamResponse_loop next buffer lastError) ->
  bufio.Err err = None \/ k = 0%nat ->
  processStreamResponse (mkReader (joinLines ls +:+ line) err k)
  = processStreamResponse (mkReader (joinLines ls) err k).
Proof.
  intros Hls Hline Hskip Hend.
  destruct line as [|c line]; [now rewrite append_empty_r|].
  unfold processStreamResponse, bufio.scan.
  cbn [content readErr bundled].
  rewrite <- (append_empty_r (joinLines ls)) at 3 4.
  rewrite !scan_from_joinLines by exact Hls.
  rewrite !length_append.
  rewrite !tokensFrom_clean
    by (destruct Hend as [-> | ->]; [left; reflexivity|right; split;
                                                        [reflexivity|lia]]).
  rewrite scan_from_last by (try exact Hline; left; discriminate).
  rewrite (processStreamResponse_loop_tokensOf ls _
             (Stop (bufio.Err err))); [reflexivity|].
  intros buffer lastError. now rewrite Hskip.
Qed.

(** X11: a line without the marker of data, a comment or a keep-alive,
    changes nothing wherever it stands in the stream: after any lines
    [ls], the stream decodes as the stream without it. This holds of a
    reader that ends with [io.EOF] and of a reader that brings its
    error after the line; the last line need not be closed by a line
    feed. *)
Theorem processStreamResponse_skips_other_lines (ls : list string)
  (line : string) (err : option error) (k : nat) :
  Forall (fun l => isLine l = true) ls ->
  isLine line = true ->
  isData line = false ->
  (forall rest,
      bufio.Err err = None \/ (k <= String.length rest)%nat ->
      processStreamResponse
        (mkReader (joinLines ls +:+ line +:+ LF +:+ rest) err k)
      = processStreamResponse
          (mkReader (joinLines ls +:+ rest) err k))
  /\ (bufio.Err err = None \/ k = 0%nat ->
      processStreamResponse (mkReader (joinLines ls +:+ line) err k)
      = processStreamResponse (mkReader (joinLines ls) err k)).
Proof.
  intros Hls Hline Hdata. apply isData_dropCR in Hdata.
  assert (Hskip : forall errNow next buffer lastError,
             processStreamResponse_loop
               (Token (bufio.dropCR line) errNow next) buffer lastError
             = processStreamResponse_loop next buffer lastError).
  { intros errNow next buffer lastError. cbn [processStreamResponse_loop].
    unfold isData in Hdata. now rewrite Hdata. }
  split.
  - intros rest Hend. now apply processStreamResponse_without_line.
  - intros Hend. now apply processStreamResponse_without_last_line.
Qed.

Lemma processStreamResponse_skips_other_lines_witness :
  processStreamResponse
    (mkReader
       (joinLines [dq "data: {'choices':[{'delta':{'content':'Hi'}}]}"]
        +:+ ": keep-alive" +:+ LF +:+ "data: [DONE]" +:+ LF)
       (Some (errorString "connection reset")) 5)
  = processStreamResponse
      (mkReader
         (joinLines [dq "data: {'choices':[{'delta':{'content':'Hi'}}]}"]
          +:+ "data: [DONE]" +:+ LF)
         (Some (errorString "connection reset")) 5)
  /\ processStreamResponse
       (mkReader
          (joinLines [dq "data: {'choices':[{'delta':{'content':'Hi'}}]}"]
           +:+ ": keep-alive")
          None 3)
     = processStreamResponse
         (mkReader
            (joinLines [dq "data: {'choices':[{'delta':{'content':'Hi'}}]}"])
            None 3).
Proof.
  split.
  - apply (proj1
             (processStreamResponse_skips_other_lines
                [dq "data: {'choices':[{'delta':{'content':'Hi'}}]}"]
                ": keep-alive" (Some (errorString "connection reset")) 5
                ltac:(repeat constructor) eq_refl eq_refl)
             ("data: [DONE]" +:+ LF)).
    right. vm_compute. lia.
  - apply (proj2
             (processStreamResponse_skips_other_lines
                [dq "data: {'choices':[{'delta':{'content':'Hi'}}]}"]
                ": keep-alive" None 3
                ltac:(repeat constructor) eq_refl eq_refl)).
    left. reflexivity.
Defined.

Lemma processStreamResponse_loop_done_is_end (ls : list string) :
  forall errNow after buffer lastError,
    processStreamResponse_loop
      (tokensOf ls (Token "data: [DONE]" errNow after)) buffer lastError
    = processStreamResponse_loop (tokensOf ls (Stop errNow)) buffer lastError.
Proof.
  intros errNow after. apply processStreamResponse_loop_tokensOf.
  reflexivity.
Qed.

Lemma errRead_tokensFrom (ls : list string) :
  forall clean seen srcEnd next,
    Forall (fun l => isDone (bufio.dropCR l) = false) ls ->
    errRead (tokensFrom ls clean seen srcEnd next)
    = errRead
        (next (clean - String.length (joinLines ls))%nat
           (seen || (clean <? String.length (joinLines ls))%nat)).
Proof.
  induction ls as [|line ls IH]; intros clean seen srcEnd next Hls.
  - cbn [tokensFrom joinLines foldr String.length].
    now rewrite Nat.sub_0_r, orb_false_r.
  - inversion Hls as [|? ? Hline Hrest]; subst.
    cbn [tokensFrom errRead]. rewrite Hline, IH by exact Hrest.
    rewrite length_joinLines_cons.
    replace (clean - S (String.length line)
             - String.length (joinLines ls))%nat
      with (clean - S (String.length line
                       + String.length (joinLines ls)))%nat by lia.
    replace (seen || (clean <=? String.length line)%nat
             || (clean - S (String.length line)
                 <? String.length (joinLines ls))%nat)
      with (seen
            || (clean <? S (String.length line
                            + String.length (joinLines ls)))%nat)
      by (destruct seen; cbn [orb]; nat_bool).
    reflexivity.
Qed.

(** X12: the sentinel ends the stream as a clean end of input does.
    Whatever lines follow [data: [DONE]], and whatever error the reader
    reports after the sentinel line, the result is that of the lines
    before it followed by a clean end of input. The one thing behind
    the sentinel that counts is an error of the transport that the
    reader returns together with the bytes of the sentinel line: the
    scanner has seen it when the loop stops, and the stream fails with
    [failed to read stream]. *)
Theorem processStreamResponse_done_is_end (ls : list string)
  (after : string) (err : option error) (k : nat) :
  Forall (fun line => isLine line = true) ls ->
  (bufio.Err err = None \/ (k <= String.length after)%nat ->
   processStreamResponse
     (mkReader (joinLines ls +:+ "data: [DONE]" +:+ LF +:+ after)
        err k)
   = processStreamResponse (mkReader (joinLines ls) None 0))
  /\ (forall e,
         bufio.Err err = Some e ->
         (String.length after < k)%nat ->
         Forall (fun line => isDone (bufio.dropCR line) = false) ls ->
         processStreamResponse
           (mkReader (joinLines ls +:+ "data: [DONE]" +:+ LF +:+ after)
              err k)
         = ("", Some (wrapError
                        ("failed to read stream: " +:+ errors.Error e) e))).
Proof.
  intros Hls. split.
  - intros Hend.
    unfold processStreamResponse, bufio.scan.
    cbn [content readErr bundled].
    rewrite <- (append_empty_r (joinLines ls)) at 3 4.
    rewrite !scan_from_joinLines by exact Hls.
    rewrite !length_append. change (String.length LF) with 1%nat.
    change (String.length "data: [DONE]") with 12%nat.
    rewrite (tokensFrom_clean ls _ _ (bufio.Err err))
      by (destruct Hend as [-> | Hend]; [left; reflexivity|right; split;
                                                            [reflexivity|lia]]).
    rewrite (tokensFrom_clean ls _ _ None) by (left; reflexivity).
    rewrite (scan_from_line "data: [DONE]") by reflexivity.
    change (bufio.dropCR ("" +:+ "data: [DONE]")) with "data: [DONE]".
    rewrite processStreamResponse_loop_done_is_end.
    cbn [bufio.scan_from N.eqb bufio.Err].
    replace (if _ : bool then bufio.Err err else None) with (@None error);
      [reflexivity|].
    destruct Hend as [-> | Hend]; [now destruct (_ || _)|].
    change (String.length "data: [DONE]") with 12%nat.
    cbn [orb]. nat_bool.
  - intros e He Hlate Hnone.
    rewrite processStreamResponse_decoded. unfold decoded, bufio.scan.
    cbn [content readErr bundled].
    rewrite scan_from_joinLines by exact Hls.
    rewrite errRead_tokensFrom by exact Hnone.
    rewrite (scan_from_line "data: [DONE]") by reflexivity.
    change (bufio.dropCR ("" +:+ "data: [DONE]")) with "data: [DONE]".
    cbn [errRead]. change (isDone "data: [DONE]") with true. cbn iota.
    rewrite !length_append. change (String.length LF) with 1%nat.
    change (String.length "data: [DONE]") with 12%nat.
    replace (false || _ || _) with true by (cbn [orb]; nat_bool).
    now rewrite He.
Qed.

Lemma processStreamResponse_done_is_end_witness :
  processStreamResponse
    (mkReader
       (joinLines [dq "data: {'choices':[{'delta':{'content':'Hi'}}]}"]
        +:+ "data: [DONE]" +:+ LF +:+ "data: {bad")
       (Some (errorString "connection reset")) 3)
  = processStreamResponse
      (mkReader
         (joinLines [dq "data: {'choices':[{'delta':{'content':'Hi'}}]}"])
         None 0)
  /\ processStreamResponse
       (mkReader
          (joinLines [dq "data: {'choices':[{'delta':{'content':'Hi'}}]}"]
           +:+ "data: [DONE]" +:+ LF +:+ "")
          (Some (errorString "connection reset")) 13)
     = ("", Some (wrapError
                    ("failed to read stream: "
                     +:+ errors.Error (errorString "connection reset"))
                    (errorString "connection reset"))).
Proof.
  split.
  - apply (proj1
             (processStreamResponse_done_is_end
                [dq "data: {'choices':[{'delta':{'content':'Hi'}}]}"]
                "data: {bad" (Some (errorString "connection reset")) 3
                ltac:(repeat constructor))).
    right. vm_compute. lia.
  - apply (proj2
             (processStreamResponse_done_is_end
                [dq "data: {'choices':[{'delta':{'content':'Hi'}}]}"]
                "" (Some (errorString "connection reset")) 13
                ltac:(repeat constructor))).
    + reflexivity.
    + vm_compute. lia.
    + repeat constructor.
Defined.

Lemma errRead_scan_from (s : string) :
  forall cur n clean seen srcEnd,
    reachesDone (bufio.scan_from s cur n clean seen srcEnd) = false ->
    errRead (bufio.scan_from s cur n clean seen srcEnd) = srcEnd
    \/ errRead (bufio.scan_from s cur n clean seen srcEnd)
       = Some bufio_ErrTooLong.
Proof.
  induction s as [|c s IH]; intros cur n clean seen srcEnd;
    cbn [bufio.scan_from].
  - destruct (n =? 0)%N; cbn [reachesDone errRead]; [auto|].
    destruct (isDone (bufio.dropCR cur)); [discriminate|auto].
  - destruct (strings.byte c =? 10)%N.
    + cbn [reachesDone errRead].
      destruct (isDone (bufio.dropCR cur)); [discriminate|]. apply IH.
    + destruct (negb _ && _); [auto|apply IH].
Qed.

(** X13: a stream that the transport cuts before the sentinel never
    yields text, whatever was decoded before the cut: the result is
    the error [failed to read stream: ...] around the error of the
    transport, or around [ErrTooLong] when a line did not fit the
    buffer of the scanner. *)
Theorem processStreamResponse_cut_stream (body : Reader) (e : error) :
  readErr body = Some e ->
  e <> io_EOF ->
  reachesDone (bufio.scan body) = false ->
  exists e',
    (e' = e \/ e' = bufio_ErrTooLong)
    /\ processStreamResponse body
       = ("", Some (wrapError ("failed to read stream: " +:+ errors.Error e')
                      e')).
Proof.
  intros Hread Hne Hdone.
  rewrite processStreamResponse_decoded. unfold decoded.
  unfold bufio.scan in *. rewrite Hread in *.
  assert (HErr : bufio.Err (Some e) = Some e) by (destruct e; try reflexivity; congruence).
  rewrite HErr in *.
  destruct (errRead_scan_from _ _ _ _ _ _ Hdone) as [-> | ->].
  - exists e. auto.
  - exists bufio_ErrTooLong. auto.
Qed.

Lemma processStreamResponse_cut_stream_witness :
  readErr stream_cut = Some (errorString "unexpected EOF")
  /\ errorString "unexpected EOF" <> io_EOF
  /\ reachesDone (bufio.scan stream_cut) = false
  /\ exists e',
      (e' = errorString "unexpected EOF" \/ e' = bufio_ErrTooLong)
      /\ processStreamResponse stream_cut
         = ("", Some (wrapError
                        ("failed to read stream: " +:+ errors.Error e') e')).
Proof.
  split; [reflexivity|].
  split; [discriminate|].
  split; [vm_compute; reflexivity|].
  apply (processStreamResponse_cut_stream stream_cut
           (errorString "unexpected EOF")).
  - reflexivity.
  - discriminate.
  - vm_compute. reflexivity.
Defined.

(** ** The turns of the session *)

Lemma allSpace_TrimLeft (s : string) :
  forall skip,
    strings.allSpace_from s skip = true ->
    strings.TrimLeft_from s skip = "".
Proof.
  induction s as [|c s IH]; intros skip; [reflexivity|].
  cbn [strings.allSpace_from strings.TrimLeft_from].
  destruct skip as [|k]; [|apply IH].
  destruct (strings.spaceWidth (String c s)); [discriminate|apply IH].
Qed.

(** X14: a line of white space only, the empty line among them, is no
    turn: after the prompt nothing is printed, sent or appended, and
    the session goes on. *)
Theorem processChatInput_blank_line (env : Env) (w : World) (line : string)
  (e : option error) (next : Scanned) :
  stdin w = Token line e next ->
  strings.allSpace_from line 0 = true ->
  processChatInput env w
  = (None,
     mkWorld (instant w) (trace w ++ [Print Prompt]) next (conversation w)).
Proof.
  intros Hin Hblank. rewrite processChatInput_dispatch. cbv zeta.
  unfold getUserInput, Scan_stdin. run_M. rewrite Hin. run_M.
  unfold strings.TrimSpace. rewrite allSpace_TrimLeft by exact Hblank.
  reflexivity.
Qed.

Lemma processChatInput_blank_line_witness :
  stdin (world_start ["   "; "exit"]) = Token "   " None (typed ["exit"])
  /\ strings.allSpace_from "   " 0 = true
  /\ processChatInput env_refusing (world_start ["   "; "exit"])
     = (None,
        mkWorld (instant (world_start ["   "; "exit"]))
          (trace (world_start ["   "; "exit"]) ++ [Print Prompt])
          (typed ["exit"]) (conversation (world_start ["   "; "exit"]))).
Proof.
  split; [reflexivity|]. split; [reflexivity|].
  apply (processChatInput_blank_line env_refusing
           (world_start ["   "; "exit"]) "   " None (typed ["exit"]));
    reflexivity.
Defined.

Lemma getAIResponseWithRetry_keeps (env : Env) (w : World) :
  conversation (snd (getAIResponseWithRetry env w)) = conversation w
  /\ stdin (snd (getAIResponseWithRetry env w)) = stdin w.
Proof.
  unfold getAIResponseWithRetry.
  destruct (getAIResponseWithRetry_loop_bounds env (Z.to_nat maxRetries) 0
              initialBackoff None w)
    as (evs & _ & Hc & Hin & _);
    [reflexivity | reflexivity | vm_compute; discriminate |].
  auto.
Qed.

(** X15: a chat turn. The input is appended as a [user] message before
    the dispatcher runs, on the conversation so extended; when the
    dispatcher fails the conversation stays so, the user message not
    taken back; when it succeeds its text is appended as an
    [assistant] message. In both cases the turn returns [nil]. *)
Theorem processChatInput_chat_turn (env : Env) (w : World) (line : string)
  (e : option error) (next : Scanned) :
  stdin w = Token line e next ->
  String.eqb (strings.TrimSpace line) "" = false ->
  strings.EqualFold (strings.TrimSpace line) exitCommand = false ->
  strings.HasPrefix (strings.TrimSpace line) "/save" = false ->
  strings.HasPrefix (strings.TrimSpace line) "/load" = false ->
  let c1 :=
    addMessage (conversation w) "user" (strings.TrimSpace line)
      (time_Now env (instant w)) in
  let r :=
    getAIResponseWithRetry env
      (mkWorld (S (instant w)) (trace w ++ [Print Prompt]) next c1) in
  fst (processChatInput env w) = None
  /\ conversation (snd (processChatInput env w))
     = match snd (fst r) with
       | Some _ => c1
       | None =>
           addMessage c1 "assistant" (fst (fst r))
             (time_Now env (instant (snd r)))
       end
  /\ stdin (snd (processChatInput env w)) = next.
Proof.
  intros Hin Hne Hexit Hsave Hload. cbv zeta.
  rewrite processChatInput_dispatch. cbv zeta.
  unfold getUserInput, Scan_stdin. run_M. rewrite Hin. run_M.
  rewrite Hne, Hexit, Hsave, Hload. run_M.
  match goal with
  | |- context [getAIResponseWithRetry env ?w2] =>
      destruct (getAIResponseWithRetry_keeps env w2) as [Hc Hs];
        destruct (getAIResponseWithRetry env w2) as [[text oerr] w3]
  end.
  cbn [fst snd conversation stdin] in Hc, Hs |- *.
  destruct oerr as [err|]; unfold printStreamingResponse; run_M.
  - auto.
  - rewrite Hc. auto.
Qed.

Lemma processChatInput_chat_turn_witness :
  let w := world_start ["what is a monad"] in
  let c1 := addMessage (conversation w) "user" "what is a monad" 0 in
  fst (processChatInput env_refusing w) = None
  /\ conversation (snd (processChatInput env_refusing w)) = c1
  /\ fst (processChatInput env_answering w) = None
  /\ conversation (snd (processChatInput env_answering w))
     = addMessage c1 "assistant" "Hi there" 4.
Proof.
  cbv zeta.
  pose proof (processChatInput_chat_turn env_refusing
                (world_start ["what is a monad"]) "what is a monad" None
                (Stop None) eq_refl eq_refl eq_refl eq_refl eq_refl) as Hr.
  pose proof (processChatInput_chat_turn env_answering
                (world_start ["what is a monad"]) "what is a monad" None
                (Stop None) eq_refl eq_refl eq_refl eq_refl eq_refl) as Ha.
  cbv zeta in Hr, Ha.
  destruct Hr as (Hr1 & Hr2 & _). destruct Ha as (Ha1 & Ha2 & _).
  split; [exact Hr1|]. split; [rewrite Hr2; vm_compute; reflexivity|].
  split; [exact Ha1|]. rewrite Ha2. vm_compute. reflexivity.
Defined.

Lemma handleLoadCommand_returns_nil (env : Env) (userInput : string)
  (w : World) :
  fst (handleLoadCommand env userInput w) = None.
Proof.
  unfold handleLoadCommand.
  destruct (strings.SplitN_space_2 userInput) as [|a [|filename [|x l]]];
    try reflexivity.
  unfold loadConversation, printConversationSummary. run_M.
  destruct (os_ReadFile env (instant w) filename); run_M; [|reflexivity].
  destruct (json.Unmarshal_Messages _); reflexivity.
Qed.

(** What a turn returns: [io.EOF] for the exit command, [nil]
    otherwise. *)
Lemma processChatInput_result (env : Env) (w : World) :
  fst (processChatInput env w)
  = if strings.EqualFold (fst (getUserInput w)) exitCommand
    then Some io_EOF else None.
Proof.
  rewrite processChatInput_dispatch. cbv zeta.
  destruct (getUserInput w) as [userInput w1]. cbn [fst snd].
  destruct (String.eqb userInput "") eqn:Hempty.
  { apply String.eqb_eq in Hempty. subst. reflexivity. }
  destruct (strings.EqualFold userInput exitCommand); [reflexivity|].
  destruct (strings.HasPrefix userInput "/save").
  { apply handleSaveCommand_effect. }
  destruct (strings.HasPrefix userInput "/load").
  { apply handleLoadCommand_returns_nil. }
  run_M.
  destruct (getAIResponseWithRetry env _) as [[text oerr] w3].
  destruct oerr; reflexivity.
Qed.

(** X16: a turn never returns an error of the transport, of the API,
    of the decoder or of the file system. It returns [io.EOF] when the
    input is [exit] in any letter case, or standard input has ended,
    and [nil] in every other case. *)
Theorem processChatInput_returns_nil_or_EOF (env : Env) (w : World) :
  fst (processChatInput env w)
  = match stdin w with
    | Stop _ => Some io_EOF
    | Token line _ _ =>
        if strings.EqualFold (strings.TrimSpace line) exitCommand
        then Some io_EOF else None
    end.
Proof.
  rewrite processChatInput_result.
  unfold getUserInput, Scan_stdin. run_M.
  destruct (stdin w) as [line errNow next | errNow]; reflexivity.
Qed.

(** X17: the loop of the session returns within one iteration more
    than there are lines on standard input, and what it returns is
    [nil] or the error of its context: no failure of a turn reaches
    the caller. *)
Theorem processChatInputLoop_result (env : Env) :
  forall fuel w,
    (pending (stdin w) < fuel)%nat ->
    fst (processChatInputLoop env fuel w) = Some None
    \/ exists ctxErr n,
        ctx_Err env n = Some ctxErr
        /\ fst (processChatInputLoop env fuel w) = Some (Some ctxErr).
Proof.
  induction fuel as [|fuel IH]; intros w Hfuel; [lia|].
  cbn [processChatInputLoop]. run_M.
  destruct (ctx_Err env (instant w)) as [ctxErr|] eqn:Hctx.
  { right. exists ctxErr, (instant w). auto. }
  match goal with
  | |- context [processChatInput env ?w1] =>
      pose proof (processChatInput_reads env w1) as Hread;
        pose proof (processChatInput_result env w1) as Hres;
        destruct (processChatInput env w1) as [r w2]
  end.
  cbn [fst snd stdin] in Hread, Hres.
  destruct r as [err|].
  - destruct (strings.EqualFold _ exitCommand); [|discriminate].
    injection Hres as ->. left. reflexivity.
  - destruct (stdin w) as [line errNow next | errNow]; [|discriminate].
    apply IH. rewrite Hread. simpl in Hfuel. lia.
Qed.

Lemma processChatInputLoop_result_witness :
  (pending (stdin (world_start ["what is a monad"; "/save"; "exit"])) < 4)%nat
  /\ (fst (processChatInputLoop env_answering 4
             (world_start ["what is a monad"; "/save"; "exit"]))
      = Some None
      \/ exists ctxErr n,
          ctx_Err env_answering n = Some ctxErr
          /\ fst (processChatInputLoop env_answering 4
                    (world_start ["what is a monad"; "/save"; "exit"]))
             = Some (Some ctxErr)).
Proof.
  split; [vm_compute; lia|].
  apply (processChatInputLoop_result env_answering 4
           (world_start ["what is a monad"; "/save"; "exit"])).
  vm_compute. lia.
Defined.

(** ** Loading and its summary *)

Lemma cut_space_noSpace (s : string) :
  noSpace s = true -> strings.cut_space s = None.
Proof.
  induction s as [|c s IH]; [reflexivity|].
  cbn [noSpace strings.cut_space]. intros H.
  apply andb_prop in H. destruct H as [Hc Hs].
  apply negb_true_iff in Hc. now rewrite Hc, IH.
Qed.

Lemma cut_space_first (cmd rest : string) :
  noSpace cmd = true ->
  strings.cut_space (cmd +:+ " " +:+ rest) = Some (cmd, rest).
Proof.
  induction cmd as [|c cmd IH]; [reflexivity|].
  cbn [noSpace]. intros H.
  apply andb_prop in H. destruct H as [Hc Hs].
  apply negb_true_iff in Hc.
  rewrite append_cons. cbn [strings.cut_space]. now rewrite Hc, IH.
Qed.

(** X18: a load command with no space in it names no file: the usage
    is printed, no file is read and nothing else changes. *)
Theorem handleLoadCommand_without_name (env : Env) (userInput : string)
  (w : World) :
  noSpace userInput = true ->
  handleLoadCommand env userInput w
  = (None,
     mkWorld (instant w) (trace w ++ [Print Usage]) (stdin w)
       (conversation w)).
Proof.
  intros H. unfold handleLoadCommand, strings.SplitN_space_2.
  now rewrite cut_space_noSpace.
Qed.

Lemma handleLoadCommand_without_name_witness :
  noSpace "/load" = true
  /\ handleLoadCommand env_monad "/load" (world_start [])
     = (None,
        mkWorld (instant (world_start []))
          (trace (world_start []) ++ [Print Usage]) (stdin (world_start []))
          (conversation (world_start []))).
Proof.
  split; [reflexivity|].
  apply (handleLoadCommand_without_name env_monad "/load" (world_start [])).
  reflexivity.
Defined.

(** X19: a load command of a file that is read and decodes. The name
    of the file is all that follows the first space of the input. The
    conversation becomes the messages of the file, all of them, and
    its count their sum, whatever the conversation was before; a
    summary is printed with the number of messages and that count. *)
Theorem handleLoadCommand_replaces (env : Env) (cmd filename data : string)
  (history : list Message) (w : World) :
  noSpace cmd = true ->
  os_ReadFile env (instant w) filename = inl data ->
  json.Unmarshal_Messages data = inl history ->
  sumTokens history <= max_int ->
  exists shown,
    handleLoadCommand env (cmd +:+ " " +:+ filename) w
    = (None,
       mkWorld (S (instant w))
         (trace w
          ++ [Print (Summary (length history) (sumTokens history) shown)])
         (stdin w)
         {| History := history; tokenCount := sumTokens history |}).
Proof.
  intros Hcmd Hread Hdec Hfit.
  unfold handleLoadCommand, strings.SplitN_space_2.
  rewrite cut_space_first by exact Hcmd.
  unfold loadConversation, printConversationSummary. run_M.
  rewrite Hread, Hdec. run_M.
  unfold replaceWith, countTokens. cbn [History tokenCount].
  rewrite countTokens_from by lia. rewrite Z.add_0_l.
  eexists. reflexivity.
Qed.

Lemma handleLoadCommand_replaces_witness :
  noSpace "/load" = true
  /\ sumTokens history_monad <= max_int
  /\ exists shown,
      handleLoadCommand env_monad ("/load" +:+ " " +:+ "my chat.json")
        (world_start [])
      = (None,
         mkWorld (S (instant (world_start [])))
           (trace (world_start [])
            ++ [Print (Summary (length history_monad)
                         (sumTokens history_monad) shown)])
           (stdin (world_start []))
           {| History :=
                map (fun m => mkMessage (Role m) (Content m) json.zeroTime)
                  history_monad;
              tokenCount := sumTokens history_monad |}).
Proof.
  split; [reflexivity|].
  split; [vm_compute; discriminate|].
  destruct (handleLoadCommand_replaces env_monad "/load" "my chat.json"
              (dq ("[{'role':'system','content':'You are helpful'},"
                   +:+ "{'role':'user','content':'what is a monad'},"
                   +:+ "{'role':'assistant','content':"
                   +:+ "'a monoid in the category of endofunctors'}]"))
              (map (fun m => mkMessage (Role m) (Content m) json.zeroTime)
                 history_monad)
              (world_start []))
    as (shown & Heq).
  - reflexivity.
  - reflexivity.
  - vm_compute. reflexivity.
  - vm_compute. discriminate.
  - exists shown. rewrite Heq. vm_compute. reflexivity.
Defined.

(** X20: a load that fails, because the file cannot be read or does
    not decode, leaves the conversation as it was, reports the error
    wrapped with its cause and lets the session go on. *)
Theorem handleLoadCommand_failure (env : Env) (cmd filename : string)
  (w : World) :
  noSpace cmd = true ->
  (forall data,
      os_ReadFile env (instant w) filename = inl data ->
      exists err, json.Unmarshal_Messages data = inr err) ->
  exists err cause,
    handleLoadCommand env (cmd +:+ " " +:+ filename) w
    = (None,
       mkWorld (S (instant w)) (trace w ++ [Print (LoadFailed err)])
         (stdin w) (conversation w))
    /\ errors.Unwrap err = Some cause
    /\ (os_ReadFile env (instant w) filename = inr cause
        \/ exists data,
            os_ReadFile env (instant w) filename = inl data
            /\ json.Unmarshal_Messages data = inr cause).
Proof.
  intros Hcmd Hbad.
  unfold handleLoadCommand, strings.SplitN_space_2.
  rewrite cut_space_first by exact Hcmd.
  unfold loadConversation. run_M.
  destruct (os_ReadFile env (instant w) filename) as [data|cause] eqn:Hread.
  - destruct (Hbad data eq_refl) as (cause & Hdec). rewrite Hdec. run_M.
    eexists _, cause. split; [reflexivity|]. split; [reflexivity|].
    right. exists data. auto.
  - run_M. eexists _, cause. split; [reflexivity|]. split; [reflexivity|].
    left. reflexivity.
Qed.

Lemma handleLoadCommand_failure_witness :
  noSpace "/load" = true
  /\ (forall data,
         os_ReadFile env_refusing (instant (world_start [])) "none.json"
         = inl data ->
         exists err, json.Unmarshal_Messages data = inr err)
  /\ exists err cause,
      handleLoadCommand env_refusing ("/load" +:+ " " +:+ "none.json")
        (world_start [])
      = (None,
         mkWorld (S (instant (world_start [])))
           (trace (world_start []) ++ [Print (LoadFailed err)])
           (stdin (world_start [])) (conversation (world_start [])))
      /\ errors.Unwrap err = Some cause
      /\ (os_ReadFile env_refusing (instant (world_start [])) "none.json"
          = inr cause
          \/ exists data,
              os_ReadFile env_refusing (instant (world_start [])) "none.json"
              = inl data
              /\ json.Unmarshal_Messages data = inr cause).
Proof.
  split; [reflexivity|].
  split; [intros data H; discriminate|].
  apply (handleLoadCommand_failure env_refusing "/load" "none.json"
           (world_start [])).
  - reflexivity.
  - intros data H. discriminate.
Defined.

Lemma length_substring_le (n : nat) :
  forall s, (String.length (String.substring 0 n s) <= n)%nat.
Proof.
  induction n as [|n IH]; intros s.
  - destruct s; simpl; lia.
  - destruct s as [|c s]; simpl; [lia|]. specialize (IH s). lia.
Qed.

Lemma truncateString_bounded_length (s : string) :
  (String.length (truncateString s 50) <= 50)%nat.
Proof.
  unfold truncateString.
  destruct (String.length s <=? 50)%nat eqn:Hfit.
  - now apply Nat.leb_le in Hfit.
  - rewrite length_append.
    pose proof (length_substring_le (50 - 3) s) as H.
    change (String.length "...") with 3%nat. lia.
Qed.

(** X21: [truncateString] with a bound of three bytes or more returns
    a text no longer than the bound: the text itself when it fits, and
    otherwise its first [maxLen - 3] bytes followed by three dots. *)
Theorem truncateString_bounded (s : string) (maxLen : nat) :
  (3 <= maxLen)%nat ->
  (String.length (truncateString s maxLen) <= maxLen)%nat
  /\ ((String.length s <= maxLen)%nat -> truncateString s maxLen = s)
  /\ ((maxLen < String.length s)%nat ->
      truncateString s maxLen
      = String.substring 0 (maxLen - 3) s +:+ "...").
Proof.
  intros Hmax. unfold truncateString.
  destruct (String.length s <=? maxLen)%nat eqn:Hfit.
  - apply Nat.leb_le in Hfit. split; [exact Hfit|].
    split; [reflexivity|lia].
  - apply Nat.leb_gt in Hfit. split; [|split; [lia|reflexivity]].
    rewrite length_append.
    pose proof (length_substring_le (maxLen - 3) s) as H.
    change (String.length "...") with 3%nat. lia.
Qed.

Lemma truncateString_bounded_witness :
  (3 <= 50)%nat
  /\ (String.length
        (truncateString
           "a monoid in the category of endofunctors, what is the problem"
           50) <= 50)%nat.
Proof.
  split; [lia|].
  apply (truncateString_bounded
           "a monoid in the category of endofunctors, what is the problem"
           50).
  lia.
Defined.

Lemma Forall2_map_self {A B : Type} (P : B -> A -> Prop) (f : A -> B)
  (l : list A) :
  (forall x, P (f x) x) -> Forall2 P (map f l) l.
Proof.
  intros H. induction l as [|x l IH]; constructor; auto.
Qed.

(** X22: the summary changes nothing and shows the number of messages,
    the stored count and the last six messages at most, in their
    order: each with its role and with its content, whole when it has
    fifty bytes at most and else cut to its first 47 bytes followed by
    three dots. *)
Theorem printConversationSummary_shows_last_six (w : World) :
  exists shown,
    printConversationSummary w
    = (tt,
       mkWorld (instant w)
         (trace w
          ++ [Print (Summary (length (History (conversation w)))
                       (tokenCount (conversation w)) shown)])
         (stdin w) (conversation w))
    /\ length shown = Nat.min 6 (length (History (conversation w)))
    /\ map fst shown
       = map Role
           (drop (length (History (conversation w)) - 6)
              (History (conversation w)))
    /\ Forall (fun p => (String.length (snd p) <= 50)%nat) shown
    /\ Forall2
         (fun p msg =>
            fst p = Role msg
            /\ snd p
               = if (String.length (Content msg) <=? 50)%nat
                 then Content msg
                 else String.substring 0 47 (Content msg) +:+ "...")
         shown
         (drop (length (History (conversation w)) - 6)
            (History (conversation w))).
Proof.
  unfold printConversationSummary. run_M.
  eexists. split; [reflexivity|]. split; [|split; [|split]].
  - rewrite length_map, length_drop. lia.
  - rewrite map_map. reflexivity.
  - apply Forall_map. apply Forall_forall. intros msg _. cbn [snd].
    apply (truncateString_bounded_length (Content msg)).
  - apply Forall2_map_self. intros msg. cbn [fst snd]. split; reflexivity.
Qed.

(** ** The welcome banner *)

Lemma quot2_neg_iff (x : Z) : Z.quot x 2 < 0 <-> x <= -2.
Proof.
  split; intros H.
  - destruct (Z_le_gt_dec x (-2)) as [|Hgt]; [assumption|].
    destruct (Z_lt_le_dec x 0) as [Hneg|Hpos].
    + assert (x = -1) as -> by lia. vm_compute in H. discriminate.
    + pose proof (Z.quot_pos x 2 Hpos). lia.
  - rewrite <- (Z.opp_involutive x), Z.quot_opp_l by lia.
    assert (1 <= Z.quot (- x) 2); [|lia].
    apply Z.quot_le_lower_bound; lia.
Qed.

Lemma strings_Repeat_None (s : string) (count : Z) :
  Z.of_nat (String.length s) * count <= max_int ->
  strings_Repeat s count = None <-> count < 0.
Proof.
  intros Hfit. unfold strings_Repeat. destruct (count <? 0) eqn:H.
  - apply Z.ltb_lt in H. tauto.
  - apply Z.ltb_ge in H.
    replace (max_int <? Z.of_nat (String.length s) * count) with false
      by (symmetry; apply Z.ltb_ge; exact Hfit).
    split; [discriminate|lia].
Qed.

Lemma quot2_le (x : Z) : 0 <= x -> Z.quot x 2 <= x.
Proof.
  intros H. pose proof (Z.quot_pos x 2 H).
  destruct (Z.eq_dec x 0) as [->|]; [vm_compute; discriminate|].
  apply Z.lt_le_incl, Z.quot_lt; lia.
Qed.

(** X23: [printWelcomeMessage] panics exactly when the width reported
    for the terminal is 23 columns or less, 0 among them: then a count
    given to [strings.Repeat] is negative. Under 4 columns it panics
    with the screen cleared and nothing else written. *)
Theorem printWelcomeMessage_panics (width : Z) :
  - 2 ^ 60 <= width <= 2 ^ 60 ->
  (snd (printWelcomeMessage width) = false <-> width <= 23)
  /\ (width < 4 -> printWelcomeMessage width = (clearScreen, false)).
Proof.
  intros Hrange. unfold printWelcomeMessage.
  change (Z.of_nat (String.length "Welcome to the AI Chat!")) with 23.
  rewrite !int_wrap_small by (rewrite ?int_wrap_small; lia).
  assert (Hborder : strings_Repeat "─" (width - 4) = None <-> width - 4 < 0).
  { apply strings_Repeat_None.
    change (Z.of_nat (String.length "─")) with 3. unfold max_int. lia. }
  assert (Hpad : forall x, - 2 ^ 61 <= x <= 2 ^ 61 ->
                           strings_Repeat " " (Z.quot x 2) = None <-> x <= -2).
  { intros x Hx. rewrite <- quot2_neg_iff. apply strings_Repeat_None.
    change (Z.of_nat (String.length " ")) with 1. unfold max_int.
    destruct (Z_lt_le_dec x 0) as [Hneg|Hpos].
    - assert (Z.quot x 2 <= 0); [|lia].
      apply Z.quot_le_upper_bound; lia.
    - pose proof (quot2_le x Hpos). lia. }
  destruct (strings_Repeat "─" (width - 4)) as [border|] eqn:Hb.
  - assert (Hw : ~ width - 4 < 0)
      by (intros H; apply Hborder in H; congruence).
    pose proof (Hpad (width - 23 - 2) ltac:(lia)) as Hl.
    pose proof (Hpad (width - 23 - 1) ltac:(lia)) as Hr.
    destruct (strings_Repeat " " (Z.quot (width - 23 - 2) 2))
      as [padLeft|].
    + assert (~ width - 23 - 2 <= -2)
        by (intros H; apply Hl in H; congruence).
      destruct (strings_Repeat " " (Z.quot (width - 23 - 1) 2))
        as [padRight|].
      * cbn [snd]. split; [split; [discriminate|lia]|lia].
      * assert (width - 23 - 1 <= -2) by (apply Hr; reflexivity). lia.
    + assert (width - 23 - 2 <= -2) by (apply Hl; reflexivity).
      cbn [snd]. split; [split; [lia|reflexivity]|lia].
  - assert (width - 4 < 0) by (apply Hborder; reflexivity). cbn [snd].
    split; [split; [lia|reflexivity]|reflexivity].
Qed.

Lemma printWelcomeMessage_panics_witness :
  - 2 ^ 60 <= 0 <= 2 ^ 60
  /\ snd (printWelcomeMessage 0) = false
  /\ printWelcomeMessage 0 = (clearScreen, false)
  /\ snd (printWelcomeMessage 80) = true.
Proof.
  split; [lia|].
  split; [apply (proj1 (printWelcomeMessage_panics 0 ltac:(lia))); lia|].
  split; [apply (proj2 (printWelcomeMessage_panics 0 ltac:(lia))); lia|].
  vm_compute. reflexivity.
Defined.

(** ** Saving, the status of the response, records without text *)

(** X24: a save encodes the messages of the conversation and writes
    them once, to the file named after the time of the command, then
    reports the file written or the error of the writing; when the
    encoding fails nothing is written. In every case the conversation
    is as it was and the command returns [nil]. *)
Theorem handleSaveCommand_writes_snapshot (env : Env) (w : World) :
  let filename :=
    "conversation_"
    +:+ time_Format env "20060102_150405" (time_Now env (instant w))
    +:+ ".json" in
  match json_MarshalIndent env (History (conversation w)) with
  | inr err =>
      handleSaveCommand env w
      = (None,
         mkWorld (S (instant w))
           (trace w
            ++ [Print (SaveFailed
                         (fmt.Errorf_w "failed to marshal conversation: "
                            (Some err)))])
           (stdin w) (conversation w))
  | inl data =>
      handleSaveCommand env w
      = (None,
         mkWorld (S (S (instant w)))
           (trace w
            ++ [WriteFile filename data;
                Print
                  match os_WriteFile env (S (instant w)) filename data with
                  | None => Saved filename
                  | Some err =>
                      SaveFailed
                        (fmt.Errorf_w "failed to write conversation file: "
                           (Some err))
                  end])
           (stdin w) (conversation w))
  end.
Proof.
  cbv zeta. unfold handleSaveCommand, saveConversation, getHistory. run_M.
  destruct (json_MarshalIndent env (History (conversation w))) as [data|err];
    run_M; [|reflexivity].
  destruct (os_WriteFile env (S (instant w)) _ data); run_M;
    rewrite <- app_assoc; reflexivity.
Qed.

(** X25: a response whose status is not 200 is an error that names
    the status and carries the body as it is; its body is not decoded,
    whatever it holds, and no text is returned. *)
Theorem getAIResponse_bad_status (env : Env) (w : World)
  (response : Response) :
  (forall request,
      httpClient_Do env (S (instant w)) request = inl response) ->
  StatusCode response <> 200 ->
  fst (getAIResponse env w)
  = ("",
     Some (errorString
             ("API request failed with status "
              +:+ fmt.d (StatusCode response) +:+ ": "
              +:+ content (Body response)))).
Proof.
  intros HDo Hstatus. unfold getAIResponse, sendRequest, createRequestBody.
  run_M. rewrite HDo.
  destruct (StatusCode response =? 200) eqn:H200.
  - apply Z.eqb_eq in H200. contradiction.
  - reflexivity.
Qed.

Lemma getAIResponse_bad_status_witness :
  let env :=
    {| select_wait := select_wait env_refusing;
       httpClient_Do := fun _ _ => inl (mkResponse 429 stream_hi_there);
       rand_Int63 := rand_Int63 env_refusing;
       time_Now := time_Now env_refusing;
       ctx_Err := ctx_Err env_refusing;
       os_ReadFile := os_ReadFile env_refusing;
       os_WriteFile := os_WriteFile env_refusing;
       time_Format := time_Format env_refusing;
       json_MarshalIndent := json_MarshalIndent env_refusing |} in
  StatusCode (mkResponse 429 stream_hi_there) <> 200
  /\ fst (getAIResponse env (world_start []))
     = ("",
        Some (errorString
                ("API request failed with status " +:+ "429" +:+ ": "
                 +:+ content stream_hi_there))).
Proof.
  cbv zeta. split; [discriminate|].
  apply (getAIResponse_bad_status
           {| select_wait := select_wait env_refusing;
              httpClient_Do := fun _ _ => inl (mkResponse 429 stream_hi_there);
              rand_Int63 := rand_Int63 env_refusing;
              time_Now := time_Now env_refusing;
              ctx_Err := ctx_Err env_refusing;
              os_ReadFile := os_ReadFile env_refusing;
              os_WriteFile := os_WriteFile env_refusing;
              time_Format := time_Format env_refusing;
              json_MarshalIndent := json_MarshalIndent env_refusing |}
           (world_start []) (mkResponse 429 stream_hi_there)).
  - intros request. reflexivity.
  - discriminate.
Defined.

(** X26: a data line whose record decodes but holds no text at
    [choices[0].delta.content], because a key is missing or a value
    has another type, adds nothing and is no error wherever it stands
    in the stream: after any lines [ls], the stream decodes as the
    stream without it. This holds of a reader that ends with [io.EOF]
    and of a reader that brings its error after the line; the last
    line need not be closed by a line feed. *)
Theorem processStreamResponse_skips_empty_records (ls : list string)
  (line : string) (err : option error) (k : nat)
  (jsonResponse : gmap string any) :
  Forall (fun l => isLine l = true) ls ->
  isLine line = true ->
  isData (bufio.dropCR line) = true ->
  json.Unmarshal_map (payload (bufio.dropCR line)) = inl jsonResponse ->
  extractContent jsonResponse = "" ->
  (forall rest,
      bufio.Err err = None \/ (k <= String.length rest)%nat ->
      processStreamResponse
        (mkReader (joinLines ls +:+ line +:+ LF +:+ rest) err k)
      = processStreamResponse (mkReader (joinLines ls +:+ rest) err k))
  /\ (bufio.Err err = None \/ k = 0%nat ->
      processStreamResponse (mkReader (joinLines ls +:+ line) err k)
      = processStreamResponse (mkReader (joinLines ls) err k)).
Proof.
  intros Hls Hline Hdata Hdec Hnone.
  assert (Hskip : forall errNow next buffer lastError,
             processStreamResponse_loop
               (Token (bufio.dropCR line) errNow next) buffer lastError
             = processStreamResponse_loop next buffer lastError).
  { intros errNow next buffer lastError. cbn [processStreamResponse_loop].
    unfold isData, payload in Hdata, Hdec. rewrite Hdata. cbn [negb].
    destruct (String.eqb (strings.TrimPrefix (bufio.dropCR line) "data: ")
                "[DONE]") eqn:Hdone.
    { apply String.eqb_eq in Hdone. rewrite Hdone in Hdec.
      vm_compute in Hdec. discriminate. }
    rewrite Hdec, Hnone. reflexivity. }
  split.
  - intros rest Hend. now apply processStreamResponse_without_line.
  - intros Hend. now apply processStreamResponse_without_last_line.
Qed.

Lemma processStreamResponse_skips_empty_records_witness :
  processStreamResponse
    (mkReader
       (joinLines [dq "data: {'choices':[{'delta':{'content':'Hi'}}]}"]
        +:+ dq "data: {'choices':[{'delta':{'role':'assistant'}}]}" +:+ LF
        +:+ "data: [DONE]" +:+ LF)
       (Some (errorString "connection reset")) 5)
  = processStreamResponse
      (mkReader
         (joinLines [dq "data: {'choices':[{'delta':{'content':'Hi'}}]}"]
          +:+ "data: [DONE]" +:+ LF)
         (Some (errorString "connection reset")) 5)
  /\ processStreamResponse
       (mkReader
          (joinLines [dq "data: {'choices':[{'delta':{'content':'Hi'}}]}"]
           +:+ dq "data: {'choices':[{'delta':{'role':'assistant'}}]}")
          None 3)
     = processStreamResponse
         (mkReader
            (joinLines [dq "data: {'choices':[{'delta':{'content':'Hi'}}]}"])
            None 3).
Proof.
  assert (Hdec : exists m,
             json.Unmarshal_map
               (payload
                  (bufio.dropCR
                     (dq "data: {'choices':[{'delta':{'role':'assistant'}}]}")))
             = inl m /\ extractContent m = "").
  { vm_compute. eexists. split; reflexivity. }
  destruct Hdec as (m & Hdec & Hnone).
  split.
  - apply (proj1
             (processStreamResponse_skips_empty_records
                [dq "data: {'choices':[{'delta':{'content':'Hi'}}]}"]
                (dq "data: {'choices':[{'delta':{'role':'assistant'}}]}")
                (Some (errorString "connection reset")) 5 m
                ltac:(repeat constructor) eq_refl eq_refl Hdec Hnone)
             ("data: [DONE]" +:+ LF)).
    right. vm_compute. lia.
  - apply (proj2
             (processStreamResponse_skips_empty_records
                [dq "data: {'choices':[{'delta':{'content':'Hi'}}]}"]
                (dq "data: {'choices':[{'delta':{'role':'assistant'}}]}")
                None 3 m
                ltac:(repeat constructor) eq_refl eq_refl Hdec Hnone)).
    left. reflexivity.
Defined.
